(** * Galv backend: serializer validation and file-upload logic

    A shallow embedding of the validation and write paths of
    [backend_django/galv/serializers/serializers.py]:

    - [WithTeamMixin]: access-level defaults and [validate];
    - [TransparentGroupSerializer.update];
    - [HarvesterSerializer.validate_name];
    - [ColumnMappingSerializer.get_rendered_map] and [validate_map];
    - [ObservedFileCreateSerializer.create];
    - [ArbitraryFileCreateSerializer.create].

    Python exceptions are values of [exn]; a method that may raise returns
    a [result].  Dictionaries keyed by strings are [gmap string _]; a
    dictionary that is iterated in insertion order is an association list. *)

From Stdlib Require Import ZArith Bool Lia DecimalString.
From stdpp Require Import base option list gmap strings sets.

Local Open Scope Z_scope.

(** ** Exceptions and results *)

Inductive exn : Type :=
| ValidationError (detail : string)   (* rest_framework.exceptions.ValidationError *)
| StorageError (detail : string)      (* galv.models.StorageError *)
| Exception (detail : string).        (* any other subclass of Exception *)

Inductive result (A : Type) : Type :=
| Ok (a : A)
| Raise (e : exn).
Arguments Ok {A} a.
Arguments Raise {A} e.

#[global] Instance result_ret : MRet result := @Ok.
#[global] Instance result_bind : MBind result :=
  fun A B f m => match m with Ok a => f a | Raise e => Raise e end.

Definition is_ok {A} (r : result A) : bool :=
  match r with Ok _ => true | Raise _ => false end.

Definition is_validation_error {A} (r : result A) : bool :=
  match r with Raise (ValidationError _) => true | _ => false end.

(** [str(e)], as the f-strings of the source use it.  The framework
    prints a validation error as the list of its details (shown here for a
    detail without quote characters). *)
Definition str_exn (e : exn) : string :=
  match e with
  | ValidationError d => "[ErrorDetail(string='" +:+ d +:+ "', code='invalid')]"
  | StorageError d => d
  | Exception d => d
  end.

(** Modelled from the spec: the status of the response built from an
    exception.  The views and the exception handler live in
    [galv/views], which is not among the files embedded here.  The
    framework answers a validation error with 400; a storage error that
    reaches the protocol layer is answered with 507, as the
    specification says and [test_parquet_upload] expects of the report
    view. *)
Definition status_code (e : exn) : Z :=
  match e with
  | ValidationError _ => 400   (* HTTP_400_BAD_REQUEST *)
  | StorageError _ => 507      (* HTTP_507_INSUFFICIENT_STORAGE *)
  | Exception _ => 500
  end.

(** *** Stateful code: a state and exception monad

    A raised exception keeps the state reached so far, as a Python
    exception keeps the effects already performed. *)

Definition M (S A : Type) : Type := S -> result A * S.

#[global] Instance M_ret {S} : MRet (M S) := fun A a s => (Ok a, s).
#[global] Instance M_bind {S} : MBind (M S) :=
  fun A B f m s =>
    match m s with
    | (Ok a, s') => f a s'
    | (Raise e, s') => (Raise e, s')
    end.

Definition raise {S A} (e : exn) : M S A := fun s => (Raise e, s).
Definition lift {S A} (r : result A) : M S A := fun s => (r, s).
Definition gets {S A} (f : S -> A) : M S A := fun s => (Ok (f s), s).
Definition modify {S} (f : S -> S) : M S unit := fun s => (Ok tt, f s).

(** [try: body except Exception as e: handler e] *)
Definition try_except {S A} (body : M S A) (handler : exn -> M S A) : M S A :=
  fun s =>
    match body s with
    | (Ok a, s') => (Ok a, s')
    | (Raise e, s') => handler e s'
    end.

(** [try: body finally: cleanup] *)
Definition try_finally {S A} (body : M S A) (cleanup : M S unit) : M S A :=
  fun s =>
    match body s with
    | (r, s') =>
        match cleanup s' with
        | (Ok _, s'') => (r, s'')
        | (Raise e, s'') => (Raise e, s'')
        end
    end.

(** [for x in xs: body x] *)
Fixpoint for_each {S A} (xs : list A) (body : A -> M S unit) : M S unit :=
  match xs with
  | [] => mret tt
  | x :: xs => _ ← body x; for_each xs body
  end.

(** ** User levels *)

Module UserLevel.

(** Modelled from the spec: the [UserLevel] enumeration is declared in
    [galv/models], which is not among the files embedded here.  The spec
    gives it as the ordered enumeration
    ANONYMOUS < LAB_MEMBER < TEAM_MEMBER < TEAM_ADMIN < LAB_ADMIN. *)
Inductive t : Type :=
| ANONYMOUS | LAB_MEMBER | TEAM_MEMBER | TEAM_ADMIN | LAB_ADMIN.

(** Modelled from the spec: the integer [.value] of a level, which the
    serializers store and compare.  The spec gives only the order of the
    levels; [value] numbers them in that order. *)
Definition value (l : t) : Z :=
  match l with
  | ANONYMOUS => 0
  | LAB_MEMBER => 1
  | TEAM_MEMBER => 2
  | TEAM_ADMIN => 3
  | LAB_ADMIN => 4
  end.

End UserLevel.

(** ** WithTeamMixin *)

Module WithTeamMixin.
Import UserLevel.

(** The three thresholds stored on a team-owned resource. *)
Record instance : Type := mk_instance {
  read_access_level : Z;
  edit_access_level : Z;
  delete_access_level : Z
}.

Definition getattr (i : instance) (level : string) : Z :=
  if String.eqb level "read_access_level" then read_access_level i
  else if String.eqb level "edit_access_level" then edit_access_level i
  else delete_access_level i.

Definition access_levels : list string :=
  ["read_access_level"; "edit_access_level"; "delete_access_level"].

(** The serializer fields of the mixin with their [default=] argument;
    [None] is a field declared without a default. *)
Definition field_defaults : list (string * option Z) :=
  [("read_access_level", Some (value LAB_MEMBER));
   ("edit_access_level", Some (value TEAM_MEMBER));
   ("delete_access_level", Some (value TEAM_MEMBER))].

(** [MonitoredPathSerializer] redeclares [edit_access_level] with
    [required=False] and no default. *)
Definition monitored_path_field_defaults : list (string * option Z) :=
  [("read_access_level", Some (value LAB_MEMBER));
   ("edit_access_level", None);
   ("delete_access_level", Some (value TEAM_MEMBER))].

(** What the framework hands to [validate] on a create: a field missing
    from the request takes its declared default, a field without a
    default stays absent. *)
Definition with_defaults (fields : list (string * option Z))
    (data : gmap string Z) : gmap string Z :=
  foldl (fun attrs '(name, dflt) =>
           match attrs !! name, dflt with
           | None, Some d => <[name := d]> attrs
           | _, _ => attrs
           end) data fields.

(** [if level in attrs and getattr(self.instance, level) == attrs[level]:
    del attrs[level]] *)
Definition remove_if_unchanged (inst : instance) (attrs : gmap string Z)
    (level : string) : gmap string Z :=
  match attrs !! level with
  | Some v => if decide (getattr inst level = v)
              then delete level attrs else attrs
  | None => attrs
  end.

(** The loop that drops the levels equal to the stored ones. *)
Definition remove_unchanged (inst : instance) (attrs : gmap string Z)
    : gmap string Z :=
  foldl (remove_if_unchanged inst) attrs access_levels.

Definition contains (attrs : gmap string Z) (k : string) : bool :=
  bool_decide (is_Some (attrs !! k)).

(** The checks of the editor's own level, lines 734-744. *)
Definition check_user_level (inst : instance) (user_access_level : Z)
    (attrs : gmap string Z) : result unit :=
  _ ← (if contains attrs "read_access_level" || contains attrs "edit_access_level"
       then
         if user_access_level <? value TEAM_MEMBER
         then Raise (ValidationError
                "You may only change access levels if you are a team member")
         else
           foldl (fun acc access_level =>
                    _ ← acc;
                    if contains attrs access_level
                       && (getattr inst access_level >? user_access_level)
                    then Raise (ValidationError
                           ("You may not change " +:+ access_level +:+
                            " because your access level is too low"))
                    else Ok tt)
                 (Ok tt) ["read_access_level"; "edit_access_level"]
       else Ok tt);
  if contains attrs "delete_access_level"
     && (user_access_level <? value TEAM_ADMIN)
  then Raise (ValidationError
         "You may only change delete access levels if you are a team admin")
  else Ok tt.

(** The hierarchy checks, lines 745-758. *)
Definition check_hierarchy (self_instance : option instance)
    (attrs : gmap string Z) : result unit :=
  _ ← match attrs !! "read_access_level" with
      | Some r =>
          let edit_level :=
            default (match self_instance with
                     | Some i => edit_access_level i
                     | None => value TEAM_ADMIN
                     end) (attrs !! "edit_access_level") in
          if r >? edit_level
          then Raise (ValidationError
                 "Read access level must be less than or equal to edit access level")
          else Ok tt
      | None => Ok tt
      end;
  match attrs !! "edit_access_level" with
  | Some e =>
      let delete_level :=
        default (match self_instance with
                 | Some i => delete_access_level i
                 | None => value TEAM_ADMIN
                 end) (attrs !! "delete_access_level") in
      if e >? delete_level
      then Raise (ValidationError
             "Edit access level must be less than or equal to delete access level")
      else Ok tt
  | None => Ok tt
  end.

(** [WithTeamMixin.validate].  [user_access_level] is the value of
    [self.instance.get_user_level(request)], read only on an update. *)
Definition validate (self_instance : option instance)
    (user_access_level : Z) (attrs : gmap string Z)
    : result (gmap string Z) :=
  attrs ← match self_instance with
          | Some inst =>
              let attrs := remove_unchanged inst attrs in
              _ ← check_user_level inst user_access_level attrs;
              Ok attrs
          | None => Ok attrs
          end;
  _ ← check_hierarchy self_instance attrs;
  Ok attrs.

(** The framework's [ModelSerializer.update]: every validated attribute
    is set on the instance, the others keep their stored value. *)
Definition set_attrs (inst : instance) (attrs : gmap string Z) : instance :=
  {| read_access_level :=
       default (read_access_level inst) (attrs !! "read_access_level");
     edit_access_level :=
       default (edit_access_level inst) (attrs !! "edit_access_level");
     delete_access_level :=
       default (delete_access_level inst) (attrs !! "delete_access_level") |}.

(** The method that runs as [validate] of a serializer with the mixin:
    [WithTeamMixin.validate] itself, where the serializer does not
    define [validate] or calls [super().validate] (as
    [ColumnMappingSerializer] and [ObservedFileCreateSerializer] do), or
    a method that replaces it without calling it, as
    [ScheduleSerializer.validate] and [CyclerTestSerializer.validate]
    do: that one looks at no access level, and is given by the outcome
    of its own checks. *)
Inductive validate_method : Type :=
| Mixin
| Override (own_checks : result unit).

Definition run_validate (m : validate_method) (self_instance : option instance)
    (user_access_level : Z) (attrs : gmap string Z)
    : result (gmap string Z) :=
  match m with
  | Mixin => validate self_instance user_access_level attrs
  | Override own_checks => _ ← own_checks; Ok attrs
  end.

(** What the framework hands to [validate] on an update: on a partial
    update (PATCH) the levels of the request; on a full update (PUT) a
    level missing from the request takes the declared default of its
    field, as on a create. *)
Definition validated_data (fields : list (string * option Z)) (partial : bool)
    (data : gmap string Z) : gmap string Z :=
  if partial then data else with_defaults fields data.

(** The declared default of a field, if it has one. *)
Definition field_default (fields : list (string * option Z)) (name : string)
    : option Z :=
  match List.find (fun f => String.eqb f.1 name) fields with
  | Some (_, dflt) => dflt
  | None => None
  end.

(** An update through a serializer of the mixin: the framework's
    defaults, the [validate] that the serializer runs, then save. *)
Definition update (m : validate_method) (fields : list (string * option Z))
    (partial : bool) (inst : instance) (user_access_level : Z)
    (data : gmap string Z) : result instance :=
  attrs ← run_validate m (Some inst) user_access_level
            (validated_data fields partial data);
  Ok (set_attrs inst attrs).

(** A create: defaults, the [validate] that the serializer runs, then
    [Model.objects.create]; a level absent from the validated attributes
    takes the model's own default [model_defaults], which [galv/models]
    declares. *)
Definition create (m : validate_method) (fields : list (string * option Z))
    (model_defaults : instance) (data : gmap string Z) : result instance :=
  attrs ← run_validate m None 0 (with_defaults fields data);
  Ok (set_attrs model_defaults attrs).

Definition hierarchy (i : instance) : Prop :=
  read_access_level i <= edit_access_level i
  /\ edit_access_level i <= delete_access_level i.

(** What is raised inside the [try] block of [validate_team]. *)
Inductive team_exception : Type :=
| KeyError
| AssertionError
| Validation (detail : string).

(** The [try] block of [validate_team], lines 671-679.  [request] is the
    list [user_auth_details.team_ids] of the request in the context, and
    [None] when the context holds no request; [objects] are the keys of
    all teams; a team is given by its key. *)
Definition resolve_team (request : option (list nat)) (objects : list nat)
    (value : option nat) : team_exception + (list nat * nat) :=
  match request with
  | None => inl KeyError
  | Some team_ids =>
      let teams := filter (fun t => t ∈ team_ids) objects in
      match value with
      | None =>
          match teams with
          | [t] => inr (teams, t)
          | _ => inl (Validation
                   "You must specify a team because you are a member of multiple teams")
          end
      | Some t =>
          if bool_decide (t ∈ teams) then inr (teams, t) else inl AssertionError
      end
  end.

(** [WithTeamMixin.validate_team]; [self_instance] is the key of the
    team of the instance, on an update. *)
Definition validate_team (request : option (list nat)) (objects : list nat)
    (self_instance : option nat) (value : option nat) : result nat :=
  match resolve_team request objects value with
  | inl KeyError =>
      Raise (ValidationError
        "No request context available to determine user's teams")
  | inl _ =>
      Raise (ValidationError "You may only create resources in your own team(s)")
  | inr (teams, t) =>
      match self_instance with
      | Some instance_team =>
          if bool_decide (instance_team ∈ teams) then Ok t
          else Raise (ValidationError
                 "You may only edit resources in your own team(s)")
      | None => Ok t
      end
  end.

End WithTeamMixin.

(** ** TransparentGroupSerializer *)

Module TransparentGroupSerializer.

Record user : Type := mk_user {
  user_id : nat;
  is_active : bool
}.

(** A group: its members, and the lab whose admin group it is, if any.
    [hasattr(instance, 'editable_lab')] holds exactly when the reverse
    one-to-one relation from a lab exists. *)
Record group : Type := mk_group {
  user_set : gset nat;
  editable_lab : option nat
}.

Definition hasattr_editable_lab (instance : group) : bool :=
  bool_decide (is_Some (editable_lab instance)).

(** [validate_users]: only active users can be added to groups. *)
Definition validate_users (value : list user) : list user :=
  filter (fun u => is_active u = true) value.

(** [update]; [validated_data] maps ['user_set'] to the submitted users
    when the request carries them. *)
Definition update (instance : group) (validated_data : gmap string (list user))
    : result group :=
  match validated_data !! "user_set" with
  | Some users =>
      if hasattr_editable_lab instance && (length users <? 1)%nat
      then Raise (ValidationError
             "Labs must always have at least one administrator")
      else Ok {| user_set := list_to_set (user_id <$> users);
                 editable_lab := editable_lab instance |}
  | None => Ok instance
  end.

(** A request that submits [users]: field validation, then [update]. *)
Definition submit_users (instance : group) (users : list user) : result group :=
  update instance {[ "user_set" := validate_users users ]}.

End TransparentGroupSerializer.

(** ** HarvesterSerializer *)

Module HarvesterSerializer.

Record harvester : Type := mk_harvester {
  id : nat;
  name : string;
  lab : nat
}.

(** [validate_name] over the table [objects] of all harvesters.
    [HarvesterCreateSerializer] inherits it, with [self.instance = None]. *)
Definition validate_name (objects : list harvester)
    (self_instance : option harvester) (value : string) : result string :=
  let harvesters := filter (fun h => name h = value) objects in
  let harvesters :=
    match self_instance with
    | Some inst =>
        let harvesters := filter (fun h => id h <> id inst) harvesters in
        filter (fun h => lab h = lab inst) harvesters
    | None => harvesters
    end in
  if bool_decide (harvesters <> [])
  then Raise (ValidationError "Harvester with that name already exists")
  else Ok value.

(** The framework's [ModelSerializer.update] for a validated name: the
    row of the instance takes the name. *)
Definition rename (objects : list harvester) (inst : harvester)
    (value : string) : list harvester :=
  (fun h => if decide (id h = id inst)
            then {| id := id h; name := value; lab := lab h |}
            else h) <$> objects.

(** No two harvesters of one lab share a name. *)
Definition unique_names (objects : list harvester) : Prop :=
  forall h1 h2, h1 ∈ objects -> h2 ∈ objects ->
    name h1 = name h2 -> lab h1 = lab h2 -> id h1 = id h2.

End HarvesterSerializer.

(** ** ColumnMappingSerializer *)

Module ColumnMappingSerializer.

Abbreviation Q := QArith_base.Q.

(** A float: the rational that a finite one stands for, an infinity
    (which the JSON number [1e400] is read as), or not-a-number. *)
Inductive pyfloat : Type :=
| Finite (q : Q)
| Infinite (negative : bool)
| NaN.

(** The JSON values found inside a mapping entry; [PObject] is any list
    or nested dictionary. *)
Inductive pyval : Type :=
| PNone
| PBool (b : bool)
| PInt (z : Z)
| PFloat (f : pyfloat)
| PStr (s : string)
| PObject.

(** The outcome of [int(x)] or [float(x)]: the converted value, a
    [TypeError] or [ValueError], or an [OverflowError]. *)
Inductive conversion (A : Type) : Type :=
| Converted (a : A)
| Unconvertible
| Overflow.
Arguments Converted {A} a.
Arguments Unconvertible {A}.
Arguments Overflow {A}.

(** The exception object of an [OverflowError]. *)
Definition OverflowError : exn := Exception "OverflowError".

(** One value of the map: a dictionary of fields, or anything else. *)
Inductive entry : Type :=
| EDict (d : gmap string pyval)
| ENotDict (v : pyval).

(** The submitted [map]: a dictionary in insertion order, or anything else. *)
Inductive map_value : Type :=
| MDict (items : list (string * entry))
| MNotDict (v : pyval).

(** The builtins of the language that the methods call: [str(x)], the
    parsing of a string by [int(s)] and [float(s)], where [None] is a
    [ValueError], and the rounding of an integer to the nearest float by
    [float(n)], where [None] is an [OverflowError].  An integer of
    absolute value up to [2^53] is a float as it is. *)
Class PyBuiltins : Type := {
  py_str : pyval -> string;
  py_int_of_str : string -> option Z;
  py_float_of_str : string -> option pyfloat;
  py_float_of_int : Z -> option Q;
  py_float_of_small : forall z,
    Z.abs z <= 2 ^ 53 -> py_float_of_int z = Some (QArith_base.inject_Z z)
}.

(** A row of the [DataColumnType] table. *)
Record DataColumnType : Type := mk_column_type {
  pk : string;
  name : string;
  data_type : string;
  is_required : bool
}.

(** [DataColumnType.objects.get(pk=p)]; [None] is [DoesNotExist].  A key
    is sent as a string; any other value finds no row. *)
Definition objects_get (objects : list DataColumnType) (p : option pyval)
    : option DataColumnType :=
  match p with
  | Some (PStr s) => List.find (fun c => bool_decide (pk c = s)) objects
  | _ => None
  end.

(** [[c.pk for c in DataColumnType.objects.filter(is_required=True)]] *)
Definition required_column_ids (objects : list DataColumnType) : list string :=
  pk <$> filter (fun c => is_required c = true) objects.

Definition is_numeric (c : DataColumnType) : bool :=
  bool_decide (data_type c ∈ ["int"; "float"]).

(** [d[k] = v] on a dictionary kept in insertion order. *)
Fixpoint dict_set {V : Type} (k : string) (v : V) (d : list (string * V))
    : list (string * V) :=
  match d with
  | [] => [(k, v)]
  | (k', v') :: d' =>
      if decide (k' = k) then (k, v) :: d' else (k', v') :: dict_set k v d'
  end.

Fixpoint dict_get {V : Type} (k : string) (d : list (string * V)) : option V :=
  match d with
  | [] => None
  | (k', v') :: d' => if decide (k' = k) then Some v' else dict_get k d'
  end.

(** The validation errors of [validate_map], and their messages. *)
Inductive map_error : Type :=
| MapNotDict
| ValueNotDict
| NoColumnType (k : string)
| InvalidColumnType (v : pyval) (k : string)
| RequiredConflict (k : string) (column : string) (k0 : string)
| RenameRequired (k : string)
| NewNameNotStr (k : string)
| NotConvertible (k : string) (dt : string)
| MultiplierNotNumerical (k : string)
| AdditionNotNumerical (k : string)
| ConversionOverflow (k : string).

Definition message `{PyBuiltins} (e : map_error) : string :=
  match e with
  | MapNotDict => "Map must be a dictionary"
  | ValueNotDict => "Values must be dictionaries"
  | NoColumnType k =>
      "No column_type specified for column '" +:+ k +:+
      "' - perhaps you should use Unknown"
  | InvalidColumnType v k =>
      "Invalid column_type id '" +:+ py_str v +:+ "' for column '" +:+ k +:+ "'"
  | RequiredConflict k column k0 =>
      "Cannot assign column '" +:+ k +:+ "' to required column " +:+ column +:+
      ". Column " +:+ column +:+ " is already assigned to column '" +:+ k0 +:+ "'"
  | RenameRequired k =>
      "Column '" +:+ k +:+
      "' is one of the core required columns and cannot be renamed"
  | NewNameNotStr k => "new_name for column '" +:+ k +:+ "' must be a string"
  | NotConvertible k dt =>
      "Multiplier and addition for column '" +:+ k +:+ "' must be " +:+ dt
  | MultiplierNotNumerical k =>
      "Column '" +:+ k +:+ "' is not numerical, so it cannot have a multiplier"
  | AdditionNotNumerical k =>
      "Column '" +:+ k +:+ "' is not numerical, so it cannot have an addition"
  | ConversionOverflow k => "OverflowError"
  end.

(** What leaves [validate_map] for an error of the loop: a validation
    error with the message, except for the [OverflowError] of a
    conversion, which [except (ValueError, TypeError)] does not catch. *)
Definition raised `{PyBuiltins} (e : map_error) : exn :=
  match e with
  | ConversionOverflow _ => OverflowError
  | _ => ValidationError (message e)
  end.

#[global] Instance validation_ret : MRet (sum map_error) := fun A => inr.
#[global] Instance validation_bind : MBind (sum map_error) :=
  fun A B f m => match m with inr a => f a | inl e => inl e end.

(** [int(x)]: a finite float is truncated towards zero, an infinity is
    an [OverflowError], not-a-number a [ValueError]; [None] and objects
    are a [TypeError]. *)
Definition py_int `{PyBuiltins} (x : pyval) : conversion pyval :=
  match x with
  | PBool b => Converted (PInt (if b then 1 else 0))
  | PInt z => Converted (PInt z)
  | PFloat (Finite q) =>
      Converted (PInt (Z.quot (QArith_base.Qnum q) (Z.pos (QArith_base.Qden q))))
  | PFloat (Infinite _) => Overflow
  | PFloat NaN => Unconvertible
  | PStr s =>
      match py_int_of_str s with
      | Some z => Converted (PInt z)
      | None => Unconvertible
      end
  | PNone | PObject => Unconvertible
  end.

(** [float(x)]: an integer is rounded to the nearest float, and one too
    large for a float is an [OverflowError]; [None] and objects are a
    [TypeError]. *)
Definition py_float `{PyBuiltins} (x : pyval) : conversion pyval :=
  match x with
  | PBool b => Converted (PFloat (Finite (QArith_base.inject_Z (if b then 1 else 0))))
  | PInt z =>
      match py_float_of_int z with
      | Some q => Converted (PFloat (Finite q))
      | None => Overflow
      end
  | PFloat f => Converted (PFloat f)
  | PStr s =>
      match py_float_of_str s with
      | Some f => Converted (PFloat f)
      | None => Unconvertible
      end
  | PNone | PObject => Unconvertible
  end.

(** [type_fn = int if column_type.data_type == 'int' else float] *)
Definition type_fn `{PyBuiltins} (dt : string) (x : pyval) : conversion pyval :=
  if decide (dt = "int") then py_int x else py_float x.

Definition isinstance_str (x : pyval) : bool :=
  match x with PStr _ => true | _ => false end.

(** The two dictionaries that the loop of [validate_map] fills. *)
Record loop_state : Type := mk_loop_state {
  required_columns_supplied : gmap string string;
  new_value : list (string * entry)
}.

(** [required_columns_supplied = {}] and [new_value = {}] *)
Definition initial_state : loop_state :=
  {| required_columns_supplied := ∅; new_value := [] |}.

(** One iteration of [for k, v in value.items()]. *)
Definition validate_item `{PyBuiltins} (objects : list DataColumnType)
    (st : loop_state) (kv : string * entry) : map_error + loop_state :=
  let '(k, v) := kv in
  let new_value := dict_set k v (new_value st) in
  match v with
  | ENotDict _ => inl ValueNotDict
  | EDict d =>
      column_type ←
        match objects_get objects (d !! "column_type") with
        | Some c => inr c
        | None =>
            match d !! "column_type" with
            | None | Some PNone => inl (NoColumnType k)
            | Some x => inl (InvalidColumnType x k)
            end
        end;
      supplied ←
        (if bool_decide (pk column_type ∈ required_column_ids objects)
         then
           match required_columns_supplied st !! pk column_type with
           | Some k0 => inl (RequiredConflict k (name column_type) k0)
           | None => inr (<[pk column_type := k]> (required_columns_supplied st))
           end
         else inr (required_columns_supplied st));
      _ ← match d !! "new_name" with
          | Some n =>
              if is_required column_type then inl (RenameRequired k)
              else if isinstance_str n then inr tt
              else inl (NewNameNotStr k)
          | None => inr tt
          end;
      if is_numeric column_type then
        let dt := data_type column_type in
        match type_fn dt (default (PInt 1) (d !! "multiplier")) with
        | Unconvertible => inl (NotConvertible k dt)
        | Overflow => inl (ConversionOverflow k)
        | Converted m =>
            let d := <["multiplier" := m]> d in
            match type_fn dt (default (PInt 0) (d !! "addition")) with
            | Unconvertible => inl (NotConvertible k dt)
            | Overflow => inl (ConversionOverflow k)
            | Converted a =>
                let d := <["addition" := a]> d in
                inr {| required_columns_supplied := supplied;
                       new_value := dict_set k (EDict d) new_value |}
            end
        end
      else if bool_decide (is_Some (d !! "multiplier"))
      then inl (MultiplierNotNumerical k)
      else if bool_decide (is_Some (d !! "addition"))
      then inl (AdditionNotNumerical k)
      else inr {| required_columns_supplied := supplied;
                  new_value := new_value |}
  end.

Fixpoint validate_items `{PyBuiltins} (objects : list DataColumnType)
    (st : loop_state) (items : list (string * entry))
    : map_error + loop_state :=
  match items with
  | [] => inr st
  | kv :: items =>
      st ← validate_item objects st kv;
      validate_items objects st items
  end.

(** [validate_map] with its error kept in structured form. *)
Definition validate_map_checked `{PyBuiltins} (objects : list DataColumnType)
    (value : map_value) : map_error + list (string * entry) :=
  match value with
  | MNotDict _ => inl MapNotDict
  | MDict items =>
      st ← validate_items objects initial_state items;
      inr (new_value st)
  end.

(** [ColumnMappingSerializer.validate_map] *)
Definition validate_map `{PyBuiltins} (objects : list DataColumnType)
    (value : map_value) : result (list (string * entry)) :=
  match validate_map_checked objects value with
  | inr new_value => Ok new_value
  | inl e => Raise (raised e)
  end.

(** The body of the loop of [get_rendered_map] for one [key, value]. *)
Definition render_item (objects : list DataColumnType) (value : entry)
    : result (gmap string pyval) :=
  match value with
  | ENotDict _ => Raise (Exception "TypeError")
  | EDict d =>
      match d !! "column_type" with
      | None => Raise (Exception "KeyError: 'column_type'")
      | Some p =>
          match objects_get objects (Some p) with
          | None => Raise (Exception "DataColumnType.DoesNotExist")
          | Some data_column_type =>
              let out : gmap string pyval :=
                <["data_type" := PStr (data_type data_column_type)]>
                  {[ "new_name" :=
                       default (PStr (name data_column_type)) (d !! "new_name") ]} in
              if is_numeric data_column_type then
                Ok (<["addition" := default (PInt 0) (d !! "addition")]>
                      (<["multiplier" := default (PInt 1) (d !! "multiplier")]> out))
              else Ok out
          end
      end
  end.

(** [ColumnMappingSerializer.get_rendered_map] on the stored map. *)
Fixpoint get_rendered_map_from (objects : list DataColumnType)
    (out : list (string * gmap string pyval)) (items : list (string * entry))
    : result (list (string * gmap string pyval)) :=
  match items with
  | [] => Ok out
  | (key, value) :: items =>
      r ← render_item objects value;
      get_rendered_map_from objects (dict_set key r out) items
  end.

Definition get_rendered_map (objects : list DataColumnType)
    (instance_map : list (string * entry))
    : result (list (string * gmap string pyval)) :=
  get_rendered_map_from objects [] instance_map.



(** The column type that an entry of the map targets. *)
Definition column_type_of (objects : list DataColumnType) (v : entry)
    : option DataColumnType :=
  match v with
  | EDict d => objects_get objects (d !! "column_type")
  | ENotDict _ => None
  end.

(** The entry targets the required column type [c]. *)
Definition targets_required (objects : list DataColumnType) (v : entry)
    (c : DataColumnType) : Prop :=
  column_type_of objects v = Some c /\ pk c ∈ required_column_ids objects.

(** What the loop knows after the items [done] : every item that
    targets a required column type is recorded under the key of that
    type, and every record comes from such an item. *)
Definition supplied_inv (objects : list DataColumnType)
    (done : list (string * entry)) (st : loop_state) : Prop :=
  (forall i k v c,
     done !! i = Some (k, v) -> targets_required objects v c ->
     required_columns_supplied st !! pk c = Some k)
  /\ (forall p k0,
        required_columns_supplied st !! p = Some k0 ->
        exists i v c, done !! i = Some (k0, v)
                      /\ targets_required objects v c /\ pk c = p).

(** [d[k] = v] for each of the items in turn. *)
Definition dict_set_all {V : Type} (d : list (string * V))
    (items : list (string * V)) : list (string * V) :=
  foldl (fun d kv => dict_set kv.1 kv.2 d) d items.

(** The value is of the type that [type_fn] converts to. *)
Definition has_type (dt : string) (x : pyval) : Prop :=
  if decide (dt = "int") then exists z, x = PInt z else exists q, x = PFloat q.

(** An entry as [validate_map] leaves it: a dictionary whose column type
    exists; a [new_name], if any, is a string and the column type is not
    required; multiplier and addition are there, converted, exactly for
    a numeric column type. *)
Definition stored_entry (objects : list DataColumnType) (v : entry) : Prop :=
  match v with
  | ENotDict _ => False
  | EDict d =>
      match objects_get objects (d !! "column_type") with
      | None => False
      | Some c =>
          (forall n, d !! "new_name" = Some n ->
             is_required c = false /\ isinstance_str n = true)
          /\ if is_numeric c
             then exists m a,
               d !! "multiplier" = Some m /\ d !! "addition" = Some a
               /\ has_type (data_type c) m /\ has_type (data_type c) a
             else d !! "multiplier" = None /\ d !! "addition" = None
      end
  end.

(** Rounding of a natural number to 53 significant bits, to nearest and
    on a tie to even; [shift] is the number of bits dropped. *)
Definition round_half_even (a shift : Z) : Z :=
  let q := Z.shiftr a shift in
  let r := a - Z.shiftl q shift in
  let half := Z.shiftl 1 (shift - 1) in
  if (half <? r) || ((half =? r) && Z.odd q) then q + 1 else q.

(** [float(n)] for an integer: the nearest float, with its
    [OverflowError] when that would be [2^1024] or more. *)
Definition float_of_int (z : Z) : option Q :=
  if Z.abs z <=? 2 ^ 53 then Some (QArith_base.inject_Z z)
  else
    let shift := Z.log2 (Z.abs z) + 1 - 53 in
    let m := Z.shiftl (round_half_even (Z.abs z) shift) shift in
    if 2 ^ 1024 <=? m then None
    else Some (QArith_base.inject_Z (Z.sgn z * m)).

(** One instance of the builtins, for closed examples: integers are
    parsed and printed in decimal, a float is read from a decimal
    integer, which gives an infinity when it is too large, and values
    without a decimal form print as a placeholder. *)
Definition sample_builtins : PyBuiltins :=
  {| py_str := fun v =>
       match v with
       | PNone => "None"
       | PBool b => if b then "True" else "False"
       | PInt z => DecimalString.NilZero.string_of_int (Z.to_int z)
       | PStr s => s
       | PFloat _ | PObject => "..."
       end;
     py_int_of_str := fun s =>
       Z.of_int <$> DecimalString.NilEmpty.int_of_string s;
     py_float_of_str := fun s =>
       (fun d => match float_of_int (Z.of_int d) with
                 | Some q => Finite q
                 | None => Infinite (Z.of_int d <? 0)
                 end)
         <$> DecimalString.NilEmpty.int_of_string s;
     py_float_of_int := float_of_int;
     py_float_of_small := ltac:(
       intros z Hz; unfold float_of_int;
       by rewrite (proj2 (Z.leb_le _ _) Hz)) |}.

End ColumnMappingSerializer.

(** ** Fields of HarvesterSerializer *)

Module HarvesterFields.
Import ColumnMappingSerializer.

(** [int(value)] as an integer. *)
Definition int_of `{PyBuiltins} (value : pyval) : conversion Z :=
  match py_int value with
  | Converted (PInt z) => Converted z
  | Converted _ | Unconvertible => Unconvertible
  | Overflow => Overflow
  end.

(** [HarvesterSerializer.validate_sleep_time].  The handler of the [try]
    block returns the validation error, it does not raise it: the result
    is an integer or an exception object.  An [OverflowError] is not
    among the exceptions that the handler catches. *)
Definition validate_sleep_time `{PyBuiltins} (value : pyval) : result (Z + exn) :=
  match int_of value with
  | Converted z =>
      if 0 <? z then Ok (inl z)
      else Ok (inr (ValidationError "sleep_time must be an integer greater than 0"))
  | Unconvertible =>
      Ok (inr (ValidationError "sleep_time must be an integer greater than 0"))
  | Overflow => Raise OverflowError
  end.

(** A row of [HarvesterEnvVar] of the harvester at hand, found by its key. *)
Record env_var : Type := mk_env_var {
  value : string;
  deleted : bool
}.

(** The character class [[a-zA-Z0-9_]]. *)
Definition is_word_char (a : Ascii.ascii) : bool :=
  let n := Ascii.nat_of_ascii a in
  ((48 <=? n) && (n <=? 57) || (65 <=? n) && (n <=? 90)
   || (97 <=? n) && (n <=? 122) || (n =? 95))%nat.

Fixpoint all_word_chars (s : string) : bool :=
  match s with
  | EmptyString => true
  | String a s' => is_word_char a && all_word_chars s'
  end.

(** The string without one newline at its end, where [$] also matches. *)
Fixpoint without_final_newline (s : string) : string :=
  match s with
  | EmptyString => EmptyString
  | String a EmptyString =>
      if (Ascii.nat_of_ascii a =? 10)%nat then EmptyString else s
  | String a s' => String a (without_final_newline s')
  end.

(** [re.match(r'^[a-zA-Z0-9_]+$', k)] *)
Definition key_matches (k : string) : bool :=
  let body := without_final_newline k in
  negb (String.eqb body EmptyString) && all_word_chars body.

(** [k.upper()], on the characters that a matching key can hold. *)
Definition upper_char (a : Ascii.ascii) : Ascii.ascii :=
  let n := Ascii.nat_of_ascii a in
  if ((97 <=? n) && (n <=? 122))%nat then Ascii.ascii_of_nat (n - 32) else a.

Fixpoint upper (s : string) : string :=
  match s with
  | EmptyString => EmptyString
  | String a s' => String (upper_char a) (upper s')
  end.

(** The first loop of [EnvField.to_internal_value]: every key is checked
    before anything is written.  [values] are the items of the submitted
    dictionary, in its order; the values are strings, as the rows store
    them. *)
Definition check_keys (values : list (string * string)) : result unit :=
  match List.find (fun k => negb (key_matches k)) values.*1 with
  | Some k => Raise (ValidationError ("Key " +:+ k +:+ " is not alpha_numeric"))
  | None => Ok tt
  end.

(** The second loop: a row found under the upper-cased key gets the
    value and is not deleted; otherwise a row is created with the value,
    and with the default of [deleted], [deleted_default], which the
    model in [galv/models] declares. *)
Definition store_values (deleted_default : bool)
    (values : list (string * string))
    (rows : gmap string env_var) : gmap string env_var :=
  foldl (fun rows '(k, v) =>
           match rows !! upper k with
           | Some _ => <[upper k := {| value := v; deleted := false |}]> rows
           | None => <[upper k := {| value := v; deleted := deleted_default |}]> rows
           end)
        rows values.

(** The third loop: a row that is not deleted and whose key is not among
    the submitted ones is flagged as deleted. *)
Definition flag_missing (input_keys : list string)
    (rows : gmap string env_var) : gmap string env_var :=
  map_imap (fun k row =>
              Some (if deleted row then row
                    else if bool_decide (k ∈ input_keys) then row
                    else {| value := value row; deleted := true |})) rows.

(** [HarvesterEnvVar.objects.filter(harvester=..., deleted=False)] *)
Definition not_deleted (rows : gmap string env_var) : gmap string env_var :=
  filter (fun kv => deleted kv.2 = false) rows.

(** [EnvField.to_internal_value] *)
Definition to_internal_value (deleted_default : bool)
    (values : list (string * string))
    : M (gmap string env_var) (gmap string env_var) :=
  _ ← lift (check_keys values);
  _ ← modify (store_values deleted_default values);
  _ ← modify (flag_missing (upper <$> values.*1));
  gets not_deleted.

(** [EnvField.to_representation]: nothing in a list view, otherwise the
    value of every row that is not deleted, by key. *)
Definition to_representation (list_view : bool) (rows : gmap string env_var)
    : gmap string string :=
  if list_view then ∅
  else omap (fun row => if deleted row then None else Some (value row)) rows.

(** [get_deleted_environment_variables]: the keys of the deleted rows. *)
Definition get_deleted_environment_variables (rows : gmap string env_var)
    : gset string :=
  dom (filter (fun kv => deleted kv.2 = true) rows).

(** The dictionary that a submission stands for: upper-cased keys, a
    later item replacing an earlier one with the same key. *)
Definition submitted (values : list (string * string)) : gmap string string :=
  foldl (fun m '(k, v) => <[upper k := v]> m) ∅ values.

End HarvesterFields.

(** ** MonitoredPathSerializer *)

Module MonitoredPathSerializer.
Import ColumnMappingSerializer HarvesterFields.

(** [validate_stable_time_s] *)
Definition validate_stable_time_s `{PyBuiltins} (value : pyval) : result Z :=
  match int_of value with
  | Converted v =>
      if 0 <? v then Ok v
      else Raise (ValidationError
             ("stable_time_s value '" +:+ py_str value +:+
              "' is not a positive integer"))
  | Unconvertible =>
      Raise (ValidationError
        ("stable_time_s value '" +:+ py_str value +:+
         "' is not a positive integer"))
  | Overflow => Raise OverflowError
  end.

End MonitoredPathSerializer.

(** ** AdditionalS3StorageTypeSerializer *)

Module AdditionalS3StorageTypeSerializer.
Import ColumnMappingSerializer.

(** The two keys stored on an [AdditionalS3StorageType]. *)
Record instance : Type := mk_instance {
  access_key : string;
  secret_key : string
}.

(** [value in [None, shown]], for a string [shown]: a value that is not
    a string equals no string. *)
Definition is_none_or (shown : string) (value : pyval) : bool :=
  match value with
  | PNone => true
  | PStr s => bool_decide (s = shown)
  | _ => false
  end.

(** [value and isinstance(value, str)]: a string that is not empty. *)
Definition nonempty_str (value : pyval) : option string :=
  match value with
  | PStr s => if decide (s = "") then None else Some s
  | _ => None
  end.

Section Keys.
(** [self.fields['access_key'].to_representation] and
    [self.fields['secret_key'].to_representation]: how the two password
    fields show a stored key. *)
Context (access_key_representation secret_key_representation : string -> string).

(** [validate_access_key] *)
Definition validate_access_key (self_instance : option instance)
    (value : pyval) : result string :=
  match self_instance with
  | Some inst =>
      if is_none_or (access_key_representation (access_key inst)) value
      then Ok (access_key inst)
      else match nonempty_str value with
           | Some s => Ok s
           | None => Raise (ValidationError "access_key must be a string")
           end
  | None =>
      match nonempty_str value with
      | Some s => Ok s
      | None => Raise (ValidationError "access_key must be a string")
      end
  end.

(** [validate_secret_key] *)
Definition validate_secret_key (self_instance : option instance)
    (value : pyval) : result string :=
  match self_instance with
  | Some inst =>
      if is_none_or (secret_key_representation (secret_key inst)) value
      then Ok (secret_key inst)
      else match nonempty_str value with
           | Some s => Ok s
           | None => Raise (ValidationError "secret_key must be a string")
           end
  | None =>
      match nonempty_str value with
      | Some s => Ok s
      | None => Raise (ValidationError "secret_key must be a string")
      end
  end.

End Keys.

End AdditionalS3StorageTypeSerializer.

(** ** ScheduleSerializer *)

Module ScheduleSerializer.
Import ColumnMappingSerializer.

(** The [family] of a schedule: its template, and the names that
    [pybamm_template_variable_names()] returns. *)
Record schedule_family : Type := mk_schedule_family {
  pybamm_template : option string;
  pybamm_template_variable_names : list string
}.

(** The loop of [validate_pybamm_schedule_variables] over the items of
    the submitted dictionary. *)
Fixpoint check_variables `{PyBuiltins} (keys : list string)
    (items : list (string * pyval)) : result unit :=
  match items with
  | [] => Ok tt
  | (k, v) :: items =>
      if bool_decide (k ∉ keys)
      then Raise (ValidationError
             ("Schedule variable " +:+ k +:+ " is not in the template"))
      else match py_float v with
           | Unconvertible =>
               Raise (ValidationError
                 ("Schedule variable " +:+ k +:+ " must be a number"))
           | Overflow => Raise OverflowError
           | Converted _ => check_variables keys items
           end
  end.

(** [validate_pybamm_schedule_variables]; [self_instance] is the family
    of [self.instance], and [None] when there is no instance: reading
    [self.instance.family] is then an [AttributeError].  [value] is the
    submitted dictionary, or [None]. *)
Definition validate_pybamm_schedule_variables `{PyBuiltins}
    (self_instance : option schedule_family)
    (value : option (list (string * pyval)))
    : result (option (list (string * pyval))) :=
  match self_instance with
  | None => Raise (Exception "AttributeError")
  | Some family =>
      match pybamm_template family, value with
      | None, Some _ =>
          Raise (ValidationError
            "pybamm_schedule_variables has no effect if pybamm_template is not set")
      | _, None => Ok None
      | _, Some items =>
          _ ← check_variables (pybamm_template_variable_names family) items;
          Ok value
      end
  end.

End ScheduleSerializer.

(** ** UserSerializer and PasswordResetSerializer *)

Module UserSerializer.

(** A row of [UserProxy]: its key, its email address and the password
    that [check_password] accepts. *)
Record user : Type := mk_user {
  pk : nat;
  email : string;
  password : string
}.

(** [UserSerializer.validate_email] *)
Definition validate_email (objects : list user) (self_instance : option user)
    (value : string) : result string :=
  if match self_instance with
     | Some inst => bool_decide (email inst = value)
     | None => false
     end
  then Ok value
  else if bool_decide (filter (fun u => email u = value) objects <> [])
  then Raise (ValidationError "Email address is already in use")
  else Ok value.

(** The framework's [ModelSerializer.update] for a validated email
    address: the row of the instance takes it. *)
Definition set_email (objects : list user) (inst : user) (value : string)
    : list user :=
  (fun u => if decide (pk u = pk inst)
            then {| pk := pk u; email := value; password := password u |}
            else u) <$> objects.

(** No two users share an email address. *)
Definition unique_emails (objects : list user) : Prop :=
  forall u1 u2, u1 ∈ objects -> u2 ∈ objects ->
    email u1 = email u2 -> pk u1 = pk u2.

End UserSerializer.

Module PasswordResetSerializer.
Import UserSerializer.

(** A row of [PasswordReset]; [expired] is the value of the property of
    that name when the request is handled. *)
Record password_reset : Type := mk_password_reset {
  reset_user : nat;
  token : string;
  expired : bool
}.

Record database : Type := mk_database {
  users : list user;
  password_resets : list password_reset
}.

(** The outcomes of [Model.objects.get]. *)
Inductive get_result (A : Type) : Type :=
| Found (a : A)
| DoesNotExist
| MultipleObjectsReturned.
Arguments Found {A} _.
Arguments DoesNotExist {A}.
Arguments MultipleObjectsReturned {A}.

(** [Model.objects.get(...)], for the rows that meet the condition. *)
Definition objects_get {A} (matching : list A) : get_result A :=
  match matching with
  | [] => DoesNotExist
  | [a] => Found a
  | _ => MultipleObjectsReturned
  end.

Definition get_user (db : database) (address : string) : get_result user :=
  objects_get (filter (fun u => email u = address) (users db)).

Definition get_reset (db : database) (u : user) (tok : string)
    : get_result password_reset :=
  objects_get (filter (fun r => reset_user r = pk u /\ token r = tok)
                 (password_resets db)).

(** [PasswordResetSerializer.validate], on the [email] and the [token]
    of [attrs]. *)
Definition validate (db : database) (attrs_email attrs_token : string)
    : result (string * string) :=
  match get_user db attrs_email with
  | DoesNotExist => Raise (ValidationError "No user with that email address")
  | MultipleObjectsReturned => Raise (Exception "MultipleObjectsReturned")
  | Found user =>
      match get_reset db user attrs_token with
      | DoesNotExist => Raise (ValidationError "Invalid token")
      | MultipleObjectsReturned => Raise (Exception "MultipleObjectsReturned")
      | Found t =>
          if expired t then Raise (ValidationError "Token has expired")
          else Ok (attrs_email, attrs_token)
      end
  end.

(** [user.set_password(p); user.save()] *)
Definition save_password (u : user) (p : string) (db : database) : database :=
  {| users := (fun u' => if decide (pk u' = pk u)
                         then {| pk := pk u'; email := email u; password := p |}
                         else u') <$> users db;
     password_resets := password_resets db |}.

(** [PasswordReset.objects.filter(user=user).delete()] *)
Definition delete_resets (u : user) (db : database) : database :=
  {| users := users db;
     password_resets := filter (fun r => reset_user r <> pk u) (password_resets db) |}.

(** [PasswordResetSerializer.reset]; the result is the value of
    ["success"] in the dictionary that it returns. *)
Definition reset (validated_email validated_password : string)
    : M database bool :=
  fun db =>
    match get_user db validated_email with
    | DoesNotExist => (Raise (Exception "DoesNotExist"), db)
    | MultipleObjectsReturned => (Raise (Exception "MultipleObjectsReturned"), db)
    | Found user =>
        (Ok true, delete_resets user (save_password user validated_password db))
    end.

End PasswordResetSerializer.

(** ** File states *)

Module FileState.

(** Modelled from the spec: the [FileState] enumeration is declared in
    [galv/models], which is not among the files embedded here.  The spec
    lists the states of the file state machine. *)
Inductive t : Type :=
| AWAITING_FILE_METADATA
| AWAITING_MAP_ASSIGNMENT
| IMPORTING
| IMPORTED
| IMPORT_FAILED.

#[global] Instance eq_dec : EqDecision t.
Proof. solve_decision. Defined.

End FileState.

(** ** ObservedFileCreateSerializer *)

Module ObservedFileCreateSerializer.
Import FileState.

(** The JSON form of a column summary: for each column, the sampled
    values in their JSON text. *)
Abbreviation summary_json := (gmap string (list string)).

(** An [ObservedFile] object: its primary key and the fields that
    [create] reads or writes. *)
Record ObservedFile : Type := mk_observed_file {
  pk : nat;
  state : FileState.t;
  summary : summary_json;
  mapping : option nat;
  png : option string
}.

Record ParquetPartition : Type := mk_partition {
  observed_file_id : nat;
  partition_number : nat;
  bytes_required : Z;
  parquet_file : string
}.

(** The database tables and the temporary directory. *)
Record world : Type := mk_world {
  observed_files : gmap nat ObservedFile;
  parquet_partitions : list ParquetPartition;
  temp_files : gset string
}.

(** The summary that the processor computes, through its two
    conversions: [json.loads(summary.to_json())] and [summary.to_dict()]. *)
Record DataFrame : Type := mk_data_frame {
  to_json : result summary_json;
  to_dict : result summary_json
}.

(** The outcome of every call that leaves the serializer: the
    galv-harvester processor, the model layer and the file system. *)
Record environment : Type := mk_environment {
  write_chunks : result unit;          (* temp_file.write(chunk) for every chunk *)
  init_processor : result unit;        (* InternalHarvestProcessor(temp_file.name) *)
  summarise_columns : result DataFrame;
  objects_create : result unit;        (* ObservedFile.objects.create(...) *)
  initial_state : FileState.t;         (* the state of a freshly created row *)
  applicable_mappings : result (list nat);
  rendered_map : result unit;          (* ColumnMappingSerializer(mapping).data *)
  process_data : result unit;
  data_files : result (list (string * Z));  (* os.walk listing, with st_size *)
  partition_create : nat -> result unit;    (* ParquetPartition.objects.create *)
  open_png : result string;
  save_mapping : result unit;   (* observed_file.save() once the mapping is set *)
  save_result : result unit;    (* observed_file.save() that ends the try block *)
  save_failed : result unit     (* observed_file.save() in the except clause *)
}.

(** The local variables of [create] that outlive the [try] block,
    next to the world. *)
Record frame : Type := mk_frame {
  db : world;
  observed_file : option ObservedFile;
  mapping_var : option nat
}.

Definition set_state (s : FileState.t) (f : ObservedFile) : ObservedFile :=
  {| pk := pk f; state := s; summary := summary f;
     mapping := mapping f; png := png f |}.

Definition set_mapping (m : option nat) (f : ObservedFile) : ObservedFile :=
  {| pk := pk f; state := state f; summary := summary f;
     mapping := m; png := png f |}.

Definition set_png (p : option string) (f : ObservedFile) : ObservedFile :=
  {| pk := pk f; state := state f; summary := summary f;
     mapping := mapping f; png := p |}.

Definition with_db (f : world -> world) (fr : frame) : frame :=
  {| db := f (db fr); observed_file := observed_file fr;
     mapping_var := mapping_var fr |}.

Definition store_row (f : ObservedFile) (w : world) : world :=
  {| observed_files := <[pk f := f]> (observed_files w);
     parquet_partitions := parquet_partitions w;
     temp_files := temp_files w |}.

Definition add_partition (p : ParquetPartition) (w : world) : world :=
  {| observed_files := observed_files w;
     parquet_partitions := parquet_partitions w ++ [p];
     temp_files := temp_files w |}.

Definition add_temp_file (name : string) (w : world) : world :=
  {| observed_files := observed_files w;
     parquet_partitions := parquet_partitions w;
     temp_files := {[name]} ∪ temp_files w |}.

(** [os.unlink(name)] *)
Definition unlink (name : string) (w : world) : world :=
  {| observed_files := observed_files w;
     parquet_partitions := parquet_partitions w;
     temp_files := temp_files w ∖ {[name]} |}.

(** [observed_file = f] *)
Definition assign_observed_file (f : ObservedFile) : M frame unit :=
  modify (fun fr => {| db := db fr; observed_file := Some f;
                       mapping_var := mapping_var fr |}).

(** [mapping = m] *)
Definition assign_mapping (m : option nat) : M frame unit :=
  modify (fun fr => {| db := db fr; observed_file := observed_file fr;
                       mapping_var := m |}).

(** [observed_file.attr = ...]; on [None] this is an [AttributeError]. *)
Definition set_attribute (f : ObservedFile -> ObservedFile) : M frame unit :=
  fun fr =>
    match observed_file fr with
    | Some o => (Ok tt, {| db := db fr; observed_file := Some (f o);
                           mapping_var := mapping_var fr |})
    | None => (Raise (Exception "AttributeError"), fr)
    end.

(** [observed_file.save()], with the outcome of the call into the
    model layer: the row of the object takes its fields, or the call
    raises and the row stays as it is. *)
Definition save (outcome : result unit) : M frame unit :=
  fun fr =>
    match observed_file fr with
    | Some o =>
        match outcome with
        | Ok _ => (Ok tt, with_db (store_row o) fr)
        | Raise e => (Raise e, fr)
        end
    | None => (Raise (Exception "AttributeError"), fr)
    end.

(** [name.endswith(suffix)] *)
Definition endswith (name suffix : string) : bool :=
  String.prefix (String.rev suffix) (String.rev name).

(** [enumerate(xs)] *)
Definition enumerate {A} (xs : list A) : list (nat * A) :=
  zip (seq 0 (length xs)) xs.

(** The body of the loop over the files that [process_data] wrote. *)
Definition create_partition (env : environment) (file : nat * (string * Z))
    : M frame unit :=
  let '(i, (name, size)) := file in
  if endswith name ".parquet" then
    _ ← lift (partition_create env i);
    o ← gets observed_file;
    match o with
    | Some o =>
        modify (with_db (add_partition
          {| observed_file_id := pk o; partition_number := i;
             bytes_required := size; parquet_file := name |}))
    | None => raise (Exception "AttributeError")
    end
  else mret tt.

(** Lines 1875-1885: the target of a re-upload is checked against the
    new summary, or a row is created for a first upload. *)
Definition resolve_file (env : environment)
    (target_file : option ObservedFile) (new_summary : DataFrame)
    : M frame unit :=
  match target_file with
  | Some tf =>
      _ ← assign_observed_file tf;
      loaded ← lift (to_json new_summary);
      _ ← (if decide (summary tf <> loaded)
           then raise (ValidationError "Summary does not match existing file")
           else mret tt);
      m ← gets mapping_var;
      match m with
      | None => assign_mapping (mapping tf)
      | Some _ => mret tt
      end
  | None =>
      as_dict ← lift (to_dict new_summary);
      _ ← lift (objects_create env);
      rows ← gets (fun fr => observed_files (db fr));
      let f := {| pk := fresh (dom rows); state := initial_state env;
                  summary := as_dict; mapping := None; png := None |} in
      _ ← modify (with_db (store_row f));
      assign_observed_file f
  end.

(** Lines 1887-1912: the mapping is applied and the contents saved. *)
Definition apply_mapping (env : environment) (mapping_id : nat)
    : M frame unit :=
  applicable ← lift (applicable_mappings env);
  _ ← (if bool_decide (mapping_id ∉ applicable)
       then raise (ValidationError "Mapping is not applicable to this file")
       else mret tt);
  _ ← set_attribute (set_mapping (Some mapping_id));
  _ ← save (save_mapping env);
  _ ← lift (rendered_map env);
  _ ← lift (process_data env);
  partitions ← lift (data_files env);
  _ ← for_each (enumerate partitions) (create_partition env);
  p ← lift (open_png env);
  _ ← set_attribute (set_png (Some p));
  set_attribute (set_state IMPORTED).

(** The body of the [try] block. *)
Definition try_body (env : environment) (target_file : option ObservedFile)
    : M frame ObservedFile :=
  _ ← lift (init_processor env);
  new_summary ← lift (summarise_columns env);
  _ ← resolve_file env target_file new_summary;
  m ← gets mapping_var;
  _ ← match m with
      | Some mapping_id => apply_mapping env mapping_id
      | None => set_attribute (set_state AWAITING_MAP_ASSIGNMENT)
      end;
  _ ← save (save_result env);
  o ← gets observed_file;
  match o with
  | Some o => mret o
  | None => raise (Exception "AttributeError")
  end.

(** The [except Exception as e] clause.  An exception of its own call
    of [save] leaves the clause in place of the validation error. *)
Definition handler (env : environment) (e : exn) : M frame ObservedFile :=
  o ← gets observed_file;
  _ ← match o with
      | Some _ =>
          _ ← set_attribute (set_state IMPORT_FAILED);
          save (save_failed env)
      | None => mret tt
      end;
  raise (ValidationError ("Error processing file: " +:+ str_exn e)).

(** [ObservedFileCreateSerializer.create].  [temp_name] is the name that
    [NamedTemporaryFile] picks; [target_file] and [mapping] are the
    entries popped from [validated_data]. *)
Definition create (env : environment) (temp_name : string)
    (target_file : option ObservedFile) (mapping : option nat)
    : M world ObservedFile :=
  fun w =>
    let w := add_temp_file temp_name w in
    match write_chunks env with
    | Raise e => (Raise e, w)
    | Ok _ =>
        let '(r, fr) :=
          try_finally (try_except (try_body env target_file) (handler env))
                      (modify (with_db (unlink temp_name)))
                      {| db := w; observed_file := None; mapping_var := mapping |} in
        (r, db fr)
    end.

(** Two frames with the same local variables, file rows and temporary
    files: they differ at most in the partition rows. *)
Definition same_file_rows (fr fr' : frame) : Prop :=
  observed_file fr' = observed_file fr
  /\ mapping_var fr' = mapping_var fr
  /\ observed_files (db fr') = observed_files (db fr)
  /\ temp_files (db fr') = temp_files (db fr).

(** The local variable [observed_file] holds the object with key [p]. *)
Definition bound (p : nat) (fr : frame) : Prop :=
  exists o, observed_file fr = Some o /\ pk o = p.

(** The key of the file that a run is about: the target of a
    re-upload, or the row that a first upload creates. *)
Definition bound_pk (target_file : option ObservedFile) (w : world) : nat :=
  match target_file with
  | Some tf => pk tf
  | None => fresh (dom (observed_files w))
  end.

(** The state of the object that [observed_file] is bound to: the one
    of the target as it was handed in, or the one of a fresh row. *)
Definition bound_state (env : environment)
    (target_file : option ObservedFile) : FileState.t :=
  match target_file with
  | Some tf => state tf
  | None => initial_state env
  end.

(** The run has recorded no outcome in the row with key [p]: its state
    in [w] is the one it has in [w0], or the state [s0] that the object
    had when it was bound. *)
Definition unrecorded (s0 : FileState.t) (p : nat) (w0 w : world) : Prop :=
  state <$> (observed_files w !! p) = state <$> (observed_files w0 !! p)
  \/ state <$> (observed_files w !! p) = Some s0.

(** The run gets as far as binding [observed_file]: the processor
    opened and summarised the upload and, for a first upload, the row
    was created from the summary. *)
Definition reaches_file (env : environment)
    (target_file : option ObservedFile) : bool :=
  is_ok (init_processor env)
  && match summarise_columns env, target_file with
     | Ok _, Some _ => true
     | Ok new_summary, None =>
         is_ok (to_dict new_summary) && is_ok (objects_create env)
     | Raise _, _ => false
     end.

(** [update] only repeats [create]. *)
Definition update (env : environment) (temp_name : string)
    (target_file : option ObservedFile) (mapping : option nat)
    : M world ObservedFile :=
  create env temp_name target_file mapping.

(** The partition row that the loop writes for one listed file of the
    file with key [file_pk], if it writes one. *)
Definition partition_of (file_pk : nat) (file : nat * (string * Z))
    : option ParquetPartition :=
  let '(i, (name, size)) := file in
  if endswith name ".parquet"
  then Some {| observed_file_id := file_pk; partition_number := i;
               bytes_required := size; parquet_file := name |}
  else None.

Definition add_partitions (ps : list ParquetPartition) (w : world) : world :=
  {| observed_files := observed_files w;
     parquet_partitions := parquet_partitions w ++ ps;
     temp_files := temp_files w |}.

(** The mapping that a run applies: the one of the request, or else the
    one stored on the target of a re-upload. *)
Definition chosen_mapping (target_file : option ObservedFile)
    (request_mapping : option nat) : option nat :=
  match request_mapping with
  | Some m => Some m
  | None => target_file ≫= mapping
  end.

(** From [w] to [w'] no file row other than the one with key [p] has
    changed, and the partition rows of [w] are all there, followed by
    new ones of file [p] only. *)
Definition touches_only (p : nat) (w w' : world) : Prop :=
  (forall q, q <> p -> observed_files w' !! q = observed_files w !! q)
  /\ exists new,
       parquet_partitions w' = parquet_partitions w ++ new
       /\ Forall (fun row => observed_file_id row = p) new.

(** The frame keeps to the file with key [p]: its world differs from
    [w0] as [touches_only] allows, and [observed_file], once bound, is
    the object with that key. *)
Definition frame_touches_only (p : nat) (w0 : world) (fr : frame) : Prop :=
  touches_only p w0 (db fr)
  /\ forall o, observed_file fr = Some o -> pk o = p.

(** Every run of [m] from a state in [I] ends in a state in [I],
    whether it returns or raises. *)
Definition preserves {S A : Type} (I : S -> Prop) (m : M S A) : Prop :=
  forall s r s', I s -> m s = (r, s') -> I s'.

End ObservedFileCreateSerializer.

(** ** Storage allocator *)

Module StorageAllocator.

(** What an artifact is: a parquet partition of a file, the preview
    image of a file, or an arbitrary file. *)
Inductive artifact_kind : Type :=
| Partition (observed_file : nat) (partition_number : nat)
| Preview (observed_file : nat)
| Arbitrary.

#[global] Instance artifact_kind_eq_dec : EqDecision artifact_kind.
Proof. solve_decision. Defined.

(** A stored artifact row: its size and the storage type its bytes are
    attributed to, once they are written. *)
Record artifact : Type := mk_artifact {
  kind : artifact_kind;
  bytes_required : Z;
  storage : option nat
}.

Record StorageType : Type := mk_storage_type {
  storage_id : nat;
  quota_bytes : Z;
  priority : Z;
  enabled : bool
}.

(** The rows of one lab: its storage types in creation order, the
    artifacts, and the states of its observed files. *)
Record lab_store : Type := mk_lab_store {
  storage_types : list StorageType;
  artifacts : list artifact;
  file_states : gmap nat FileState.t
}.

(** Modelled from the spec: [get_bytes_used] lives in [galv/models],
    which is not among the files embedded here.  Used bytes are computed
    on demand by summing the sizes of all artifacts currently
    attributed to the storage type. *)
Definition get_bytes_used (s : lab_store) (st : StorageType) : Z :=
  foldr Z.add 0
    (bytes_required <$>
       filter (fun a => storage a = Some (storage_id st)) (artifacts s)).

(** Insertion after every storage type of lower or equal priority. *)
Fixpoint insert_by_priority (st : StorageType) (l : list StorageType)
    : list StorageType :=
  match l with
  | [] => [st]
  | x :: l' =>
      if priority st <? priority x then st :: x :: l'
      else x :: insert_by_priority st l'
  end.

(** Modelled from the spec: [get_all_storage_types] lives in
    [galv/models].  The lab's storage types are enumerated by ascending
    priority, ties broken by creation order. *)
Definition get_all_storage_types (s : lab_store) : list StorageType :=
  foldl (fun acc st => insert_by_priority st acc) [] (storage_types s).

Definition has_room (s : lab_store) (num_bytes : Z) (st : StorageType) : bool :=
  enabled st && (get_bytes_used s st + num_bytes <=? quota_bytes st).

(** Modelled from the spec: the reservation of [galv/models].  It picks
    the first enabled storage type, in that order, whose used bytes plus
    the requested bytes stay within its quota, and fails with
    InsufficientStorage, the [StorageError] of the sources, if there is
    none. *)
Definition reserve (s : lab_store) (num_bytes : Z) : result StorageType :=
  match List.find (has_room s num_bytes) (get_all_storage_types s) with
  | Some st => Ok st
  | None => Raise (StorageError "Insufficient storage")
  end.

(** No enabled storage type of the lab has room for [num_bytes]. *)
Definition no_room (s : lab_store) (num_bytes : Z) : Prop :=
  forall st, st ∈ storage_types s -> enabled st = true ->
             quota_bytes st < get_bytes_used s st + num_bytes.

Definition add_artifact (a : artifact) (s : lab_store) : lab_store :=
  {| storage_types := storage_types s;
     artifacts := artifacts s ++ [a];
     file_states := file_states s |}.

Definition set_artifact (i : nat) (f : artifact -> artifact) (s : lab_store)
    : lab_store :=
  {| storage_types := storage_types s;
     artifacts := alter f i (artifacts s);
     file_states := file_states s |}.

(** The partition rows of a file with a given partition number. *)
Definition partition_rows (s : lab_store) (file number : nat) : list artifact :=
  filter (fun a => kind a = Partition file number) (artifacts s).

(** Modelled from the spec: the storage-gated part of
    [ParquetPartition.objects.create] of [galv/models] for a file of
    [num_bytes] bytes: the allocator reserves the bytes, and its error
    leaves the call. *)
Definition spec_partition_create (s : lab_store) (num_bytes : Z)
    : result unit :=
  match reserve s num_bytes with
  | Ok _ => Ok tt
  | Raise e => Raise e
  end.

(** Modelled from the spec: the handling of a parquet-partition upload
    report by the view in [galv/views], which is not among the files
    embedded here.  The allocator reserves the bytes; on failure the error is
    surfaced and nothing is written; on success the partition row is
    committed.  The state of the file is left as it is. *)
Definition upload_parquet (file number : nat) (num_bytes : Z)
    : M lab_store unit :=
  fun s =>
    match reserve s num_bytes with
    | Raise e => (Raise e, s)
    | Ok st =>
        (Ok tt,
         add_artifact {| kind := Partition file number;
                         bytes_required := num_bytes;
                         storage := Some (storage_id st) |} s)
    end.

End StorageAllocator.

(** ** ArbitraryFileCreateSerializer *)

Module ArbitraryFileCreateSerializer.

(** The uploaded file of the request. *)
Record uploaded_file : Type := mk_uploaded_file {
  file_name : string;
  file_size : Z
}.

(** [if file]: an uploaded file is true when it has a name. *)
Definition truthy (file : option uploaded_file) : option uploaded_file :=
  match file with
  | Some f => if decide (file_name f = "") then None else Some f
  | None => None
  end.

(** The three calls into the model layer, over a database [db] and
    model objects [handle]. *)
Record model_layer (db handle : Type) : Type := mk_model_layer {
  objects_create : Z -> M db handle;       (* ArbitraryFile.objects.create *)
  save : handle -> Z -> M db unit;         (* bytes_required = ...; save() *)
  file_save : handle -> uploaded_file -> M db unit   (* file.save(name, file) *)
}.
Arguments objects_create {db handle} _ _.
Arguments save {db handle} _ _ _.
Arguments file_save {db handle} _ _ _.

(** [with transaction.atomic(): body]: an exception that leaves the
    block rolls the database back to its state on entry. *)
Definition atomic {db A} (body : M db A) : M db A :=
  fun s =>
    match body s with
    | (Ok a, s') => (Ok a, s')
    | (Raise e, _) => (Raise e, s)
    end.

(** The body of the [try] block. *)
Definition try_body {db handle} (models : model_layer db handle)
    (file : option uploaded_file) (bytes_required : Z) : M db handle :=
  arbitrary_file ← objects_create models bytes_required;
  _ ← match truthy file with
      | Some f =>
          _ ← save models arbitrary_file (file_size f);
          file_save models arbitrary_file f
      | None => mret tt
      end;
  mret arbitrary_file.

(** [except StorageError as e: raise ValidationError(e)] *)
Definition except_StorageError {db A} (body : M db A) : M db A :=
  fun s =>
    match body s with
    | (Raise (StorageError d), s') =>
        (Raise (ValidationError (str_exn (StorageError d))), s')
    | other => other
    end.

(** [ArbitraryFileCreateSerializer.create] *)
Definition create {db handle} (models : model_layer db handle)
    (file : option uploaded_file) : M db handle :=
  let bytes_required :=
    match truthy file with Some f => file_size f | None => 0 end in
  atomic (except_StorageError (try_body models file bytes_required)).

Import StorageAllocator.

(** Modelled from the spec: the [ArbitraryFile] model of [galv/models],
    which is not among the files embedded here.  Creating and saving the
    row writes no bytes; saving the file content is the storage-gated
    write: the allocator reserves the bytes, and the row is attributed
    to the storage type it picked. *)
Definition spec_models : model_layer lab_store nat :=
  {| objects_create := fun bytes s =>
       (Ok (length (artifacts s)),
        add_artifact {| kind := Arbitrary; bytes_required := bytes;
                        storage := None |} s);
     save := fun h bytes =>
       modify (set_artifact h (fun a =>
         {| kind := kind a; bytes_required := bytes; storage := storage a |}));
     file_save := fun h f s =>
       match reserve s (file_size f) with
       | Raise e => (Raise e, s)
       | Ok st =>
           (Ok tt,
            set_artifact h (fun a =>
              {| kind := kind a; bytes_required := bytes_required a;
                 storage := Some (storage_id st) |}) s)
       end |}.

End ArbitraryFileCreateSerializer.

(** * Properties *)

(** ** Access levels of team-owned resources *)

Section AccessLevels.
Import UserLevel WithTeamMixin.

Lemma contains_false (attrs : gmap string Z) (k : string) :
  attrs !! k = None -> contains attrs k = false.
Proof.
  intros H. unfold contains. rewrite H.
  apply bool_decide_eq_false. intros [x Hx]. discriminate.
Qed.

Lemma remove_if_unchanged_eq inst (attrs : gmap string Z) level :
  remove_if_unchanged inst attrs level !! level =
    match attrs !! level with
    | Some v => if decide (getattr inst level = v) then None else Some v
    | None => None
    end.
Proof.
  unfold remove_if_unchanged.
  destruct (attrs !! level) as [v |] eqn:Hv; [| done].
  destruct (decide (getattr inst level = v)); [| done].
  apply lookup_delete_eq.
Qed.

Lemma remove_if_unchanged_ne inst (attrs : gmap string Z) level k :
  level <> k -> remove_if_unchanged inst attrs level !! k = attrs !! k.
Proof.
  intros Hne. unfold remove_if_unchanged.
  destruct (attrs !! level) as [v |]; [| done].
  destruct (decide (getattr inst level = v)); [| done].
  by apply lookup_delete_ne.
Qed.

(** What the loop over the three levels leaves of a submitted level: it
    stays exactly when it differs from the stored one. *)
Lemma remove_unchanged_lookup inst (attrs : gmap string Z) level :
  level ∈ access_levels ->
  remove_unchanged inst attrs !! level =
    match attrs !! level with
    | Some v => if decide (getattr inst level = v) then None else Some v
    | None => None
    end.
Proof.
  intros Hin. unfold remove_unchanged, access_levels in *. cbn [foldl].
  repeat (apply elem_of_cons in Hin as [-> | Hin]);
    [ | | | by apply elem_of_nil in Hin ].
  - rewrite !remove_if_unchanged_ne by done. apply remove_if_unchanged_eq.
  - rewrite remove_if_unchanged_ne by done.
    rewrite remove_if_unchanged_eq, remove_if_unchanged_ne by done. done.
  - rewrite remove_if_unchanged_eq, !remove_if_unchanged_ne by done. done.
Qed.

(** Keys other than the three levels pass through the loop untouched. *)
Lemma remove_unchanged_other inst (attrs : gmap string Z) k :
  k ∉ access_levels -> remove_unchanged inst attrs !! k = attrs !! k.
Proof.
  intros Hn. unfold remove_unchanged, access_levels in *. cbn [foldl].
  rewrite !not_elem_of_cons in Hn. destruct Hn as (H1 & H2 & H3 & _).
  by rewrite !remove_if_unchanged_ne.
Qed.

(** A create through the mixin's own fields always hands the three
    levels to [validate], which then compares them pairwise. *)
Lemma create_hierarchy model_defaults (data : gmap string Z) i :
  create Mixin field_defaults model_defaults data = Ok i -> hierarchy i.
Proof.
  unfold create, run_validate, validate, check_hierarchy, with_defaults,
    field_defaults, hierarchy.
  cbn [foldl mbind result_bind].
  intros H.
  repeat (case_match; simplify_map_eq; try done);
    cbn in *; simplify_eq; cbn; lia.
Qed.

(** A rejected update has no effect: the only result is the exception. *)
Lemma update_rejected_or_saved fields inst user_access_level
    (attrs : gmap string Z) :
  (exists e, update Mixin fields true inst user_access_level attrs = Raise e)
  \/ (exists attrs', validate (Some inst) user_access_level attrs = Ok attrs'
                  /\ update Mixin fields true inst user_access_level attrs
                     = Ok (set_attrs inst attrs')).
Proof.
  unfold update, run_validate, validated_data.
  destruct (validate (Some inst) user_access_level attrs) as [a | e]; cbn; eauto.
Qed.

(** C1 (code defect).  [validate] compares read with edit only when a
    read level is submitted, and edit with delete only when an edit
    level is submitted.  A team admin who lowers only the delete level
    of a resource stored with read = LAB_MEMBER, edit = TEAM_ADMIN,
    delete = TEAM_ADMIN to TEAM_MEMBER passes validation, whether the
    request carries the delete level alone, as a partial update, or all
    three levels with the other two unchanged, as a partial or as a full
    update, and the resource is saved with edit above delete. *)
Theorem update_delete_level_breaks_hierarchy :
  let stored := mk_instance (value LAB_MEMBER) (value TEAM_ADMIN) (value TEAM_ADMIN) in
  let saved := mk_instance (value LAB_MEMBER) (value TEAM_ADMIN) (value TEAM_MEMBER) in
  hierarchy stored
  /\ update Mixin field_defaults true stored (value TEAM_ADMIN)
       {[ "delete_access_level" := value TEAM_MEMBER ]} = Ok saved
  /\ (forall partial,
        update Mixin field_defaults partial stored (value TEAM_ADMIN)
          (<["read_access_level" := value LAB_MEMBER]>
             (<["edit_access_level" := value TEAM_ADMIN]>
                {[ "delete_access_level" := value TEAM_MEMBER ]})) = Ok saved)
  /\ ~ hierarchy saved.
Proof.
  cbv zeta. split; [| split; [| split]].
  - unfold hierarchy; cbn; lia.
  - vm_compute. reflexivity.
  - intros [|]; vm_compute; reflexivity.
  - unfold hierarchy; cbn; lia.
Qed.

(** The same gap on the other side: lowering only the edit level below
    the stored read level is accepted. *)
Lemma update_edit_level_breaks_hierarchy :
  update Mixin field_defaults true
         (mk_instance (value TEAM_MEMBER) (value TEAM_MEMBER) (value TEAM_MEMBER))
         (value TEAM_ADMIN) {[ "edit_access_level" := value LAB_MEMBER ]}
  = Ok (mk_instance (value TEAM_MEMBER) (value LAB_MEMBER) (value TEAM_MEMBER)).
Proof. vm_compute. reflexivity. Qed.

(** C9.  On an update, submitted access levels that all equal the stored
    ones are removed before the checks of the editor's level: whatever
    that level is, [validate] succeeds, and the attributes it returns
    hold none of the three levels. *)
Theorem unchanged_levels_never_denied inst user_access_level
    (attrs : gmap string Z) :
  (forall level v, level ∈ access_levels ->
     attrs !! level = Some v -> getattr inst level = v) ->
  validate (Some inst) user_access_level attrs = Ok (remove_unchanged inst attrs)
  /\ (forall level, level ∈ access_levels ->
        remove_unchanged inst attrs !! level = None).
Proof.
  intros Hsame.
  assert (Hgone : forall level, level ∈ access_levels ->
                    remove_unchanged inst attrs !! level = None).
  { intros level Hin. rewrite remove_unchanged_lookup by done.
    destruct (attrs !! level) as [v |] eqn:Hv; [| done].
    rewrite decide_True; [done |]. by eapply Hsame. }
  split; [| exact Hgone].
  pose proof (Hgone "read_access_level" ltac:(set_solver)) as Hr.
  pose proof (Hgone "edit_access_level" ltac:(set_solver)) as He.
  pose proof (Hgone "delete_access_level" ltac:(set_solver)) as Hd.
  unfold validate, check_user_level, check_hierarchy.
  rewrite !contains_false by done.
  cbn [orb andb mbind result_bind]. rewrite Hr, He. reflexivity.
Qed.

Lemma unchanged_levels_never_denied_witness :
  validate (Some (mk_instance 1 2 3)) 0
    (<["read_access_level" := 1]> (<["edit_access_level" := 2]>
       {[ "delete_access_level" := 3 ]}))
  = Ok (remove_unchanged (mk_instance 1 2 3)
          (<["read_access_level" := 1]> (<["edit_access_level" := 2]>
             {[ "delete_access_level" := 3 ]}))).
Proof.
  apply (unchanged_levels_never_denied (mk_instance 1 2 3) 0).
  intros level v Hin Hv. unfold access_levels in Hin.
  repeat (apply elem_of_cons in Hin as [-> | Hin]);
    [ | | | by apply elem_of_nil in Hin ];
    simplify_map_eq; reflexivity.
Defined.

(** C10 (amended).  A resource created without explicit access levels
    through a serializer that keeps the three level fields of the mixin
    gets read = LAB_MEMBER, edit = TEAM_MEMBER and delete = TEAM_MEMBER,
    whatever the defaults of the model, also where the serializer
    replaces [validate], and these satisfy read <= edit <= delete.
    [MonitoredPathSerializer] redeclares the edit field without a
    default: a monitored path gets read = LAB_MEMBER and
    delete = TEAM_MEMBER from the fields and its edit level from the
    model, which [validate] compares with nothing; the three are ordered
    exactly when that default lies between LAB_MEMBER and TEAM_MEMBER. *)
Theorem default_access_levels model_defaults :
  create Mixin field_defaults model_defaults ∅
  = Ok (mk_instance (value LAB_MEMBER) (value TEAM_MEMBER) (value TEAM_MEMBER))
  /\ create (Override (Ok tt)) field_defaults model_defaults ∅
     = Ok (mk_instance (value LAB_MEMBER) (value TEAM_MEMBER) (value TEAM_MEMBER))
  /\ hierarchy
       (mk_instance (value LAB_MEMBER) (value TEAM_MEMBER) (value TEAM_MEMBER))
  /\ create Mixin monitored_path_field_defaults model_defaults ∅
     = Ok (mk_instance (value LAB_MEMBER) (edit_access_level model_defaults)
                       (value TEAM_MEMBER))
  /\ (hierarchy (mk_instance (value LAB_MEMBER) (edit_access_level model_defaults)
                             (value TEAM_MEMBER))
      <-> value LAB_MEMBER <= edit_access_level model_defaults
                           <= value TEAM_MEMBER).
Proof.
  split; [| split; [| split; [| split]]].
  - reflexivity.
  - reflexivity.
  - unfold hierarchy; cbn; lia.
  - reflexivity.
  - unfold hierarchy; cbn; lia.
Qed.

(** C10, the claim as stated fails for a monitored path.  Its serializer
    gives the edit field no default, so the edit level of a path created
    without explicit levels is the default of the model: were that
    TEAM_ADMIN, the path would get read = LAB_MEMBER, edit = TEAM_ADMIN,
    delete = TEAM_MEMBER, which is neither the claimed edit level nor
    ordered; [validate] accepts it, since it sees no edit level. *)
Lemma monitored_path_default_edit_level :
  let model_defaults :=
    mk_instance (value LAB_MEMBER) (value TEAM_ADMIN) (value TEAM_ADMIN) in
  let created :=
    mk_instance (value LAB_MEMBER) (value TEAM_ADMIN) (value TEAM_MEMBER) in
  create Mixin monitored_path_field_defaults model_defaults ∅ = Ok created
  /\ edit_access_level created <> value TEAM_MEMBER
  /\ ~ hierarchy created.
Proof.
  cbv zeta. split; [| split].
  - reflexivity.
  - discriminate.
  - unfold hierarchy; cbn; lia.
Qed.

End AccessLevels.

(** ** Membership of lab admin groups *)

Section Groups.
Import TransparentGroupSerializer.

Lemma hasattr_editable_lab_true (g : group) :
  is_Some (editable_lab g) -> hasattr_editable_lab g = true.
Proof. intros H. unfold hasattr_editable_lab. by apply bool_decide_eq_true. Qed.

Lemma hasattr_editable_lab_false (g : group) :
  editable_lab g = None -> hasattr_editable_lab g = false.
Proof.
  intros H. unfold hasattr_editable_lab. rewrite H.
  apply bool_decide_eq_false. intros [x Hx]. discriminate.
Qed.

Lemma size_list_to_set_cons (x : nat) (l : list nat) :
  (1 <= size (list_to_set (C := gset nat) (x :: l)))%nat.
Proof.
  assert (Hne : size (list_to_set (C := gset nat) (x :: l)) <> 0%nat).
  { apply size_non_empty_iff. set_solver. }
  lia.
Qed.

(** C8.  The admin group of a lab keeps at least one user through every
    update: an update that submits no user is rejected with a validation
    error, also when every submitted user is inactive, and a successful
    update of a non-empty lab admin group leaves it non-empty.  A group
    that is not a lab admin group may be emptied. *)
Theorem lab_admin_group_keeps_a_user :
  (forall g validated_data,
     is_Some (editable_lab g) ->
     validated_data !! "user_set" = Some [] ->
     update g validated_data
     = Raise (ValidationError "Labs must always have at least one administrator"))
  /\ (forall g users,
        is_Some (editable_lab g) ->
        Forall (fun u => is_active u = false) users ->
        submit_users g users
        = Raise (ValidationError "Labs must always have at least one administrator"))
  /\ (forall g validated_data g',
        is_Some (editable_lab g) ->
        (1 <= size (user_set g))%nat ->
        update g validated_data = Ok g' ->
        (1 <= size (user_set g'))%nat /\ editable_lab g' = editable_lab g)
  /\ (forall g validated_data,
        editable_lab g = None ->
        validated_data !! "user_set" = Some [] ->
        update g validated_data = Ok {| user_set := ∅; editable_lab := None |}).
Proof.
  split; [| split; [| split]].
  - intros g vd Hlab Hset. unfold update. rewrite Hset.
    by rewrite hasattr_editable_lab_true.
  - intros g users Hlab Hinactive. unfold submit_users, update.
    rewrite lookup_singleton_eq.
    assert (Hnil : validate_users users = []).
    { unfold validate_users. induction Hinactive as [| u us Hu _ IH]; [done |].
      rewrite filter_cons_False; [exact IH |]. rewrite Hu. discriminate. }
    rewrite Hnil. by rewrite hasattr_editable_lab_true.
  - intros g vd g' Hlab Hsize. unfold update.
    destruct (vd !! "user_set") as [users |]; [| by intros [= <-]].
    rewrite hasattr_editable_lab_true by done.
    destruct users as [| u users]; cbn; [intros [=] |].
    intros [= <-]. cbn. split; [apply size_list_to_set_cons | done].
  - intros g vd Hlab Hset. unfold update. rewrite Hset.
    rewrite hasattr_editable_lab_false by done. cbn. by rewrite Hlab.
Qed.

Lemma lab_admin_group_keeps_a_user_witness :
  update {| user_set := {[ 1%nat ]}; editable_lab := Some 7%nat |}
         {[ "user_set" := [] ]}
  = Raise (ValidationError "Labs must always have at least one administrator").
Proof.
  apply (proj1 lab_admin_group_keeps_a_user).
  - cbn. eauto.
  - reflexivity.
Defined.

End Groups.

(** ** Harvester names *)

Section HarvesterNames.
Import HarvesterSerializer.

Lemma filter_nonempty {A} (P : A -> Prop) `{!forall x, Decision (P x)} (l : list A) :
  filter P l <> [] <-> exists x, x ∈ l /\ P x.
Proof.
  split.
  - intros Hne. destruct (filter P l) as [| x xs] eqn:Hf; [done |].
    exists x. apply and_comm, (list_elem_of_filter P). rewrite Hf. left.
  - intros (x & Hin & HP) Hnil.
    assert (Hx : x ∈ filter P l) by (by apply list_elem_of_filter).
    rewrite Hnil in Hx. by apply elem_of_nil in Hx.
Qed.

(** Renaming: validation fails exactly when another harvester of the
    same lab has the name. *)
Lemma validate_name_rename objects inst value :
  (validate_name objects (Some inst) value
   = Raise (ValidationError "Harvester with that name already exists")
   <-> exists h, h ∈ objects /\ name h = value
                 /\ id h <> id inst /\ lab h = lab inst)
  /\ (validate_name objects (Some inst) value = Ok value
      <-> ~ exists h, h ∈ objects /\ name h = value
                      /\ id h <> id inst /\ lab h = lab inst).
Proof.
  assert (Hiff :
    filter (fun h => lab h = lab inst)
      (filter (fun h => id h <> id inst)
         (filter (fun h => name h = value) objects)) <> []
    <-> exists h, h ∈ objects /\ name h = value
                  /\ id h <> id inst /\ lab h = lab inst).
  { rewrite filter_nonempty. split.
    - intros (h & Hin & Hlab).
      apply list_elem_of_filter in Hin as [Hid Hin].
      apply list_elem_of_filter in Hin as [Hname Hin]. eauto 10.
    - intros (h & Hin & Hname & Hid & Hlab). exists h. split; [| done].
      apply list_elem_of_filter. split; [done |].
      by apply list_elem_of_filter. }
  unfold validate_name. rewrite <- Hiff. case_bool_decide; split; split;
    intros; try done; try discriminate; try (intros ?; done).
Qed.

(** Creating: without an instance the lookup spans every lab, and
    validation fails exactly when any harvester has the name. *)
Lemma validate_name_create objects value :
  (validate_name objects None value
   = Raise (ValidationError "Harvester with that name already exists")
   <-> exists h, h ∈ objects /\ name h = value)
  /\ (validate_name objects None value = Ok value
      <-> ~ exists h, h ∈ objects /\ name h = value).
Proof.
  assert (Hiff : filter (fun h => name h = value) objects <> []
                 <-> exists h, h ∈ objects /\ name h = value).
  { apply filter_nonempty. }
  unfold validate_name. rewrite <- Hiff. case_bool_decide; split; split;
    intros; try done; try discriminate; try (intros ?; done).
Qed.

(** C4 (code defect).  With a harvester named "Cycler" in lab 1, a
    harvester of lab 2 may be renamed to "Cycler", but creating a
    harvester named "Cycler", for lab 2 or any other lab, is rejected:
    on a create [validate_name] does not restrict the lookup to the
    lab. *)
Theorem create_rejects_name_used_in_other_lab :
  let objects := [mk_harvester 1 "Cycler" 1; mk_harvester 2 "Other" 2] in
  validate_name objects (Some (mk_harvester 2 "Other" 2)) "Cycler" = Ok "Cycler"
  /\ validate_name objects None "Cycler"
     = Raise (ValidationError "Harvester with that name already exists").
Proof. cbv zeta. split; vm_compute; reflexivity. Qed.

End HarvesterNames.

(** ** Column mappings *)

Section ColumnMaps.
Import ColumnMappingSerializer.
Context `{PyBuiltins} (objects : list DataColumnType).

Lemma validate_items_app st l1 l2 :
  validate_items objects st (l1 ++ l2)
  = (st' ← validate_items objects st l1; validate_items objects st' l2).
Proof.
  revert st. induction l1 as [| kv l1 IH]; intros st; [reflexivity |].
  cbn. destruct (validate_item objects st kv) as [e | st1]; cbn; [reflexivity |].
  apply IH.
Qed.

(** An item that fails whatever the loop has seen makes the loop fail. *)
Lemma validate_items_fails kv items :
  (forall st, exists e, validate_item objects st kv = inl e) ->
  kv ∈ items ->
  forall st, exists e, validate_items objects st items = inl e.
Proof.
  intros Hfail Hin. induction Hin as [kv items | kv kv' items _ IH]; intros st; cbn.
  - destruct (Hfail st) as [e ->]. cbn. eauto.
  - destruct (validate_item objects st kv') as [e | st1]; cbn; eauto.
Qed.

(** The second item aimed at a required column type is refused, and
    the error names it, the column type, and the first item. *)
Lemma validate_item_conflict st k v c k0 :
  targets_required objects v c ->
  required_columns_supplied st !! pk c = Some k0 ->
  validate_item objects st (k, v) = inl (RequiredConflict k (name c) k0).
Proof.
  intros [Hc Hreq] Hsup. destruct v as [d | x]; [| discriminate].
  cbn in Hc. unfold validate_item. rewrite Hc. cbn.
  rewrite (bool_decide_eq_true_2 _ Hreq), Hsup. reflexivity.
Qed.

(** How a successful iteration changes the record of required columns. *)
Lemma validate_item_supplied st k v st' :
  validate_item objects st (k, v) = inr st' ->
  match column_type_of objects v with
  | Some c =>
      if bool_decide (pk c ∈ required_column_ids objects)
      then required_columns_supplied st !! pk c = None
           /\ required_columns_supplied st'
              = <[pk c := k]> (required_columns_supplied st)
      else required_columns_supplied st' = required_columns_supplied st
  | None => False
  end.
Proof.
  unfold validate_item. destruct v as [d | x]; [| discriminate]. cbn.
  destruct (objects_get objects (d !! "column_type")) as [c |];
    [| repeat case_match; discriminate].
  cbn. destruct (bool_decide (pk c ∈ required_column_ids objects)); cbn.
  - destruct (required_columns_supplied st !! pk c) eqn:Hsup; [discriminate |].
    cbn. intros Hst. split; [done |].
    repeat (case_match; cbn in *; simplify_eq; try done).
  - intros Hst.
    repeat (case_match; cbn in *; simplify_eq; try done).
Qed.

(** The only iteration error about a required column names the current
    item and the item recorded for the column type. *)
Lemma validate_item_conflict_inv st k v k' column k0 :
  validate_item objects st (k, v) = inl (RequiredConflict k' column k0) ->
  k' = k /\ exists c, targets_required objects v c /\ column = name c
                      /\ required_columns_supplied st !! pk c = Some k0.
Proof.
  unfold validate_item, targets_required. destruct v as [d | x]; [| discriminate]. cbn.
  destruct (objects_get objects (d !! "column_type")) as [c |];
    [| repeat case_match; discriminate].
  cbn. destruct (bool_decide (pk c ∈ required_column_ids objects)) eqn:Hreq; cbn.
  - apply bool_decide_eq_true_1 in Hreq.
    destruct (required_columns_supplied st !! pk c) eqn:Hsup.
    + cbn. intros [= <- <- <-]. eauto 10.
    + cbn. intros Hst. repeat (case_match; cbn in *; simplify_eq; try done).
  - intros Hst. repeat (case_match; cbn in *; simplify_eq; try done).
Qed.

Lemma objects_get_pk p c :
  objects_get objects p = Some c -> p = Some (PStr (pk c)).
Proof.
  destruct p as [[| | | | s |] |]; try discriminate. cbn. intros Hfind.
  apply List.find_some in Hfind as [_ Hpk].
  apply bool_decide_eq_true_1 in Hpk. by rewrite Hpk.
Qed.

(** Two entries that reach rows with the same key reach the same row. *)
Lemma column_type_of_pk_inj v1 v2 c1 c2 :
  column_type_of objects v1 = Some c1 ->
  column_type_of objects v2 = Some c2 ->
  pk c1 = pk c2 -> c1 = c2.
Proof.
  destruct v1 as [d1 | ?], v2 as [d2 | ?]; try discriminate. cbn.
  intros H1 H2 Hpk.
  pose proof (objects_get_pk _ _ H1) as E1.
  pose proof (objects_get_pk _ _ H2) as E2.
  rewrite E1 in H1. rewrite E2, <- Hpk in H2. congruence.
Qed.

Lemma supplied_inv_initial : supplied_inv objects [] initial_state.
Proof.
  split.
  - intros i k v c Hi. by rewrite lookup_nil in Hi.
  - intros p k0 Hp. cbn in Hp. by rewrite lookup_empty in Hp.
Qed.

Lemma supplied_inv_step done st k v st' :
  supplied_inv objects done st ->
  validate_item objects st (k, v) = inr st' ->
  supplied_inv objects (done ++ [(k, v)]) st'.
Proof.
  intros [Hfwd Hbwd] Hstep. apply validate_item_supplied in Hstep.
  destruct (column_type_of objects v) as [c |] eqn:Hc; [| done].
  destruct (bool_decide (pk c ∈ required_column_ids objects)) eqn:Hreq.
  - apply bool_decide_eq_true_1 in Hreq. destruct Hstep as [Hnone Hst'].
    unfold supplied_inv. rewrite Hst'. split.
    + intros i k1 v1 c1 Hi Ht.
      destruct (decide (i < length done)%nat) as [Hlt | Hge].
      * rewrite lookup_app_l in Hi by done.
        pose proof (Hfwd _ _ _ _ Hi Ht) as Hs.
        rewrite lookup_insert_ne; [done |]. intros Heq.
        rewrite <- Heq in Hs. congruence.
      * rewrite lookup_app_r in Hi by lia.
        destruct (i - length done)%nat as [| n]; [| by destruct n].
        cbn in Hi. injection Hi as <- <-. destruct Ht as [Ht _].
        rewrite Hc in Ht. injection Ht as <-. apply lookup_insert_eq.
    + intros p k0 Hp. destruct (decide (pk c = p)) as [<- | Hne].
      * rewrite lookup_insert_eq in Hp. injection Hp as <-.
        exists (length done), v, c. split; [| done].
        rewrite lookup_app_r by lia. by rewrite Nat.sub_diag.
      * rewrite lookup_insert_ne in Hp by done.
        destruct (Hbwd _ _ Hp) as (i & v0 & c0 & Hi & Ht & Hpk).
        exists i, v0, c0. split; [| done].
        rewrite lookup_app_l; [done |]. by eapply lookup_lt_Some.
  - apply bool_decide_eq_false_1 in Hreq.
    unfold supplied_inv. rewrite Hstep. split.
    + intros i k1 v1 c1 Hi Ht.
      destruct (decide (i < length done)%nat) as [Hlt | Hge].
      * rewrite lookup_app_l in Hi by done. by eapply Hfwd.
      * rewrite lookup_app_r in Hi by lia.
        destruct (i - length done)%nat as [| n]; [| by destruct n].
        cbn in Hi. injection Hi as <- <-. destruct Ht as [Ht Hin].
        rewrite Hc in Ht. injection Ht as <-. done.
    + intros p k0 Hp.
      destruct (Hbwd _ _ Hp) as (i & v0 & c0 & Hi & Ht & Hpk).
      exists i, v0, c0. split; [| done].
      rewrite lookup_app_l; [done |]. by eapply lookup_lt_Some.
Qed.

Lemma supplied_inv_items items done st st' :
  supplied_inv objects done st ->
  validate_items objects st items = inr st' ->
  supplied_inv objects (done ++ items) st'.
Proof.
  revert done st.
  induction items as [| [k v] items IH]; intros done st Hinv; cbn [validate_items].
  - intros [= <-]. by rewrite app_nil_r.
  - destruct (validate_item objects st (k, v)) as [e | st1] eqn:Hstep;
      cbn [mbind validation_bind]; [intros [=] |].
    intros Hrest. rewrite cons_middle, app_assoc.
    eapply IH; [| exact Hrest]. by eapply supplied_inv_step.
Qed.

(** When the loop stops on a required-column conflict, the two columns
    that the error names both sit in the map, the one recorded first,
    and both target the required column type that it names. *)
Lemma validate_items_conflict_inv items done st k column k0 :
  supplied_inv objects done st ->
  validate_items objects st items = inl (RequiredConflict k column k0) ->
  exists i j v0 v c,
    (i < j)%nat
    /\ (done ++ items) !! i = Some (k0, v0)
    /\ (done ++ items) !! j = Some (k, v)
    /\ targets_required objects v0 c
    /\ targets_required objects v c
    /\ column = name c.
Proof.
  revert done st.
  induction items as [| [k1 v1] items IH]; intros done st Hinv; cbn [validate_items].
  - intros [=].
  - destruct (validate_item objects st (k1, v1)) as [e | st1] eqn:Hstep;
      cbn [mbind validation_bind].
    + intros [= ->].
      apply validate_item_conflict_inv in Hstep as (-> & c & Ht & -> & Hsup).
      destruct Hinv as [_ Hbwd].
      destruct (Hbwd _ _ Hsup) as (i & v0 & c0 & Hi & Ht0 & Hpk).
      assert (c0 = c) as ->.
      { eapply column_type_of_pk_inj; [apply Ht0 | apply Ht | done]. }
      exists i, (length done), v0, v1, c.
      pose proof (lookup_lt_Some _ _ _ Hi) as Hlt.
      repeat split; try done; try apply Ht0; try apply Ht.
      * by rewrite lookup_app_l.
      * rewrite lookup_app_r by lia. by rewrite Nat.sub_diag.
    + intros Hrest.
      rewrite cons_middle, app_assoc.
      eapply IH; [| exact Hrest]. by eapply supplied_inv_step.
Qed.

(** The conflict message is told apart from every other message by its
    first two characters. *)
Lemma message_conflict_inv e k column k0 :
  message e = message (RequiredConflict k column k0) ->
  exists k' column' k0', e = RequiredConflict k' column' k0'.
Proof. destruct e; cbn; intros Heq; try discriminate; eauto. Qed.

Lemma dict_get_set_eq {V} (k : string) (v : V) (d : list (string * V)) :
  dict_get k (dict_set k v d) = Some v.
Proof.
  induction d as [| [k' v'] d IH]; cbn.
  - by rewrite decide_True.
  - destruct (decide (k' = k)) as [-> | Hne]; cbn.
    + by rewrite decide_True.
    + by rewrite decide_False.
Qed.

Lemma dict_get_set_ne {V} (k k' : string) (v : V) (d : list (string * V)) :
  k <> k' -> dict_get k' (dict_set k v d) = dict_get k' d.
Proof.
  intros Hne. induction d as [| [k1 v1] d IH]; cbn.
  - by rewrite decide_False.
  - destruct (decide (k1 = k)) as [-> | Hne1]; cbn.
    + by rewrite !decide_False.
    + destruct (decide (k1 = k')); [done | exact IH].
Qed.

(** C6 (amended).  When two raw columns of a map target the same
    required column type, [validate_map] does not accept the map: it
    raises a validation error, unless the multiplier or the addition of
    a column before the second one is too large to convert, which leaves
    [validate_map] as an [OverflowError]; when the columns before the
    second one pass validation on their own, the error is the one naming
    the second column, the required column type and the first column.
    Conversely this error is raised only for a map in which the two
    columns it concerns both target the same required column type. *)
Theorem required_column_conflict :
  (forall items i j k1 v1 k2 v2 c,
     (i < j)%nat ->
     items !! i = Some (k1, v1) ->
     items !! j = Some (k2, v2) ->
     targets_required objects v1 c ->
     targets_required objects v2 c ->
     is_ok (validate_map objects (MDict items)) = false
     /\ (validate_map objects (MDict (take j items)) <> Raise OverflowError ->
         is_validation_error (validate_map objects (MDict items)) = true)
     /\ (is_ok (validate_map objects (MDict (take j items))) = true ->
         validate_map objects (MDict items)
         = Raise (ValidationError
             ("Cannot assign column '" +:+ k2 +:+ "' to required column "
              +:+ name c +:+ ". Column " +:+ name c +:+
              " is already assigned to column '" +:+ k1 +:+ "'"))))
  /\ (forall value k column k0,
        validate_map objects value
        = Raise (ValidationError (message (RequiredConflict k column k0))) ->
        exists items i j k1 v1 k2 v2 c,
          value = MDict items
          /\ (i < j)%nat
          /\ items !! i = Some (k1, v1)
          /\ items !! j = Some (k2, v2)
          /\ targets_required objects v1 c
          /\ targets_required objects v2 c
          /\ message (RequiredConflict k column k0)
             = message (RequiredConflict k2 (name c) k1)).
Proof.
  split.
  - intros items i j k1 v1 k2 v2 c Hlt Hi Hj Ht1 Ht2.
    assert (Hall : validate_items objects initial_state items
                   = (st ← validate_items objects initial_state (take j items);
                      validate_items objects st ((k2, v2) :: drop (S j) items))).
    { rewrite <- (take_drop_middle items j (k2, v2) Hj) at 1.
      apply validate_items_app. }
    unfold validate_map, validate_map_checked. rewrite Hall.
    destruct (validate_items objects initial_state (take j items))
      as [e | st] eqn:Hpre; cbn [mbind validation_bind is_ok is_validation_error].
    + split; [reflexivity |]. split; [| discriminate].
      destruct e; cbn; try reflexivity. intros Hne. by destruct Hne.
    + pose proof (supplied_inv_items _ _ _ _ supplied_inv_initial Hpre) as [Hfwd _].
      rewrite app_nil_l in Hfwd.
      assert (Hsup : required_columns_supplied st !! pk c = Some k1).
      { eapply Hfwd; [| exact Ht1]. by rewrite lookup_take_lt. }
      cbn [validate_items].
      rewrite (validate_item_conflict _ _ _ _ _ Ht2 Hsup).
      cbn [mbind validation_bind is_validation_error is_ok raised].
      repeat split; reflexivity.
  - intros value k column k0 Hraise. unfold validate_map in Hraise.
    destruct (validate_map_checked objects value) as [e | nv] eqn:Hchk;
      [| discriminate].
    assert (Hmsg : message e = message (RequiredConflict k column k0)).
    { destruct e;
        try exact (f_equal (fun r : result (list (string * entry)) =>
                              match r with
                              | Raise (ValidationError d) => d
                              | _ => EmptyString
                              end) Hraise).
      cbv [raised OverflowError] in Hraise. discriminate Hraise. }
    pose proof Hmsg as Hmsg'.
    apply message_conflict_inv in Hmsg' as (k' & column' & k0' & ->).
    destruct value as [items | x]; [| discriminate].
    cbn in Hchk.
    destruct (validate_items objects initial_state items) as [e | st] eqn:Hitems;
      [| discriminate].
    cbn in Hchk. injection Hchk as ->.
    destruct (validate_items_conflict_inv _ _ _ _ _ _ supplied_inv_initial Hitems)
      as (i & j & v0 & v & c & Hlt & Hi & Hj & Ht0 & Ht & ->).
    rewrite app_nil_l in Hi, Hj.
    exists items, i, j, k0', v0, k', v, c.
    repeat (split; [done |]). symmetry. exact Hmsg.
Qed.



Lemma render_item_numeric d c :
  objects_get objects (d !! "column_type") = Some c ->
  is_numeric c = true ->
  exists r,
    render_item objects (EDict d) = Ok r
    /\ r !! "multiplier" = Some (default (PInt 1) (d !! "multiplier"))
    /\ r !! "addition" = Some (default (PInt 0) (d !! "addition")).
Proof.
  intros Hc Hnum. pose proof (objects_get_pk _ _ Hc) as Hp.
  unfold render_item. rewrite Hp. rewrite <- Hp, Hc, Hnum.
  eexists. split; [reflexivity |]. by simplify_map_eq.
Qed.

Lemma render_item_total v :
  is_Some (column_type_of objects v) -> exists r, render_item objects v = Ok r.
Proof.
  intros [c Hc]. destruct v as [d | x]; [| discriminate]. cbn in Hc.
  pose proof (objects_get_pk _ _ Hc) as Hp.
  unfold render_item. rewrite Hp. rewrite <- Hp, Hc.
  destruct (is_numeric c); eauto.
Qed.

Lemma get_rendered_map_from_total items out :
  (forall kv, kv ∈ items -> is_Some (column_type_of objects kv.2)) ->
  exists out', get_rendered_map_from objects out items = Ok out'.
Proof.
  revert out. induction items as [| [k v] items IH]; intros out Hall;
    cbn [get_rendered_map_from]; [eauto |].
  destruct (render_item_total v) as [r ->].
  { apply (Hall (k, v)). left. }
  cbn [mbind result_bind]. apply IH. intros kv Hin. apply Hall. by right.
Qed.

Lemma get_rendered_map_from_other items out out' key :
  get_rendered_map_from objects out items = Ok out' ->
  key ∉ items.*1 ->
  dict_get key out' = dict_get key out.
Proof.
  revert out. induction items as [| [k v] items IH]; intros out;
    cbn [get_rendered_map_from].
  - by intros [= <-].
  - destruct (render_item objects v) as [r | e]; cbn [mbind result_bind];
      [| intros [=]].
    intros Hrest Hnotin. rewrite fmap_cons in Hnotin. cbn in Hnotin.
    apply not_elem_of_cons in Hnotin as [Hne Hnotin].
    rewrite (IH _ Hrest Hnotin). by apply dict_get_set_ne.
Qed.

Lemma get_rendered_map_from_lookup items out out' key value :
  get_rendered_map_from objects out items = Ok out' ->
  NoDup items.*1 ->
  (key, value) ∈ items ->
  exists r, render_item objects value = Ok r /\ dict_get key out' = Some r.
Proof.
  revert out. induction items as [| [k v] items IH]; intros out;
    cbn [get_rendered_map_from].
  - intros _ _ Hin. by apply elem_of_nil in Hin.
  - destruct (render_item objects v) as [r | e] eqn:Hr; cbn [mbind result_bind];
      [| intros [=]].
    intros Hrest Hnodup Hin. rewrite fmap_cons in Hnodup. cbn in Hnodup.
    apply NoDup_cons in Hnodup as [Hnotin Hnodup].
    apply elem_of_cons in Hin as [[= -> ->] | Hin].
    + exists r. split; [done |].
      rewrite (get_rendered_map_from_other _ _ _ _ Hrest Hnotin).
      apply dict_get_set_eq.
    + by eapply IH.
Qed.




End ColumnMaps.

Section ColumnMapExamples.
Import ColumnMappingSerializer.

(** C6, the claim as stated fails: columns [a] and [b] both target the
    required column type Voltage_V, and the map is rejected, but with
    the error about renaming [a], which names neither [b] nor the
    conflict: the checks of [a] come first. *)
Lemma rename_error_precedes_conflict :
  let voltage := mk_column_type "v" "Voltage_V" "float" true in
  let a := EDict (<["new_name" := PStr "x"]> {[ "column_type" := PStr "v" ]}) in
  let b := EDict {[ "column_type" := PStr "v" ]} in
  targets_required [voltage] a voltage
  /\ targets_required [voltage] b voltage
  /\ @validate_map sample_builtins [voltage] (MDict [("a", a); ("b", b)])
     = Raise (ValidationError
         "Column 'a' is one of the core required columns and cannot be renamed").
Proof.
  cbv zeta. unfold targets_required.
  repeat split; try (vm_compute; reflexivity); cbn; set_solver.
Qed.

Lemma required_column_conflict_witness :
  let voltage := mk_column_type "v" "Voltage_V" "float" true in
  let a := EDict {[ "column_type" := PStr "v" ]} in
  let b := EDict {[ "column_type" := PStr "v" ]} in
  @validate_map sample_builtins [voltage] (MDict [("a", a); ("b", b)])
  = Raise (ValidationError
      "Cannot assign column 'b' to required column Voltage_V. Column Voltage_V is already assigned to column 'a'").
Proof.
  cbv zeta.
  refine (proj2 (proj2 (proj1 (@required_column_conflict sample_builtins
            [mk_column_type "v" "Voltage_V" "float" true])
            [("a", EDict {[ "column_type" := PStr "v" ]});
             ("b", EDict {[ "column_type" := PStr "v" ]})]
            0%nat 1%nat "a" _ "b" _
            (mk_column_type "v" "Voltage_V" "float" true) _ _ _ _ _)) _).
  - lia.
  - reflexivity.
  - reflexivity.
  - split; [vm_compute; reflexivity | cbn; set_solver].
  - split; [vm_compute; reflexivity | cbn; set_solver].
  - vm_compute. reflexivity.
Defined.


End ColumnMapExamples.

(** ** Uploads of observed files *)

Section Uploads.
Import FileState ObservedFileCreateSerializer.

Lemma create_partition_rows env file fr r fr' :
  create_partition env file fr = (r, fr') -> same_file_rows fr fr'.
Proof.
  destruct file as [i [name size]]. unfold create_partition, same_file_rows.
  destruct (endswith name ".parquet").
  - unfold mbind, M_bind, lift, gets, modify, raise.
    destruct (partition_create env i) as [[] | e];
      [| intros [= <- <-]; by repeat split].
    destruct (observed_file fr) eqn:Ho; intros [= <- <-]; cbn; rewrite ?Ho;
      by repeat split.
  - intros [= <- <-]. by repeat split.
Qed.

Lemma for_each_create_partition_rows env files fr r fr' :
  for_each files (create_partition env) fr = (r, fr') -> same_file_rows fr fr'.
Proof.
  revert fr. induction files as [| file files IH]; intros fr; cbn [for_each].
  - intros [= <- <-]. by repeat split.
  - unfold mbind, M_bind.
    destruct (create_partition env file fr) as [[[] | e] fr1] eqn:Hstep;
      apply create_partition_rows in Hstep as (Ho & Hm & Hf & Ht).
    + intros Hrest. apply IH in Hrest as (Ho' & Hm' & Hf' & Ht').
      unfold same_file_rows. by rewrite Ho', Hm', Hf', Ht'.
    + intros [= <- <-]. by repeat split.
Qed.

Ltac run_monad :=
  unfold mbind, M_bind, mret, M_ret, lift, gets, modify, raise,
    assign_observed_file, assign_mapping, set_attribute, save in *.

(** Resolving the file binds [observed_file], unless the creation of
    the row of a first upload raised. *)
Lemma resolve_file_outcome env target_file new_summary fr r fr' :
  resolve_file env target_file new_summary fr = (r, fr') ->
  temp_files (db fr') = temp_files (db fr)
  /\ match target_file with
     | Some _ => bound (bound_pk target_file (db fr)) fr'
     | None =>
         if is_ok (to_dict new_summary) && is_ok (objects_create env)
         then bound (bound_pk target_file (db fr)) fr'
         else (exists e, r = Raise e)
              /\ observed_file fr' = observed_file fr
              /\ observed_files (db fr') = observed_files (db fr)
     end.
Proof.
  unfold resolve_file, bound, bound_pk. destruct target_file as [tf |].
  - run_monad. destruct (to_json new_summary) as [loaded | e].
    + destruct (decide (summary tf <> loaded)).
      * intros [= <- <-]. cbn. eauto.
      * cbn. destruct (mapping_var fr); intros [= <- <-]; cbn; eauto.
    + intros [= <- <-]. cbn. eauto.
  - run_monad. destruct (to_dict new_summary) as [as_dict | e]; cbn.
    + destruct (objects_create env) as [[] | e]; cbn.
      * intros [= <- <-]. cbn. eauto.
      * intros [= <- <-]. eauto.
    + intros [= <- <-]. eauto.
Qed.

(** Applying the mapping keeps [observed_file] bound to the same key;
    when it returns, the object is in state IMPORTED. *)
Lemma apply_mapping_outcome env mapping_id p fr r fr' :
  bound p fr ->
  apply_mapping env mapping_id fr = (r, fr') ->
  bound p fr'
  /\ temp_files (db fr') = temp_files (db fr)
  /\ (r = Ok tt -> exists o, observed_file fr' = Some o /\ state o = IMPORTED).
Proof.
  intros (o & Ho & Hp). unfold apply_mapping, bound. run_monad.
  destruct (applicable_mappings env) as [applicable | e];
    [| intros [= <- <-]; split; [eauto | split; [done | intros [=]]]].
  destruct (bool_decide (mapping_id ∉ applicable));
    [intros [= <- <-]; split; [eauto | split; [done | intros [=]]] |].
  rewrite Ho. cbn.
  destruct (save_mapping env) as [[] | e];
    [| intros [= <- <-]; split; [cbn; eauto | split; [done | intros [=]]]].
  cbn.
  destruct (rendered_map env) as [[] | e];
    [| intros [= <- <-]; split; [cbn; eauto | split; [done | intros [=]]]].
  destruct (process_data env) as [[] | e];
    [| intros [= <- <-]; split; [cbn; eauto | split; [done | intros [=]]]].
  destruct (data_files env) as [files | e];
    [| intros [= <- <-]; split; [cbn; eauto | split; [done | intros [=]]]].
  destruct (for_each (enumerate files) (create_partition env) _)
    as [[[] | e] fr1] eqn:Hloop;
    apply for_each_create_partition_rows in Hloop as (Ho1 & _ & _ & Ht1);
    cbn in Ho1, Ht1;
    [| intros [= <- <-]; rewrite Ho1, Ht1;
       split; [cbn; eauto | split; [done | intros [=]]]].
  destruct (open_png env) as [image | e];
    [| intros [= <- <-]; rewrite Ho1, Ht1;
       split; [cbn; eauto | split; [done | intros [=]]]].
  rewrite Ho1. cbn. intros [= <- <-]. cbn. rewrite Ht1.
  split; [eauto | split; [done | eauto]].
Qed.

(** Resolving the file binds [observed_file] to an object in the state
    [bound_state], and records nothing in its row. *)
Lemma resolve_file_unrecorded env target_file new_summary fr r fr' o :
  observed_file fr = None ->
  resolve_file env target_file new_summary fr = (r, fr') ->
  observed_file fr' = Some o ->
  state o = bound_state env target_file
  /\ unrecorded (bound_state env target_file)
       (bound_pk target_file (db fr)) (db fr) (db fr').
Proof.
  intros Hnone. unfold resolve_file, bound_state, bound_pk, unrecorded.
  destruct target_file as [tf |].
  - run_monad. destruct (to_json new_summary) as [loaded | e].
    + destruct (decide (summary tf <> loaded)).
      * intros [= <- <-]. cbn. intros [= <-]. eauto.
      * cbn. destruct (mapping_var fr); intros [= <- <-]; cbn;
          intros [= <-]; eauto.
    + intros [= <- <-]. cbn. intros [= <-]. eauto.
  - run_monad. destruct (to_dict new_summary) as [as_dict | e]; cbn.
    + destruct (objects_create env) as [[] | e]; cbn.
      * intros [= <- <-]. cbn. intros [= <-]. cbn.
        split; [done |]. right. by rewrite lookup_insert_eq.
      * intros [= <- <-]. congruence.
    + intros [= <- <-]. congruence.
Qed.

(** Applying the mapping changes the file rows by the save of the
    mapping at most. *)
Lemma apply_mapping_rows env mapping_id fr r fr' o :
  observed_file fr = Some o ->
  apply_mapping env mapping_id fr = (r, fr') ->
  observed_files (db fr') = observed_files (db fr)
  \/ observed_files (db fr')
     = <[pk o := set_mapping (Some mapping_id) o]> (observed_files (db fr)).
Proof.
  intros Ho. unfold apply_mapping. run_monad.
  destruct (applicable_mappings env) as [applicable | e];
    [| intros [= <- <-]; by left].
  destruct (bool_decide (mapping_id ∉ applicable));
    [intros [= <- <-]; by left |].
  rewrite Ho. cbn.
  destruct (save_mapping env) as [[] | e]; [| intros [= <- <-]; by left].
  cbn.
  destruct (rendered_map env) as [[] | e]; [| intros [= <- <-]; by right].
  destruct (process_data env) as [[] | e]; [| intros [= <- <-]; by right].
  destruct (data_files env) as [files | e]; [| intros [= <- <-]; by right].
  destruct (for_each (enumerate files) (create_partition env) _)
    as [[[] | e] fr1] eqn:Hloop;
    apply for_each_create_partition_rows in Hloop as (Ho1 & _ & Hr1 & _);
    cbn in Ho1, Hr1;
    [| intros [= <- <-]; by right].
  destruct (open_png env) as [image | e]; [| intros [= <- <-]; by right].
  rewrite Ho1. cbn. intros [= <- <-]. cbn. by right.
Qed.

Lemma apply_mapping_unrecorded env mapping_id s0 w0 fr r fr' o :
  observed_file fr = Some o ->
  state o = s0 ->
  unrecorded s0 (pk o) w0 (db fr) ->
  apply_mapping env mapping_id fr = (r, fr') ->
  unrecorded s0 (pk o) w0 (db fr').
Proof.
  intros Ho Hs Hun Hrun. unfold unrecorded in *.
  destruct (apply_mapping_rows _ _ _ _ _ _ Ho Hrun) as [-> | ->]; [done |].
  right. by rewrite lookup_insert_eq, <- Hs.
Qed.

(** The [except] clause on a bound file: its save records the failure
    and a validation error is raised, or its save raises, and that
    exception leaves the clause with the rows as they were. *)
Lemma handler_outcome env e s0 p w0 fr r fr' :
  bound p fr ->
  unrecorded s0 p w0 (db fr) ->
  handler env e fr = (r, fr') ->
  temp_files (db fr') = temp_files (db fr)
  /\ exists e',
       r = Raise e'
       /\ (((exists d, e' = ValidationError d)
            /\ state <$> (observed_files (db fr') !! p) = Some IMPORT_FAILED)
           \/ (save_failed env = Raise e' /\ unrecorded s0 p w0 (db fr'))).
Proof.
  intros (o & Ho & <-) Hun. unfold handler. run_monad. cbn. rewrite !Ho. cbn.
  destruct (save_failed env) as [[] | e'] eqn:Hsave; intros [= <- <-]; cbn.
  - split; [done |]. eexists. split; [done |]. left.
    split; [eauto |]. by rewrite lookup_insert_eq.
  - split; [done |]. eexists. split; [done |]. by right.
Qed.

Lemma handler_unbound env e fr :
  observed_file fr = None ->
  handler env e fr
  = (Raise (ValidationError ("Error processing file: " +:+ str_exn e)), fr).
Proof. intros Ho. unfold handler. run_monad. by rewrite Ho. Qed.

(** What the [try] block with its handler leaves behind. *)
Lemma try_block_outcome env target_file mapping w0 r fr :
  try_except (try_body env target_file) (handler env)
    {| db := w0; observed_file := None; mapping_var := mapping |} = (r, fr) ->
  temp_files (db fr) = temp_files w0
  /\ match r with
     | Ok o =>
         pk o = bound_pk target_file w0
         /\ observed_files (db fr) !! pk o = Some o
         /\ (state o = IMPORTED \/ state o = AWAITING_MAP_ASSIGNMENT)
     | Raise e =>
         if reaches_file env target_file
         then ((exists d, e = ValidationError d)
               /\ state <$> (observed_files (db fr) !! bound_pk target_file w0)
                  = Some IMPORT_FAILED)
              \/ (save_failed env = Raise e
                  /\ unrecorded (bound_state env target_file)
                       (bound_pk target_file w0) w0 (db fr))
         else (exists d, e = ValidationError d)
              /\ observed_files (db fr) = observed_files w0
     end.
Proof.
  set (fr0 := {| db := w0; observed_file := None; mapping_var := mapping |}).
  set (p := bound_pk target_file w0). set (s0 := bound_state env target_file).
  unfold try_except, try_body, reaches_file.
  unfold mbind at 1 2, M_bind at 1 2, lift at 1 2.
  destruct (init_processor env) as [[] | e0] eqn:Hinit.
  2:{ rewrite handler_unbound by done. intros [= <- <-]. cbn. eauto. }
  destruct (summarise_columns env) as [new_summary | e0] eqn:Hsum.
  2:{ rewrite handler_unbound by done. intros [= <- <-]. cbn. eauto. }
  unfold mbind at 1, M_bind at 1. cbn [is_ok andb].
  destruct (resolve_file env target_file new_summary fr0)
    as [r1 fr1] eqn:Hres.
  pose proof (fun o => resolve_file_unrecorded env target_file new_summary
                          fr0 r1 fr1 o eq_refl Hres) as Hfresh.
  apply resolve_file_outcome in Hres as [Ht1 Hb1]; cbn in Ht1, Hb1, Hfresh.
  fold p s0 in Hfresh.
  assert (Hcase :
    if match target_file with
       | Some _ => true
       | None => is_ok (to_dict new_summary) && is_ok (objects_create env)
       end
    then bound p fr1
    else (exists e, r1 = Raise e)
         /\ observed_file fr1 = None
         /\ observed_files (db fr1) = observed_files w0)
    by (destruct target_file; exact Hb1).
  clear Hb1.
  destruct (match target_file with
            | Some _ => true
            | None => is_ok (to_dict new_summary) && is_ok (objects_create env)
            end).
  - rename Hcase into Hb.
    destruct Hb as (o1 & Ho1 & Hp1).
    destruct (Hfresh _ Ho1) as [Hs1 Hun1].
    assert (Hb : bound p fr1) by (exists o1; eauto).
    assert (Hfail : forall e fr2 r2 fr3,
      bound p fr2 -> unrecorded s0 p w0 (db fr2) ->
      temp_files (db fr2) = temp_files w0 ->
      handler env e fr2 = (r2, fr3) ->
      temp_files (db fr3) = temp_files w0
      /\ match r2 with
         | Ok o =>
             pk o = p
             /\ observed_files (db fr3) !! pk o = Some o
             /\ (state o = IMPORTED \/ state o = AWAITING_MAP_ASSIGNMENT)
         | Raise e' =>
             ((exists d, e' = ValidationError d)
              /\ state <$> (observed_files (db fr3) !! p) = Some IMPORT_FAILED)
             \/ (save_failed env = Raise e' /\ unrecorded s0 p w0 (db fr3))
         end).
    { intros e fr2 r2 fr3 Hb2 Hun2 Ht2 Hh.
      apply (handler_outcome _ _ _ _ _ _ _ _ Hb2 Hun2) in Hh
        as (Ht3 & e' & -> & Hout).
      split; [congruence | exact Hout]. }
    destruct r1 as [[] | e1].
    + run_monad. destruct (mapping_var fr1) as [mapping_id |].
      * destruct (apply_mapping env mapping_id fr1) as [[[] | e2] fr2] eqn:Hap;
          pose proof (apply_mapping_unrecorded _ _ s0 w0 _ _ _ _ Ho1 Hs1
                        ltac:(by rewrite Hp1) Hap) as Hun2;
          rewrite Hp1 in Hun2;
          apply (apply_mapping_outcome _ _ _ _ _ _ Hb) in Hap
            as (Hb2 & Ht2 & Hst).
        -- destruct (Hst eq_refl) as (o & Ho & Hstate). rewrite Ho.
           destruct (save_result env) as [[] | e3]; cbn.
           ++ rewrite Ho. intros [= <- <-]. cbn.
              destruct Hb2 as (o' & Ho' & Hpk). rewrite Ho in Ho'.
              injection Ho' as <-.
              rewrite lookup_insert_eq. split; [congruence |]. eauto.
           ++ intros Hh.
              eapply (Hfail _ fr2); [exact Hb2 | exact Hun2 | congruence | exact Hh].
        -- intros Hh.
           eapply (Hfail _ fr2); [exact Hb2 | exact Hun2 | congruence | exact Hh].
      * rewrite Ho1. cbn.
        destruct (save_result env) as [[] | e3]; cbn.
        -- intros [= <- <-]. cbn. rewrite lookup_insert_eq.
           split; [congruence |]. eauto.
        -- intros Hh.
           refine (Hfail _ _ _ _ _ _ _ Hh); [| exact Hun1 | exact Ht1].
           exists (set_state AWAITING_MAP_ASSIGNMENT o1). eauto.
    + intros Hh. eapply (Hfail _ fr1); [exact Hb | exact Hun1 | exact Ht1 | exact Hh].
  - destruct Hcase as ([e1 ->] & Ho & Hrows).
    rewrite handler_unbound by done.
    intros [= <- <-]. split; [congruence |]. eauto.
Qed.

(** C2 (amended).  On a re-upload that targets an existing file, when
    the summary recomputed from the uploaded bytes differs from the
    stored one, the handler of the [try] block sets the target file to
    IMPORT_FAILED and saves it.  When that save returns, [create] raises
    a validation error and the target file is stored in state
    IMPORT_FAILED; when that save raises, its exception leaves [create]
    and no row has changed.  Either way the temporary copy is removed
    and no partition is written. *)
Theorem summary_mismatch_fails_file env temp_name tf mapping w new_summary loaded :
  write_chunks env = Ok tt ->
  init_processor env = Ok tt ->
  summarise_columns env = Ok new_summary ->
  to_json new_summary = Ok loaded ->
  summary tf <> loaded ->
  create env temp_name (Some tf) mapping w
  = match save_failed env with
    | Ok _ =>
        (Raise (ValidationError
           ("Error processing file: " +:+
            str_exn (ValidationError "Summary does not match existing file"))),
         unlink temp_name
           (store_row (set_state IMPORT_FAILED tf) (add_temp_file temp_name w)))
    | Raise e => (Raise e, unlink temp_name (add_temp_file temp_name w))
    end.
Proof.
  intros Hw Hi Hs Hj Hne.
  unfold create, try_finally, try_except, try_body, resolve_file, handler.
  rewrite Hw, Hi, Hs.
  unfold mbind, M_bind, lift, assign_observed_file, modify, raise, gets,
    set_attribute, save.
  rewrite Hj, decide_True by done. cbn.
  by destruct (save_failed env) as [[] | e].
Qed.

Lemma summary_mismatch_fails_file_witness :
  let tf := mk_observed_file 1 AWAITING_MAP_ASSIGNMENT
              {[ "Voltage" := ["3.7"] ]} (Some 5%nat) None in
  let env := {| write_chunks := Ok tt; init_processor := Ok tt;
                summarise_columns :=
                  Ok {| to_json := Ok {[ "Current" := ["0.1"] ]};
                        to_dict := Ok {[ "Current" := ["0.1"] ]} |};
                objects_create := Ok tt; initial_state := AWAITING_FILE_METADATA;
                applicable_mappings := Ok [5%nat]; rendered_map := Ok tt;
                process_data := Ok tt; data_files := Ok [];
                partition_create := fun _ => Ok tt; open_png := Ok "preview.png";
                save_mapping := Ok tt; save_result := Ok tt;
                save_failed := Ok tt |} in
  let w := mk_world {[ 1%nat := tf ]} [] ∅ in
  create env "/tmp/upload" (Some tf) None w
  = (Raise (ValidationError
       ("Error processing file: " +:+
        str_exn (ValidationError "Summary does not match existing file"))),
     unlink "/tmp/upload"
       (store_row (set_state IMPORT_FAILED tf) (add_temp_file "/tmp/upload" w))).
Proof.
  cbv zeta.
  etransitivity;
    [apply (summary_mismatch_fails_file _ "/tmp/upload" _ None _
              {| to_json := Ok {[ "Current" := ["0.1"] ]};
                 to_dict := Ok {[ "Current" := ["0.1"] ]} |}
              {[ "Current" := ["0.1"] ]}); try reflexivity;
     vm_compute; discriminate
    | reflexivity].
Defined.

(** C2, the claim as stated fails: file 1 awaits its map assignment, the
    re-uploaded bytes give another summary, [create] raises a validation
    error, and the stored state of file 1 has become IMPORT_FAILED. *)
Lemma summary_mismatch_changes_state :
  let tf := mk_observed_file 1 AWAITING_MAP_ASSIGNMENT
              {[ "Voltage" := ["3.7"] ]} (Some 5%nat) None in
  let env := {| write_chunks := Ok tt; init_processor := Ok tt;
                summarise_columns :=
                  Ok {| to_json := Ok {[ "Current" := ["0.1"] ]};
                        to_dict := Ok {[ "Current" := ["0.1"] ]} |};
                objects_create := Ok tt; initial_state := AWAITING_FILE_METADATA;
                applicable_mappings := Ok [5%nat]; rendered_map := Ok tt;
                process_data := Ok tt; data_files := Ok [];
                partition_create := fun _ => Ok tt; open_png := Ok "preview.png";
                save_mapping := Ok tt; save_result := Ok tt;
                save_failed := Ok tt |} in
  let w := mk_world {[ 1%nat := tf ]} [] ∅ in
  state <$> (observed_files w !! 1%nat) = Some AWAITING_MAP_ASSIGNMENT
  /\ is_validation_error (create env "/tmp/upload" (Some tf) None w).1 = true
  /\ state <$> (observed_files (create env "/tmp/upload" (Some tf) None w).2
                  !! 1%nat)
     = Some IMPORT_FAILED.
Proof. cbv zeta. repeat split; vm_compute; reflexivity. Qed.

(** C5 (amended).  Once the upload is copied to the temporary file,
    [create] removes that file on every exit path.  An exception raised
    in the [try] block before the file object is bound, that is before
    the processor opened and summarised the upload and, for a first
    upload, the row was created, surfaces as a validation error and no
    file row is changed.  An exception raised after that makes the
    handler set the file to IMPORT_FAILED and save it: when that save
    returns, the file is stored in state IMPORT_FAILED and a validation
    error is raised; when that save raises, its exception leaves
    [create] in place of the validation error, and the row of the file
    holds no outcome of the run: its state is the one it had before, or
    the one the object had when it was bound.  A run that returns leaves
    the file saved in state IMPORTED or AWAITING_MAP_ASSIGNMENT. *)
Theorem create_failure_and_cleanup env temp_name target_file mapping w r w' :
  write_chunks env = Ok tt ->
  create env temp_name target_file mapping w = (r, w') ->
  (temp_name ∉ temp_files w')
  /\ match r with
     | Ok o =>
         observed_files w' !! pk o = Some o
         /\ (state o = IMPORTED \/ state o = AWAITING_MAP_ASSIGNMENT)
     | Raise e =>
         if reaches_file env target_file
         then ((exists d, e = ValidationError d)
               /\ state <$> (observed_files w' !! bound_pk target_file w)
                  = Some IMPORT_FAILED)
              \/ (save_failed env = Raise e
                  /\ unrecorded (bound_state env target_file)
                       (bound_pk target_file w) w w')
         else (exists d, e = ValidationError d)
              /\ observed_files w' = observed_files w
     end.
Proof.
  intros Hw. unfold create, try_finally. rewrite Hw.
  destruct (try_except (try_body env target_file) (handler env) _)
    as [r1 fr1] eqn:Hrun.
  apply try_block_outcome in Hrun as [Htemp Hout].
  unfold modify. cbn. intros [= <- <-]. cbn.
  assert (Hpk : bound_pk target_file (add_temp_file temp_name w)
                = bound_pk target_file w) by (by destruct target_file).
  rewrite Hpk in Hout. cbn in Htemp, Hout. split.
  - rewrite Htemp. apply not_elem_of_difference. right.
    by apply elem_of_singleton.
  - destruct r1 as [o | e]; [tauto | exact Hout].
Qed.

Lemma create_failure_and_cleanup_witness :
  let tf := mk_observed_file 1 AWAITING_MAP_ASSIGNMENT
              {[ "Voltage" := ["3.7"] ]} (Some 5%nat) None in
  let env := {| write_chunks := Ok tt; init_processor := Ok tt;
                summarise_columns :=
                  Ok {| to_json := Ok {[ "Voltage" := ["3.7"] ]};
                        to_dict := Ok {[ "Voltage" := ["3.7"] ]} |};
                objects_create := Ok tt; initial_state := AWAITING_FILE_METADATA;
                applicable_mappings := Ok [5%nat]; rendered_map := Ok tt;
                process_data := Raise (Exception "unreadable row");
                data_files := Ok [];
                partition_create := fun _ => Ok tt; open_png := Ok "preview.png";
                save_mapping := Ok tt; save_result := Ok tt;
                save_failed := Ok tt |} in
  let w := mk_world {[ 1%nat := tf ]} [] ∅ in
  "/tmp/upload" ∉ temp_files (create env "/tmp/upload" (Some tf) None w).2.
Proof.
  cbv zeta.
  refine (proj1 (create_failure_and_cleanup _ "/tmp/upload" _ None _ _ _ _
                   (surjective_pairing _))).
  reflexivity.
Defined.

(** C5, the claim as stated fails: on a re-upload for file 1, the
    processor raises while it summarises the uploaded bytes; the error
    surfaces as a validation error, but file 1 keeps its state: the
    exception is raised before [observed_file] is bound. *)
Lemma early_exception_keeps_state :
  let tf := mk_observed_file 1 AWAITING_MAP_ASSIGNMENT
              {[ "Voltage" := ["3.7"] ]} (Some 5%nat) None in
  let env := {| write_chunks := Ok tt; init_processor := Ok tt;
                summarise_columns := Raise (Exception "unsupported file");
                objects_create := Ok tt; initial_state := AWAITING_FILE_METADATA;
                applicable_mappings := Ok [5%nat]; rendered_map := Ok tt;
                process_data := Ok tt; data_files := Ok [];
                partition_create := fun _ => Ok tt; open_png := Ok "preview.png";
                save_mapping := Ok tt; save_result := Ok tt;
                save_failed := Ok tt |} in
  let w := mk_world {[ 1%nat := tf ]} [] ∅ in
  is_validation_error (create env "/tmp/upload" (Some tf) (Some 5%nat) w).1 = true
  /\ state <$> (observed_files
                   (create env "/tmp/upload" (Some tf) (Some 5%nat) w).2 !! 1%nat)
     = Some AWAITING_MAP_ASSIGNMENT.
Proof. cbv zeta. split; vm_compute; reflexivity. Qed.

(** When the save that ends the [try] block raises and the save of the
    handler raises as well, the second exception leaves [create] as it
    is: no validation error is raised, and file 1 is not recorded as
    failed. *)
Example failed_saves_hide_failure :
  let tf := mk_observed_file 1 AWAITING_MAP_ASSIGNMENT
              {[ "Voltage" := ["3.7"] ]} (Some 5%nat) None in
  let env := {| write_chunks := Ok tt; init_processor := Ok tt;
                summarise_columns :=
                  Ok {| to_json := Ok {[ "Voltage" := ["3.7"] ]};
                        to_dict := Ok {[ "Voltage" := ["3.7"] ]} |};
                objects_create := Ok tt; initial_state := AWAITING_FILE_METADATA;
                applicable_mappings := Ok [5%nat]; rendered_map := Ok tt;
                process_data := Ok tt; data_files := Ok [];
                partition_create := fun _ => Ok tt; open_png := Ok "preview.png";
                save_mapping := Ok tt;
                save_result := Raise (StorageError "Insufficient storage");
                save_failed := Raise (StorageError "Insufficient storage") |} in
  let w := mk_world {[ 1%nat := tf ]} [] ∅ in
  (create env "/tmp/upload" (Some tf) None w).1
  = Raise (StorageError "Insufficient storage")
  /\ state <$> (observed_files (create env "/tmp/upload" (Some tf) None w).2
                  !! 1%nat)
     = Some AWAITING_MAP_ASSIGNMENT
  /\ "/tmp/upload" ∉ temp_files (create env "/tmp/upload" (Some tf) None w).2.
Proof.
  cbv zeta. split; [| split]; [vm_compute; reflexivity ..|].
  vm_compute. intros [=].
Qed.

End Uploads.

(** ** Storage quota *)

Section StorageQuota.
Import StorageAllocator ArbitraryFileCreateSerializer.

Lemma elem_of_insert_by_priority x st l :
  x ∈ insert_by_priority st l <-> x = st \/ x ∈ l.
Proof.
  induction l as [| y l IH]; cbn.
  - rewrite list_elem_of_singleton, elem_of_nil. tauto.
  - destruct (priority st <? priority y); rewrite !elem_of_cons, ?IH; tauto.
Qed.

(** The enumeration by priority is a rearrangement of the lab's
    storage types. *)
Lemma elem_of_get_all_storage_types s x :
  x ∈ get_all_storage_types s <-> x ∈ storage_types s.
Proof.
  unfold get_all_storage_types.
  assert (Hgen : forall l acc,
            x ∈ foldl (fun acc st => insert_by_priority st acc) acc l
            <-> x ∈ l \/ x ∈ acc).
  { induction l as [| y l IH]; intros acc; cbn.
    - rewrite elem_of_nil. tauto.
    - rewrite IH, elem_of_insert_by_priority, elem_of_cons. tauto. }
  rewrite Hgen, elem_of_nil. tauto.
Qed.

Lemma find_none_iff {A} (f : A -> bool) (l : list A) :
  (forall x, x ∈ l -> f x = false) -> List.find f l = None.
Proof.
  induction l as [| y l IH]; intros Hall; cbn; [done |].
  rewrite (Hall y) by left. apply IH. intros x Hx. apply Hall. by right.
Qed.

(** Without room in any enabled storage type the reservation fails. *)
Lemma reserve_no_room s num_bytes :
  no_room s num_bytes ->
  reserve s num_bytes = Raise (StorageError "Insufficient storage").
Proof.
  intros Hno. unfold reserve. rewrite find_none_iff; [done |].
  intros st Hin. apply elem_of_get_all_storage_types in Hin.
  unfold has_room. destruct (enabled st) eqn:Hen; [| done]. cbn.
  apply Z.leb_gt. by apply Hno.
Qed.

(** A row that is not attributed to a storage type uses no bytes. *)
Lemma get_bytes_used_unattributed s a st :
  storage a = None ->
  get_bytes_used (add_artifact a s) st = get_bytes_used s st.
Proof.
  intros Ha. unfold get_bytes_used. cbn. rewrite filter_app.
  rewrite (filter_cons_False _ a []) by (rewrite Ha; discriminate).
  rewrite filter_nil. by rewrite app_nil_r.
Qed.

Lemma set_last_artifact s a f :
  set_artifact (length (artifacts s)) f (add_artifact a s)
  = add_artifact (f a) s.
Proof.
  unfold set_artifact, add_artifact. cbn. f_equal.
  rewrite <- (Nat.add_0_r (length (artifacts s))). by rewrite alter_app_r.
Qed.

Lemma no_room_unattributed s a num_bytes :
  storage a = None -> no_room s num_bytes -> no_room (add_artifact a s) num_bytes.
Proof.
  intros Ha Hno st Hin Hen. rewrite get_bytes_used_unattributed by done.
  by apply Hno.
Qed.

(** A storage error raised in the [try] block of the arbitrary-file
    serializer leaves [create] as a validation error with the same
    message, and the transaction restores the database. *)
Lemma create_storage_error {db handle} (models : model_layer db handle)
    file bytes_required d msg d' :
  try_body models file bytes_required d = (Raise (StorageError msg), d') ->
  bytes_required = match truthy file with Some f => file_size f | None => 0 end ->
  create models file d = (Raise (ValidationError msg), d).
Proof.
  intros Hbody ->. unfold create, atomic, except_StorageError.
  by rewrite Hbody.
Qed.

(** C3, the claim as stated fails: the lab's only storage type has a
    quota of 0 bytes, so there is no room for a file of 100000 bytes;
    creating it as an arbitrary file fails and creates no row, but the
    error that leaves [create] is a validation error (status 400), not
    the storage error (status 507). *)
Lemma arbitrary_file_gets_validation_error :
  let s := mk_lab_store [mk_storage_type 1 0 0 true] []
             {[ 1%nat := FileState.IMPORTING ]} in
  let f := mk_uploaded_file "notes.txt" 100000 in
  no_room s (file_size f)
  /\ create spec_models (Some f) s
     = (Raise (ValidationError "Insufficient storage"), s)
  /\ status_code (ValidationError "Insufficient storage") = 400
  /\ status_code (ValidationError "Insufficient storage") <> 507.
Proof.
  cbv zeta. split; [| split; [| split]].
  - intros st Hin Hen. apply list_elem_of_singleton in Hin as ->.
    vm_compute. reflexivity.
  - vm_compute. reflexivity.
  - reflexivity.
  - discriminate.
Qed.

End StorageQuota.

(** * Further properties *)

(** ** Access levels and teams of team-owned resources *)

Section AccessLevelWrites.
Import UserLevel WithTeamMixin.

Lemma contains_true (attrs : gmap string Z) (k : string) v :
  attrs !! k = Some v -> contains attrs k = true.
Proof. intros H. unfold contains. rewrite H. apply bool_decide_eq_true. eauto. Qed.

(** What a passed check of the editor's level tells. *)
Lemma check_user_level_ok inst user_access_level (attrs : gmap string Z) :
  check_user_level inst user_access_level attrs = Ok tt ->
  (forall level, level ∈ ["read_access_level"; "edit_access_level"] ->
     is_Some (attrs !! level) ->
     value TEAM_MEMBER <= user_access_level
     /\ getattr inst level <= user_access_level)
  /\ (is_Some (attrs !! "delete_access_level") ->
      value TEAM_ADMIN <= user_access_level).
Proof.
  unfold check_user_level. intros Hok. split.
  - intros level Hin [v Hv].
    assert (Hany : contains attrs "read_access_level"
                   || contains attrs "edit_access_level" = true).
    { repeat (apply elem_of_cons in Hin as [-> | Hin]);
        [ | | by apply elem_of_nil in Hin ];
        rewrite (contains_true _ _ _ Hv); [done | apply orb_true_r]. }
    rewrite Hany in Hok.
    destruct (user_access_level <? value TEAM_MEMBER) eqn:Hlt; [discriminate |].
    apply Z.ltb_ge in Hlt. split; [done |].
    cbn [foldl mbind result_bind] in Hok.
    repeat (apply elem_of_cons in Hin as [-> | Hin]);
      [ | | by apply elem_of_nil in Hin ];
      rewrite (contains_true _ _ _ Hv) in Hok; cbn [andb] in Hok.
    + destruct (getattr inst "read_access_level" >? user_access_level) eqn:Hgt.
      * cbn in Hok. repeat case_match; discriminate.
      * rewrite Z.gtb_ltb in Hgt. by apply Z.ltb_ge in Hgt.
    + destruct (getattr inst "edit_access_level" >? user_access_level) eqn:Hgt.
      * cbn in Hok. repeat case_match; discriminate.
      * rewrite Z.gtb_ltb in Hgt. by apply Z.ltb_ge in Hgt.
  - intros [v Hv]. rewrite (contains_true _ _ _ Hv) in Hok. cbn [andb] in Hok.
    destruct (user_access_level <? value TEAM_ADMIN) eqn:Hlt.
    + cbn in Hok. repeat case_match; discriminate.
    + by apply Z.ltb_ge in Hlt.
Qed.

Lemma validate_update_inv inst user_access_level (attrs attrs' : gmap string Z) :
  validate (Some inst) user_access_level attrs = Ok attrs' ->
  attrs' = remove_unchanged inst attrs
  /\ check_user_level inst user_access_level attrs' = Ok tt
  /\ check_hierarchy (Some inst) attrs' = Ok tt.
Proof.
  unfold validate. cbn [mbind result_bind].
  destruct (check_user_level inst user_access_level (remove_unchanged inst attrs))
    as [[] |] eqn:Hl; cbn [mbind result_bind]; [| intros [=]].
  destruct (check_hierarchy (Some inst) (remove_unchanged inst attrs))
    as [[] |] eqn:Hh; cbn [mbind result_bind]; [| intros [=]].
  intros [= <-]. done.
Qed.

Lemma read_in_levels : "read_access_level" ∈ access_levels.
Proof. unfold access_levels. rewrite !elem_of_cons. tauto. Qed.

Lemma edit_in_levels : "edit_access_level" ∈ access_levels.
Proof. unfold access_levels. rewrite !elem_of_cons. tauto. Qed.

Lemma delete_in_levels : "delete_access_level" ∈ access_levels.
Proof. unfold access_levels. rewrite !elem_of_cons. tauto. Qed.

(** X1.  A create through the fields of the mixin, in a serializer that
    runs the mixin's [validate], is decided by the order of the levels
    alone.  With the levels as submitted, or the defaults of the fields
    where none is submitted, it is rejected when read is above edit,
    else when edit is above delete, and otherwise the resource is
    created with exactly those levels: the rank of the creating user is
    not consulted, and no default of the model is used.  In a serializer
    whose [validate] replaces the mixin's ([ScheduleSerializer],
    [CyclerTestSerializer]) the same levels are stored without any
    comparison, whenever that [validate] accepts. *)
Theorem create_checks_order_only model_defaults (data : gmap string Z) :
  let r := default (value LAB_MEMBER) (data !! "read_access_level") in
  let e := default (value TEAM_MEMBER) (data !! "edit_access_level") in
  let d := default (value TEAM_MEMBER) (data !! "delete_access_level") in
  create Mixin field_defaults model_defaults data
  = (if r >? e
     then Raise (ValidationError
            "Read access level must be less than or equal to edit access level")
     else if e >? d
     then Raise (ValidationError
            "Edit access level must be less than or equal to delete access level")
     else Ok (mk_instance r e d))
  /\ (forall own_checks,
        create (Override own_checks) field_defaults model_defaults data
        = (_ ← own_checks; Ok (mk_instance r e d))).
Proof.
  cbv zeta. split; [| intros own_checks];
    unfold create, run_validate, validate, check_hierarchy, with_defaults,
      field_defaults, set_attrs;
    cbn [foldl mbind result_bind];
    [| destruct own_checks as [[] | err]; cbn [mbind result_bind]; [| done]];
    destruct (data !! "read_access_level") as [r|] eqn:Hr;
    destruct (data !! "edit_access_level") as [e|] eqn:He;
    destruct (data !! "delete_access_level") as [d|] eqn:Hd;
    simplify_map_eq; cbn [default from_option id mbind result_bind];
    repeat (case_match; simplify_map_eq; cbn [mbind result_bind]; try done);
    done.
Qed.

(** X2.  A successful update that changes the read or the edit level was
    made by a user who is at least a team member and at least at the
    stored level that is replaced; one that changes the delete level was
    made by a team admin or above. *)
Theorem changed_levels_need_rank inst user_access_level
    (attrs attrs' : gmap string Z) :
  validate (Some inst) user_access_level attrs = Ok attrs' ->
  (forall level v,
     level ∈ ["read_access_level"; "edit_access_level"] ->
     attrs !! level = Some v -> v <> getattr inst level ->
     value TEAM_MEMBER <= user_access_level
     /\ getattr inst level <= user_access_level)
  /\ (forall v,
        attrs !! "delete_access_level" = Some v ->
        v <> delete_access_level inst ->
        value TEAM_ADMIN <= user_access_level).
Proof.
  intros Hv. apply validate_update_inv in Hv as (-> & Hlevel & _).
  apply check_user_level_ok in Hlevel as [Hre Hd]. split.
  - intros level v Hin Hsub Hne. apply Hre; [done |].
    rewrite remove_unchanged_lookup, Hsub.
    + rewrite decide_False by congruence. eauto.
    + repeat (apply elem_of_cons in Hin as [-> | Hin]);
        [ | | by apply elem_of_nil in Hin ];
        [apply read_in_levels | apply edit_in_levels].
  - intros v Hsub Hne. apply Hd.
    rewrite remove_unchanged_lookup, Hsub by apply delete_in_levels.
    rewrite decide_False; [eauto |]. cbn. congruence.
Qed.

Lemma changed_levels_need_rank_witness :
  value TEAM_ADMIN <= 3.
Proof.
  refine (proj2 (changed_levels_need_rank (mk_instance 1 2 2) 3
            {[ "delete_access_level" := 3 ]} {[ "delete_access_level" := 3 ]} _)
            3 _ _).
  - vm_compute. reflexivity.
  - reflexivity.
  - cbn. lia.
Defined.

Lemma field_default_cons name dflt fields level :
  field_default ((name, dflt) :: fields) level
  = if decide (name = level) then dflt else field_default fields level.
Proof.
  unfold field_default. cbn.
  destruct (decide (name = level)) as [-> | Hne].
  - by rewrite String.eqb_refl.
  - by rewrite (proj2 (String.eqb_neq _ _) Hne).
Qed.

(** What the framework's defaults add to the request. *)
Lemma with_defaults_lookup fields (data : gmap string Z) level :
  NoDup fields.*1 ->
  with_defaults fields data !! level
  = match data !! level with
    | Some v => Some v
    | None => field_default fields level
    end.
Proof.
  unfold with_defaults. revert data.
  induction fields as [| [name dflt] fields IH]; intros data Hnd.
  - cbn. by destruct (data !! level).
  - cbn [foldl]. rewrite fmap_cons in Hnd. apply NoDup_cons in Hnd as [Hnot Hnd].
    rewrite IH by done. rewrite field_default_cons.
    assert (field_default fields name = None) as Hnone.
    { clear -Hnot. induction fields as [| [n d] fields IH]; [done |].
      rewrite fmap_cons, not_elem_of_cons in Hnot. destruct Hnot as [Hne Hnot].
      rewrite field_default_cons, decide_False by done. by apply IH. }
    destruct (decide (name = level)) as [-> | Hne].
    + destruct (data !! level) as [v |] eqn:Hv, dflt as [dv |];
        rewrite ?lookup_insert_eq, ?Hv, ?Hnone; done.
    + destruct (data !! name), dflt; rewrite ?lookup_insert_ne by done; done.
Qed.

(** X3.  What an update saves.  The framework hands [validate] the
    levels of the request and, on a full update, the default of the
    field for a level that the request leaves out; after a successful
    update every level is the one handed over, or the stored one where
    none was.  In a serializer that runs the mixin's [validate], a read
    level handed over that differs from the stored one is at most the
    saved edit level, and an edit level that differs is at most the saved
    delete level; a serializer whose [validate] replaces the mixin's
    saves the levels without these comparisons. *)
Theorem update_saves_submitted_levels fields partial inst user_access_level
    (data : gmap string Z) :
  let attrs := validated_data fields partial data in
  (forall m inst',
     update m fields partial inst user_access_level data = Ok inst' ->
     forall level, level ∈ access_levels ->
       getattr inst' level = default (getattr inst level) (attrs !! level))
  /\ (forall inst',
        update Mixin fields partial inst user_access_level data = Ok inst' ->
        (forall v, attrs !! "read_access_level" = Some v ->
           v <> read_access_level inst ->
           read_access_level inst' <= edit_access_level inst')
        /\ (forall v, attrs !! "edit_access_level" = Some v ->
              v <> edit_access_level inst ->
              edit_access_level inst' <= delete_access_level inst'))
  /\ (forall own_checks,
        update (Override own_checks) fields partial inst user_access_level data
        = (_ ← own_checks; Ok (set_attrs inst attrs)))
  /\ (NoDup fields.*1 ->
      forall level,
        attrs !! level
        = match data !! level with
          | Some v => Some v
          | None => if partial then None else field_default fields level
          end).
Proof.
  cbv zeta. set (attrs := validated_data fields partial data).
  assert (Hget : forall level, level ∈ access_levels ->
            default (getattr inst level) (remove_unchanged inst attrs !! level)
            = default (getattr inst level) (attrs !! level)).
  { intros level Hin. rewrite remove_unchanged_lookup by done.
    destruct (attrs !! level) as [v |]; [| done].
    destruct (decide (getattr inst level = v)); [by cbn | done]. }
  pose proof (Hget "read_access_level" read_in_levels) as Hr.
  pose proof (Hget "edit_access_level" edit_in_levels) as He.
  pose proof (Hget "delete_access_level" delete_in_levels) as Hd.
  cbn [getattr String.eqb Ascii.eqb Bool.eqb] in Hr, He, Hd.
  split; [| split; [| split]].
  - intros m inst'. unfold update. fold attrs.
    destruct (run_validate m (Some inst) user_access_level attrs)
      as [attrs' |] eqn:Hv; cbn [mbind result_bind]; [| intros [=]].
    intros [= <-] level Hin.
    assert (forall l, l ∈ access_levels ->
              default (getattr inst l) (attrs' !! l)
              = default (getattr inst l) (attrs !! l)) as Hsame.
    { destruct m as [| own_checks]; cbn [run_validate] in Hv.
      - apply validate_update_inv in Hv as (-> & _ & _). exact Hget.
      - destruct own_checks as [[] |]; cbn in Hv; [| discriminate Hv].
        by injection Hv as <-. }
    pose proof (Hsame "read_access_level" read_in_levels) as Hr'.
    pose proof (Hsame "edit_access_level" edit_in_levels) as He'.
    pose proof (Hsame "delete_access_level" delete_in_levels) as Hd'.
    cbn [getattr String.eqb Ascii.eqb Bool.eqb] in Hr', He', Hd'.
    unfold access_levels in Hin.
    repeat (apply elem_of_cons in Hin as [-> | Hin]);
      [ | | | by apply elem_of_nil in Hin ]; cbn; done.
  - intros inst'. unfold update, run_validate. fold attrs.
    destruct (validate (Some inst) user_access_level attrs) as [attrs' |] eqn:Hv;
      cbn [mbind result_bind]; [| intros [=]].
    intros [= <-]. apply validate_update_inv in Hv as (-> & _ & Hh).
    split.
    + intros v Hsub Hne. unfold set_attrs.
      cbn [read_access_level edit_access_level delete_access_level].
      unfold check_hierarchy in Hh.
      rewrite (remove_unchanged_lookup inst attrs "read_access_level") in Hh
        by apply read_in_levels.
      rewrite Hsub in Hh.
      rewrite decide_False in Hh by (cbn; congruence).
      cbn [mbind result_bind] in Hh.
      rewrite Hr, Hsub. cbn [default from_option id].
      destruct (v >? _) eqn:Hgt in Hh; [discriminate |].
      rewrite Z.gtb_ltb in Hgt. by apply Z.ltb_ge in Hgt.
    + intros v Hsub Hne. unfold set_attrs.
      cbn [read_access_level edit_access_level delete_access_level].
      unfold check_hierarchy in Hh.
      destruct (match remove_unchanged inst attrs !! "read_access_level" with
                | Some r => _ | None => _ end) as [[] | e];
        cbn [mbind result_bind] in Hh; [| discriminate Hh].
      rewrite (remove_unchanged_lookup inst attrs "edit_access_level") in Hh
        by apply edit_in_levels.
      rewrite Hsub in Hh.
      rewrite decide_False in Hh by (cbn; congruence).
      rewrite He, Hsub. cbn [default from_option id].
      destruct (v >? _) eqn:Hgt in Hh; [discriminate |].
      rewrite Z.gtb_ltb in Hgt. by apply Z.ltb_ge in Hgt.
  - intros own_checks. by destruct own_checks as [[] |].
  - intros Hnd level. unfold attrs, validated_data. destruct partial.
    + by destruct (data !! level).
    + by apply with_defaults_lookup.
Qed.

Lemma update_saves_submitted_levels_witness :
  edit_access_level (mk_instance 1 2 3) <= delete_access_level (mk_instance 1 2 3).
Proof.
  refine (proj2 (proj1 (proj2 (update_saves_submitted_levels field_defaults true
            (mk_instance 1 3 3) 3 {[ "edit_access_level" := 2 ]}))
            (mk_instance 1 2 3) _) 2 _ _).
  - vm_compute. reflexivity.
  - reflexivity.
  - cbn. lia.
Defined.

(** X4.  [validate_team] returns a team of the requesting user, the submitted
    one when one is submitted, and on an update only if the team of the
    instance is one of the user's teams as well.  The error asking to
    specify a team is never the one raised: the handler of the [try]
    block replaces it. *)
Theorem validate_team_in_own_teams request objects self_instance value :
  (forall t,
     validate_team request objects self_instance value = Ok t ->
     exists team_ids,
       request = Some team_ids
       /\ t ∈ objects /\ t ∈ team_ids
       /\ (forall v, value = Some v -> t = v)
       /\ (forall it, self_instance = Some it -> it ∈ objects /\ it ∈ team_ids))
  /\ validate_team request objects self_instance value
     <> Raise (ValidationError
          "You must specify a team because you are a member of multiple teams").
Proof.
  unfold validate_team, resolve_team. split.
  - intros t. destruct request as [team_ids |]; [| intros [=]].
    set (teams := filter (fun t => t ∈ team_ids) objects).
    assert (Hteams : forall x, x ∈ teams -> x ∈ objects /\ x ∈ team_ids).
    { intros x Hx. apply list_elem_of_filter in Hx. tauto. }
    destruct value as [v |].
    + destruct (bool_decide (v ∈ teams)) eqn:Hv; [| intros [=]].
      apply bool_decide_eq_true_1 in Hv.
      destruct self_instance as [it |].
      * destruct (bool_decide (it ∈ teams)) eqn:Hit; [| intros [=]].
        apply bool_decide_eq_true_1 in Hit. intros [= <-].
        exists team_ids. destruct (Hteams _ Hv), (Hteams _ Hit).
        repeat split; try done; congruence.
      * intros [= <-]. exists team_ids. destruct (Hteams _ Hv).
        repeat split; try done; congruence.
    + destruct teams as [| t0 [| t1 rest]] eqn:Ht; try (intros [=]; fail).
      assert (Hin : t0 ∈ [t0]) by left.
      destruct self_instance as [it |].
      * destruct (bool_decide (it ∈ [t0])) eqn:Hit; [| intros [=]].
        apply bool_decide_eq_true_1 in Hit.
        intros [= <-]. exists team_ids. destruct (Hteams _ Hin), (Hteams _ Hit).
        repeat split; try done; congruence.
      * intros [= <-]. exists team_ids. destruct (Hteams _ Hin).
        repeat split; try done; congruence.
  - repeat case_match; discriminate.
Qed.

Lemma validate_team_in_own_teams_witness :
  exists team_ids, Some [3%nat] = Some team_ids /\ 3%nat ∈ [1%nat; 3%nat].
Proof.
  destruct (proj1 (validate_team_in_own_teams (Some [3%nat]) [1%nat; 3%nat]
                     None None) 3%nat eq_refl)
    as (team_ids & Hreq & Hobj & _).
  exists team_ids. split; assumption.
Defined.

End AccessLevelWrites.

(** ** Environment variables and timings of a harvester *)

Section HarvesterEnvironment.
Import ColumnMappingSerializer HarvesterFields MonitoredPathSerializer.

(** The default of [deleted] on [HarvesterEnvVar]: a created row is not
    deleted. *)
Context (deleted_default : bool) (Hdefault : deleted_default = false).

Lemma store_values_snoc values k v rows :
  store_values deleted_default (values ++ [(k, v)]) rows
  = <[upper k := {| value := v; deleted := false |}]>
      (store_values deleted_default values rows).
Proof.
  unfold store_values. rewrite foldl_app. cbn. rewrite Hdefault.
  by destruct (_ !! upper k).
Qed.

Lemma submitted_snoc values k v :
  submitted (values ++ [(k, v)]) = <[upper k := v]> (submitted values).
Proof. unfold submitted. by rewrite foldl_app. Qed.

Lemma store_values_lookup values rows k :
  store_values deleted_default values rows !! k
  = match submitted values !! k with
    | Some v => Some {| value := v; deleted := false |}
    | None => rows !! k
    end.
Proof.
  induction values as [|[k' v'] values IH] using rev_ind; [done|].
  rewrite store_values_snoc, submitted_snoc.
  destruct (decide (upper k' = k)) as [->|Hne].
  - by rewrite !lookup_insert_eq.
  - by rewrite !lookup_insert_ne.
Qed.

Lemma input_keys_submitted values k :
  k ∈ upper <$> values.*1 <-> is_Some (submitted values !! k).
Proof.
  induction values as [|[k' v'] values IH] using rev_ind.
  - cbn. rewrite elem_of_nil. split; [done|]. intros [? [=]].
  - rewrite submitted_snoc, !fmap_app, elem_of_app, IH. cbn.
    rewrite list_elem_of_singleton.
    destruct (decide (upper k' = k)) as [->|Hne].
    + rewrite lookup_insert_eq. split; [eauto|by right].
    + rewrite lookup_insert_ne by done. split; [|by left].
      by intros [?| ->].
Qed.

Lemma flag_missing_lookup input_keys rows k :
  flag_missing input_keys rows !! k
  = (fun row => if deleted row then row
                else if bool_decide (k ∈ input_keys) then row
                else {| value := value row; deleted := true |}) <$> rows !! k.
Proof.
  unfold flag_missing. rewrite map_lookup_imap.
  by destruct (rows !! k).
Qed.

(** The table after a submission, row by row. *)
Lemma written_rows_lookup values rows k :
  flag_missing (upper <$> values.*1) (store_values deleted_default values rows) !! k
  = match submitted values !! k with
    | Some v => Some {| value := v; deleted := false |}
    | None => (fun row => {| value := value row; deleted := true |}) <$> rows !! k
    end.
Proof.
  rewrite flag_missing_lookup, store_values_lookup.
  destruct (submitted values !! k) as [v|] eqn:Hs; cbn.
  - rewrite bool_decide_eq_true_2; [done|].
    rewrite input_keys_submitted, Hs. eauto.
  - destruct (rows !! k) as [[v d]|]; [|done]. cbn.
    destruct d; [done|].
    rewrite bool_decide_eq_false_2; [done|].
    rewrite input_keys_submitted, Hs. by intros [? [=]].
Qed.

Lemma to_representation_lookup rows k :
  to_representation false rows !! k
  = row ← rows !! k; if deleted row then None else Some (value row).
Proof. unfold to_representation. by rewrite lookup_omap. Qed.

Lemma to_representation_not_deleted rows :
  to_representation false (not_deleted rows) = to_representation false rows.
Proof.
  apply map_eq; intros k. rewrite !to_representation_lookup.
  unfold not_deleted.
  destruct (rows !! k) as [row|] eqn:Hk.
  - destruct (deleted row) eqn:Hd.
    + rewrite (proj2 (map_lookup_filter_None _ _ _)); [by cbn; rewrite ?Hd|].
      right. intros row' Hk'. cbn. congruence.
    + by rewrite (map_lookup_filter_Some_2 _ _ _ _ Hk Hd); cbn; rewrite Hd.
  - rewrite (proj2 (map_lookup_filter_None _ _ _)); [done|by left].
Qed.

Lemma check_keys_ok values :
  check_keys values = Ok tt <-> Forall (fun kv => key_matches kv.1 = true) values.
Proof.
  unfold check_keys.
  destruct (List.find _ _) as [k|] eqn:Hf.
  - split; [done|]. intros Hall.
    apply find_some in Hf as [Hin Hk].
    apply list_elem_of_In, list_elem_of_fmap in Hin as ([k' v] & -> & Hin).
    rewrite Forall_forall in Hall. apply Hall in Hin. cbn in *.
    by rewrite Hin in Hk.
  - split; [|done]. intros _. rewrite Forall_forall. intros [k v] Hin.
    cbn. destruct (key_matches k) eqn:Hk; [done|].
    eapply find_none in Hf.
    + by rewrite Hk in Hf.
    + apply list_elem_of_In, list_elem_of_fmap. by exists (k, v).
Qed.

Lemma to_internal_value_run values rows :
  to_internal_value deleted_default values rows
  = match check_keys values with
    | Ok _ =>
        let rows' := flag_missing (upper <$> values.*1) (store_values deleted_default values rows) in
        (Ok (not_deleted rows'), rows')
    | Raise e => (Raise e, rows)
    end.
Proof.
  unfold to_internal_value, mbind, M_bind, lift, modify, gets.
  by destruct (check_keys values).
Qed.

Lemma submitted_lookup_nodup values k v :
  NoDup (upper <$> values.*1) -> (k, v) ∈ values ->
  submitted values !! upper k = Some v.
Proof.
  induction values as [|[k' v'] values IH] using rev_ind.
  - by rewrite elem_of_nil.
  - rewrite !fmap_app, submitted_snoc, elem_of_app, list_elem_of_singleton.
    cbn. rewrite NoDup_app. intros (Hnd & Hnotin & _) [Hin|[= -> ->]].
    + rewrite lookup_insert_ne; [by apply IH|].
      intros Heq. apply (Hnotin (upper k)).
      * apply list_elem_of_fmap. exists k. split; [done|].
        apply list_elem_of_fmap. by exists (k, v).
      * rewrite Heq. apply list_elem_of_singleton. done.
    + by rewrite lookup_insert_eq.
Qed.

(** X5.  Environment variables round trip, a created row being not
    deleted by default.  When every submitted key
    matches the pattern, [to_internal_value] succeeds, and what
    [to_representation] then shows, of the returned rows and of the whole
    table alike, is exactly the submitted dictionary with its keys in
    upper case: whatever was stored before is no longer shown.  When no
    two keys agree in upper case, every submitted item is shown under
    its upper-cased key. *)
Theorem environment_round_trip values rows :
  Forall (fun kv => key_matches kv.1 = true) values ->
  exists returned rows',
    to_internal_value deleted_default values rows = (Ok returned, rows')
    /\ to_representation false returned = submitted values
    /\ to_representation false rows' = submitted values
    /\ (NoDup (upper <$> values.*1) ->
        forall k v, (k, v) ∈ values ->
          to_representation false rows' !! upper k = Some v).
Proof.
  intros Hall. apply check_keys_ok in Hall.
  rewrite to_internal_value_run, Hall. cbn zeta.
  eexists _, _. split; [done|].
  assert (to_representation false
            (flag_missing (upper <$> values.*1) (store_values deleted_default values rows))
          = submitted values) as Hshow.
  { apply map_eq; intros k.
    rewrite to_representation_lookup, written_rows_lookup.
    destruct (submitted values !! k); cbn; [done|].
    by destruct (rows !! k). }
  split; [by rewrite to_representation_not_deleted|].
  split; [done|].
  intros Hnd k v Hin. rewrite Hshow. by apply submitted_lookup_nodup.
Qed.

(** X6.  Environment variables are never removed, only flagged.  After a
    successful submission every key that had a row still has one; a row
    whose key was not submitted keeps its value and is flagged as
    deleted; a submitted key has a row that is not deleted, also when it
    was deleted before; and the deleted keys reported for the harvester
    are exactly the keys of the table that were not submitted. *)
Theorem environment_soft_delete values rows returned rows' :
  to_internal_value deleted_default values rows = (Ok returned, rows') ->
  dom rows ⊆ dom rows'
  /\ (forall k row, rows !! k = Some row -> k ∉ upper <$> values.*1 ->
        rows' !! k = Some {| value := value row; deleted := true |})
  /\ (forall k, k ∈ upper <$> values.*1 ->
        exists v, rows' !! k = Some {| value := v; deleted := false |})
  /\ (forall k, k ∈ get_deleted_environment_variables rows'
        <-> k ∈ dom rows' /\ k ∉ upper <$> values.*1).
Proof.
  rewrite to_internal_value_run.
  destruct (check_keys values); [|by intros [=]].
  cbn zeta. intros [= _ <-].
  assert (forall k, k ∉ upper <$> values.*1 -> submitted values !! k = None) as Hnot.
  { intros k Hk. apply eq_None_not_Some. by rewrite <- input_keys_submitted. }
  split; [|split; [|split]].
  - intros k. rewrite !elem_of_dom, written_rows_lookup.
    intros [row Hrow]. rewrite Hrow. by destruct (submitted values !! k).
  - intros k row Hrow Hk. by rewrite written_rows_lookup, (Hnot k Hk), Hrow.
  - intros k [v Hv]%input_keys_submitted. exists v.
    by rewrite written_rows_lookup, Hv.
  - intros k. unfold get_deleted_environment_variables.
    rewrite !elem_of_dom. split.
    + intros [row [Hrow Hd]%map_lookup_filter_Some]. cbn in Hd.
      split; [by exists row|].
      intros [v Hv]%input_keys_submitted.
      rewrite written_rows_lookup, Hv in Hrow.
      injection Hrow as <-. done.
    + intros [[row Hrow] Hk]. exists row.
      apply map_lookup_filter_Some. split; [done|]. cbn.
      rewrite written_rows_lookup, (Hnot k Hk) in Hrow.
      destruct (rows !! k); [|done]. by injection Hrow as <-.
Qed.

(** X7.  A submission with a key that does not match the pattern writes
    nothing, also when the keys before it are valid: it raises the
    validation error that names a submitted key, and the table is as it
    was.  A submission that is accepted can be repeated: the second run
    returns the same rows and leaves the table as the first one did. *)
Theorem environment_rejected_or_repeatable values rows :
  (forall e rows', to_internal_value deleted_default values rows = (Raise e, rows') ->
     rows' = rows
     /\ exists k, k ∈ values.*1 /\ key_matches k = false
          /\ e = ValidationError ("Key " +:+ k +:+ " is not alpha_numeric"))
  /\ (forall returned rows', to_internal_value deleted_default values rows = (Ok returned, rows') ->
        to_internal_value deleted_default values rows' = (Ok returned, rows')).
Proof.
  rewrite to_internal_value_run. split.
  - intros e rows'. unfold check_keys.
    destruct (List.find _ _) as [k|] eqn:Hf; [|by intros [=]].
    intros [= <- <-]. split; [done|]. exists k.
    apply find_some in Hf as [Hin Hk].
    split; [by apply list_elem_of_In|].
    split; [by destruct (key_matches k)|done].
  - intros returned rows'.
    destruct (check_keys values) as [[]|] eqn:Hc; [|by intros [=]].
    cbn zeta. intros [= <- <-].
    rewrite to_internal_value_run, Hc. cbn zeta.
    assert (flag_missing (upper <$> values.*1)
              (store_values deleted_default values
                 (flag_missing (upper <$> values.*1) (store_values deleted_default values rows)))
            = flag_missing (upper <$> values.*1) (store_values deleted_default values rows)) as ->; [|done].
    apply map_eq; intros k. rewrite !written_rows_lookup.
    destruct (submitted values !! k); [done|].
    by destruct (rows !! k).
Qed.

(** X8.  [validate_sleep_time] never rejects a value.  It raises no
    validation error, and it returns for every value but an infinite
    float, on which [int()] raises an [OverflowError] that neither
    validator catches.  It accepts the same values as
    [validate_stable_time_s], with the same integer; for every value
    that [validate_stable_time_s] rejects with a validation error,
    [validate_sleep_time] returns normally, and what it returns as the
    validated value is the validation error object. *)
Theorem sleep_time_never_rejected `{PyBuiltins} (value : pyval) :
  is_validation_error (validate_sleep_time value) = false
  /\ ((forall negative, value <> PFloat (Infinite negative)) ->
      is_ok (validate_sleep_time value) = true)
  /\ (forall negative,
        validate_sleep_time (PFloat (Infinite negative)) = Raise OverflowError
        /\ validate_stable_time_s (PFloat (Infinite negative))
           = Raise OverflowError)
  /\ (forall z, validate_sleep_time value = Ok (inl z)
        <-> validate_stable_time_s value = Ok z)
  /\ (is_validation_error (validate_stable_time_s value) = true
      <-> validate_sleep_time value
          = Ok (inr (ValidationError "sleep_time must be an integer greater than 0")))
  /\ (forall z, validate_stable_time_s value = Ok z -> 0 < z).
Proof.
  split; [| split; [| split; [by intros negative |]]].
  - unfold validate_sleep_time.
    destruct (int_of value) as [z | |]; [destruct (0 <? z) |..]; done.
  - intros Hfinite. unfold validate_sleep_time, int_of.
    destruct value as [| b | z | [q | negative |] | s |]; cbn; try done.
    + by destruct (0 <? _).
    + by destruct (0 <? _).
    + by destruct (0 <? _).
    + by destruct (Hfinite negative).
    + destruct (py_int_of_str s); [by destruct (0 <? _) | done].
  - unfold validate_sleep_time, validate_stable_time_s.
    destruct (int_of value) as [z | |]; [destruct (0 <? z) eqn:Hz |..]; cbn.
    + apply Z.ltb_lt in Hz. repeat split; try done; try by intros [=].
      * by intros [= ->].
      * by intros [= ->].
      * by intros z' [= <-].
    + repeat split; try done; by intros [=].
    + repeat split; try done; by intros [=].
    + repeat split; try done; by intros [=].
Qed.

End HarvesterEnvironment.

Section HarvesterEnvironmentExamples.
Import ColumnMappingSerializer HarvesterFields MonitoredPathSerializer.

Lemma environment_round_trip_witness :
  exists returned rows',
    to_internal_value false [("path", "/usr/bin"); ("Mode", "fast")]
      {[ "OLD" := {| value := "1"; deleted := false |} ]} = (Ok returned, rows')
    /\ to_representation false returned
       = submitted [("path", "/usr/bin"); ("Mode", "fast")]
    /\ to_representation false rows'
       = submitted [("path", "/usr/bin"); ("Mode", "fast")]
    /\ (NoDup (upper <$> [("path", "/usr/bin"); ("Mode", "fast")].*1) ->
        forall k v, (k, v) ∈ [("path", "/usr/bin"); ("Mode", "fast")] ->
          to_representation false rows' !! upper k = Some v).
Proof.
  apply (environment_round_trip false eq_refl
           [("path", "/usr/bin"); ("Mode", "fast")]).
  repeat constructor.
Defined.

Lemma environment_soft_delete_witness :
  let rows : gmap string env_var := {[ "OLD" := {| value := "1"; deleted := false |} ]} in
  let out := to_internal_value false [("path", "/usr/bin")] rows in
  to_internal_value false [("path", "/usr/bin")] rows = (Ok (not_deleted out.2), out.2)
  /\ dom rows ⊆ dom out.2
  /\ (forall k row, rows !! k = Some row -> k ∉ upper <$> [("path", "/usr/bin")].*1 ->
        out.2 !! k = Some {| value := value row; deleted := true |})
  /\ (forall k, k ∈ upper <$> [("path", "/usr/bin")].*1 ->
        exists v, out.2 !! k = Some {| value := v; deleted := false |})
  /\ (forall k, k ∈ get_deleted_environment_variables out.2
        <-> k ∈ dom out.2 /\ k ∉ upper <$> [("path", "/usr/bin")].*1).
Proof.
  intros rows out.
  assert (to_internal_value false [("path", "/usr/bin")] rows
          = (Ok (not_deleted out.2), out.2)) as Hrun by reflexivity.
  split; [exact Hrun|].
  exact (environment_soft_delete false eq_refl _ _ _ _ Hrun).
Defined.

Lemma environment_rejected_or_repeatable_witness :
  let values := [("ok", "1"); ("bad key", "2")] in
  let rows : gmap string env_var :=
    {[ "OLD" := {| value := "1"; deleted := false |} ]} in
  rows = rows
  /\ exists k, k ∈ values.*1 /\ key_matches k = false
       /\ ValidationError "Key bad key is not alpha_numeric"
          = ValidationError ("Key " +:+ k +:+ " is not alpha_numeric").
Proof.
  cbv zeta.
  apply (proj1 (environment_rejected_or_repeatable false eq_refl
                  [("ok", "1"); ("bad key", "2")]
                  {[ "OLD" := {| value := "1"; deleted := false |} ]})).
  reflexivity.
Defined.

Lemma sleep_time_never_rejected_witness :
  @validate_sleep_time sample_builtins (PInt 0)
  = Ok (inr (ValidationError "sleep_time must be an integer greater than 0")).
Proof.
  apply (proj1 (proj2 (proj2 (proj2 (proj2
           (@sleep_time_never_rejected sample_builtins (PInt 0))))))).
  reflexivity.
Defined.

End HarvesterEnvironmentExamples.

(** ** Stored column mappings *)

Section StoredColumnMaps.
Import ColumnMappingSerializer.
Context `{PyBuiltins} (objects : list DataColumnType).

Lemma dict_set_keys {V} (k : string) (v : V) (d : list (string * V)) :
  (dict_set k v d).*1 = if bool_decide (k ∈ d.*1) then d.*1 else d.*1 ++ [k].
Proof.
  induction d as [|[k' v'] d IH]; [done|]. cbn.
  destruct (decide (k' = k)) as [->|Hne]; cbn.
  - rewrite bool_decide_eq_true_2; [done|left].
  - rewrite IH. destruct (bool_decide (k ∈ d.*1)) eqn:Hk.
    + apply bool_decide_eq_true_1 in Hk.
      rewrite bool_decide_eq_true_2; [done|by right].
    + apply bool_decide_eq_false_1 in Hk.
      rewrite bool_decide_eq_false_2; [done|].
      rewrite elem_of_cons. intros [->|?]; done.
Qed.

Lemma dict_set_notin {V} (k : string) (v : V) (d : list (string * V)) :
  k ∉ d.*1 -> dict_set k v d = d ++ [(k, v)].
Proof.
  induction d as [|[k' v'] d IH]; [done|]. cbn.
  rewrite not_elem_of_cons. intros [Hne Hnotin].
  rewrite decide_False by done. by rewrite IH.
Qed.

Lemma dict_set_elem {V} (k : string) (v : V) (d : list (string * V)) kv :
  kv ∈ dict_set k v d -> kv = (k, v) \/ kv ∈ d.
Proof.
  induction d as [|[k' v'] d IH]; cbn.
  - rewrite list_elem_of_singleton. by left.
  - destruct (decide (k' = k)) as [->|Hne]; rewrite !elem_of_cons; [tauto|].
    intros [->|Hin]; [tauto|]. destruct (IH Hin); tauto.
Qed.

Lemma dict_set_nodup {V} (k : string) (v : V) (d : list (string * V)) :
  NoDup d.*1 -> NoDup (dict_set k v d).*1.
Proof.
  intros Hnd. rewrite dict_set_keys.
  destruct (bool_decide (k ∈ d.*1)) eqn:Hk; [done|].
  apply bool_decide_eq_false_1 in Hk.
  apply NoDup_app. split; [done|]. split; [|apply NoDup_singleton].
  intros x Hx ->%list_elem_of_singleton. done.
Qed.

Lemma dict_set_set {V} (k : string) (v v' : V) (d : list (string * V)) :
  dict_set k v (dict_set k v' d) = dict_set k v d.
Proof.
  induction d as [|[k' v''] d IH]; cbn.
  - by rewrite decide_True.
  - destruct (decide (k' = k)) as [->|Hne]; cbn.
    + by rewrite decide_True.
    + rewrite decide_False by done. by rewrite IH.
Qed.

Lemma dict_set_all_cons {V} (d items : list (string * V)) k v :
  dict_set_all d ((k, v) :: items) = dict_set_all (dict_set k v d) items.
Proof. reflexivity. Qed.

Lemma dict_set_all_nodup {V} (d items : list (string * V)) :
  NoDup d.*1 -> NoDup (dict_set_all d items).*1.
Proof.
  revert d. induction items as [|[k v] items IH]; intros d Hnd; [done|].
  rewrite dict_set_all_cons. apply IH. by apply dict_set_nodup.
Qed.

Lemma dict_set_all_elem {V} (d items : list (string * V)) kv :
  kv ∈ dict_set_all d items -> kv ∈ d \/ kv ∈ items.
Proof.
  revert d. induction items as [|[k v] items IH]; intros d; [by left|].
  rewrite dict_set_all_cons. intros [Hin|Hin]%IH.
  - apply dict_set_elem in Hin as [->|Hin]; [right; left|by left].
  - right. by right.
Qed.

Lemma dict_set_all_fresh {V} (d items : list (string * V)) :
  NoDup (d.*1 ++ items.*1) -> dict_set_all d items = d ++ items.
Proof.
  revert d. induction items as [|[k v] items IH]; intros d Hnd.
  - cbn. by rewrite app_nil_r.
  - rewrite dict_set_all_cons. cbn in Hnd. rewrite dict_set_notin.
    + rewrite IH; [by rewrite <- app_assoc|].
      rewrite fmap_app. cbn. by rewrite <- app_assoc.
    + apply NoDup_app in Hnd as (_ & Hdis & _). intros Hin.
      apply (Hdis k Hin). left.
Qed.

(** What [type_fn] returns is of its type, and converts to itself. *)
Lemma type_fn_result dt x m :
  type_fn dt x = Converted m -> has_type dt m /\ type_fn dt m = Converted m.
Proof.
  unfold type_fn, has_type. destruct (decide (dt = "int")).
  - destruct x as [| b | z | [q | negative |] | s |]; cbn;
      try (by intros [=]); try (intros [= <-]; by eauto).
    destruct (py_int_of_str s); cbn; intros [= <-]; eauto.
  - destruct x as [| b | z | f | s |]; cbn;
      try (by intros [=]); try (intros [= <-]; by eauto).
    + destruct (py_float_of_int z); cbn; intros [= <-]; eauto.
    + destruct (py_float_of_str s); cbn; intros [= <-]; eauto.
Qed.

Lemma has_type_type_fn dt m : has_type dt m -> type_fn dt m = Converted m.
Proof.
  unfold type_fn, has_type. destruct (decide (dt = "int")); by intros [? ->].
Qed.

(** A successful iteration stores one entry, in the form described by
    [stored_entry]; the loop accepts that entry in place of the
    submitted one, and stores it as it is. *)
Lemma validate_item_trace st k v st1 :
  validate_item objects st (k, v) = inr st1 ->
  exists v',
    stored_entry objects v'
    /\ column_type_of objects v' = column_type_of objects v
    /\ new_value st1 = dict_set k v' (new_value st)
    /\ forall st2,
         required_columns_supplied st2 = required_columns_supplied st ->
         validate_item objects st2 (k, v')
         = inr {| required_columns_supplied := required_columns_supplied st1;
                  new_value := dict_set k v' (new_value st2) |}.
Proof.
  unfold validate_item. destruct v as [d|x]; [|by intros [=]].
  destruct (objects_get objects (d !! "column_type")) as [c|] eqn:Hc;
    [|by repeat case_match].
  cbn [mbind validation_bind].
  set (supplied := if bool_decide (pk c ∈ required_column_ids objects)
                   then _ else _).
  destruct supplied as [e|sup] eqn:Hsup; subst supplied; [by intros [=]|].
  cbn [mbind validation_bind].
  set (renamed := match d !! "new_name" with Some _ => _ | None => _ end).
  destruct renamed as [e|[]] eqn:Hname; subst renamed; [by intros [=]|].
  cbn [mbind validation_bind].
  assert (forall n, d !! "new_name" = Some n ->
            is_required c = false /\ isinstance_str n = true) as Hnew.
  { intros n Hn. rewrite Hn in Hname.
    destruct (is_required c); [done|].
    by destruct (isinstance_str n). }
  destruct (is_numeric c) eqn:Hnum.
  - destruct (type_fn (data_type c) (default (PInt 1) (d !! "multiplier")))
      as [m| |] eqn:Hm; [|by intros [=]..].
    rewrite lookup_insert_ne by done.
    destruct (type_fn (data_type c) (default (PInt 0) (d !! "addition")))
      as [a| |] eqn:Ha; [|by intros [=]..].
    intros [= <-]. cbn [required_columns_supplied new_value].
    apply type_fn_result in Hm as [Htm Hm], Ha as [Hta Ha].
    set (d' := <["addition" := a]> (<["multiplier" := m]> d)).
    assert (d' !! "column_type" = d !! "column_type") as Hct
      by (subst d'; by rewrite !lookup_insert_ne).
    assert (d' !! "new_name" = d !! "new_name") as Hnn
      by (subst d'; by rewrite !lookup_insert_ne).
    assert (d' !! "multiplier" = Some m) as Hdm
      by (subst d'; by rewrite lookup_insert_ne, lookup_insert_eq).
    assert (d' !! "addition" = Some a) as Hda
      by (subst d'; by rewrite lookup_insert_eq).
    exists (EDict d'). split; [|split; [|split]].
    + cbn. rewrite Hct, Hc, Hnum, Hnn. split; [done|]. by exists m, a.
    + cbn. by rewrite Hct.
    + apply dict_set_set.
    + intros st2 Hst2. rewrite Hct, Hc. cbn [mbind validation_bind].
      rewrite Hst2, Hsup, Hnn, Hname. cbn [mbind validation_bind].
      rewrite Hnum, Hdm. cbn [default from_option id]. rewrite Hm.
      rewrite lookup_insert_ne, Hda by done.
      cbn [default from_option id]. rewrite Ha.
      rewrite (insert_id d' "multiplier" m Hdm), (insert_id d' "addition" a Hda).
      by rewrite dict_set_set.
  - destruct (bool_decide (is_Some (d !! "multiplier"))) eqn:Hm; [by intros [=]|].
    destruct (bool_decide (is_Some (d !! "addition"))) eqn:Ha; [by intros [=]|].
    intros [= <-]. cbn [required_columns_supplied new_value].
    exists (EDict d). split; [|split; [|split]].
    + cbn. rewrite Hc, Hnum. split; [done|].
      apply bool_decide_eq_false_1 in Hm, Ha.
      split; apply eq_None_not_Some; done.
    + done.
    + done.
    + intros st2 Hst2. rewrite Hc. cbn [mbind validation_bind].
      rewrite Hst2, Hsup, Hname. cbn [mbind validation_bind].
      by rewrite Hnum, Hm, Ha.
Qed.

(** The same for the whole loop: the entries it stores, one for each
    item and in their order, pass the loop themselves. *)
Lemma validate_items_trace items st st1 :
  validate_items objects st items = inr st1 ->
  exists items',
    items'.*1 = items.*1
    /\ Forall (fun kv => stored_entry objects kv.2) items'
    /\ new_value st1 = dict_set_all (new_value st) items'
    /\ forall st2,
         required_columns_supplied st2 = required_columns_supplied st ->
         validate_items objects st2 items'
         = inr {| required_columns_supplied := required_columns_supplied st1;
                  new_value := dict_set_all (new_value st2) items' |}.
Proof.
  revert st. induction items as [|[k v] items IH]; intros st;
    cbn [validate_items].
  - intros [= <-]. exists []. repeat split; [constructor|].
    intros [sup2 nv2] Hst2. cbn in *. by subst.
  - destruct (validate_item objects st (k, v)) as [e|st'] eqn:Hitem;
      cbn [mbind validation_bind]; [by intros [=]|].
    intros Hrest.
    apply validate_item_trace in Hitem as (v' & Hstored & _ & Hnv & Hagain).
    apply IH in Hrest as (items' & Hkeys & Hall & Hnv' & Hagain').
    exists ((k, v') :: items'). split; [|split; [|split]].
    + cbn. by rewrite Hkeys.
    + by constructor.
    + by rewrite dict_set_all_cons, Hnv', Hnv.
    + intros st2 Hst2. cbn [validate_items].
      rewrite (Hagain st2 Hst2). cbn [mbind validation_bind].
      by rewrite Hagain', dict_set_all_cons.
Qed.

Lemma stored_entry_renders v :
  stored_entry objects v -> is_Some (column_type_of objects v).
Proof.
  destruct v as [d|x]; [|done]. cbn.
  by destruct (objects_get objects (d !! "column_type")).
Qed.

Lemma get_rendered_map_from_keys items out out' :
  get_rendered_map_from objects out items = Ok out' ->
  NoDup (out.*1 ++ items.*1) ->
  out'.*1 = out.*1 ++ items.*1.
Proof.
  revert out. induction items as [|[k v] items IH]; intros out;
    cbn [get_rendered_map_from].
  - intros [= <-] _. by rewrite app_nil_r.
  - destruct (render_item objects v) as [r|e]; cbn [mbind result_bind];
      [|by intros [=]].
    intros Hrest Hnd. cbn in Hnd.
    assert (k ∉ out.*1) as Hk.
    { apply NoDup_app in Hnd as (_ & Hdis & _). intros Hin.
      apply (Hdis k Hin). left. }
    rewrite dict_set_notin in Hrest by done.
    rewrite (IH _ Hrest); rewrite fmap_app; cbn; by rewrite <- app_assoc.
Qed.

(** X9.  What [validate_map] returns is well formed: no column appears
    twice; every entry is a dictionary whose column type exists; a
    [new_name] is a string and stands only on a column type that is not
    required; an entry of a numeric column type carries a multiplier and
    an addition of that type, and an entry of any other column type
    carries neither.  The columns are those submitted, in their order. *)
Theorem validated_map_well_formed (value : map_value) m :
  validate_map objects value = Ok m ->
  NoDup m.*1
  /\ (forall k v, (k, v) ∈ m -> stored_entry objects v)
  /\ (forall items, value = MDict items -> NoDup items.*1 -> m.*1 = items.*1).
Proof.
  unfold validate_map, validate_map_checked.
  destruct value as [items|x]; [|by intros [=]].
  destruct (validate_items objects initial_state items) as [e|st] eqn:Hrun;
    cbn [mbind validation_bind]; [by intros [=]|].
  intros [= <-].
  apply validate_items_trace in Hrun as (items' & Hkeys & Hall & Hnv & _).
  rewrite Hnv. cbn [initial_state new_value]. split; [|split].
  - apply dict_set_all_nodup. constructor.
  - intros k v [Hin|Hin]%dict_set_all_elem; [by apply elem_of_nil in Hin|].
    rewrite Forall_forall in Hall. apply (Hall _ Hin).
  - intros ? [= <-] Hnd. rewrite dict_set_all_fresh; [done|].
    cbn. by rewrite Hkeys.
Qed.

(** X10.  A map that passed [validate_map] can always be rendered:
    [get_rendered_map] raises nothing on it, it renders the same columns
    in the same order, and for an entry of a numeric column type the
    rendered multiplier and addition are the stored ones. *)
Theorem validated_map_renders (value : map_value) m :
  validate_map objects value = Ok m ->
  exists out,
    get_rendered_map objects m = Ok out
    /\ out.*1 = m.*1
    /\ forall k d c,
         (k, EDict d) ∈ m ->
         objects_get objects (d !! "column_type") = Some c ->
         is_numeric c = true ->
         exists r mult add,
           dict_get k out = Some r
           /\ d !! "multiplier" = Some mult /\ r !! "multiplier" = Some mult
           /\ d !! "addition" = Some add /\ r !! "addition" = Some add.
Proof.
  intros Hvalid.
  assert (NoDup m.*1 /\ forall k v, (k, v) ∈ m -> stored_entry objects v)
    as [Hnd Hstored].
  { revert Hvalid. unfold validate_map, validate_map_checked.
    destruct value as [items|x]; [|by intros [=]].
    destruct (validate_items objects initial_state items) as [e|st] eqn:Hrun;
      cbn [mbind validation_bind]; [by intros [=]|].
    intros [= <-].
    apply validate_items_trace in Hrun as (items' & Hkeys & Hall & Hnv & _).
    rewrite Hnv. cbn [initial_state new_value]. split.
    - apply dict_set_all_nodup. constructor.
    - intros k v [Hin|Hin]%dict_set_all_elem; [by apply elem_of_nil in Hin|].
      rewrite Forall_forall in Hall. apply (Hall _ Hin). }
  destruct (get_rendered_map_from_total objects m []) as [out Hout].
  { intros [k v] Hin. apply stored_entry_renders. by eapply Hstored. }
  exists out. split; [done|]. split.
  - by apply (get_rendered_map_from_keys m [] out Hout).
  - intros k d c Hin Hc Hnum.
    destruct (get_rendered_map_from_lookup objects _ _ _ _ _ Hout Hnd Hin)
      as (r & Hr & Hget).
    destruct (render_item_numeric objects d c Hc Hnum) as (r' & Hr' & Hm & Ha).
    rewrite Hr in Hr'. injection Hr' as <-.
    pose proof (Hstored _ _ Hin) as Hs. cbn in Hs. rewrite Hc, Hnum in Hs.
    destruct Hs as (_ & mult & add & Hdm & Hda & _).
    exists r, mult, add. rewrite Hm, Ha, Hdm, Hda. done.
Qed.

(** X11.  Validation is idempotent: a map that [validate_map] returned
    for a dictionary passes [validate_map] again, and comes back
    unchanged. *)
Theorem validate_map_idempotent items m :
  NoDup items.*1 ->
  validate_map objects (MDict items) = Ok m ->
  validate_map objects (MDict m) = Ok m.
Proof.
  unfold validate_map, validate_map_checked. intros Hnd.
  destruct (validate_items objects initial_state items) as [e|st] eqn:Hrun;
    cbn [mbind validation_bind]; [by intros [=]|].
  intros [= <-].
  apply validate_items_trace in Hrun as (items' & Hkeys & _ & Hnv & Hagain).
  rewrite Hnv. cbn [initial_state new_value].
  rewrite dict_set_all_fresh by (cbn; by rewrite Hkeys).
  cbn [app]. rewrite (Hagain initial_state eq_refl).
  cbn [mbind validation_bind initial_state new_value].
  by rewrite dict_set_all_fresh by (cbn; by rewrite Hkeys).
Qed.

End StoredColumnMaps.

Section StoredColumnMapExamples.
Import ColumnMappingSerializer.

Lemma sample_map_validated :
  @validate_map sample_builtins
    [mk_column_type "t" "Temperature_K" "float" false]
    (MDict [("T", EDict {[ "column_type" := PStr "t" ]})])
  = Ok [("T", EDict (<["addition" := PFloat (Finite (QArith_base.inject_Z 0))]>
                       (<["multiplier" := PFloat (Finite (QArith_base.inject_Z 1))]>
                          {[ "column_type" := PStr "t" ]})))].
Proof. vm_compute. reflexivity. Qed.

Lemma validated_map_well_formed_witness :
  let objects := [mk_column_type "t" "Temperature_K" "float" false] in
  let value := MDict [("T", EDict {[ "column_type" := PStr "t" ]})] in
  let m := [("T", EDict (<["addition" := PFloat (Finite (QArith_base.inject_Z 0))]>
                           (<["multiplier" := PFloat (Finite (QArith_base.inject_Z 1))]>
                              {[ "column_type" := PStr "t" ]})))] in
  NoDup m.*1
  /\ (forall k v, (k, v) ∈ m -> stored_entry objects v)
  /\ (forall items, value = MDict items -> NoDup items.*1 -> m.*1 = items.*1).
Proof.
  cbv zeta.
  exact (@validated_map_well_formed sample_builtins _ _ _ sample_map_validated).
Defined.

Lemma validated_map_renders_witness :
  let objects := [mk_column_type "t" "Temperature_K" "float" false] in
  let m := [("T", EDict (<["addition" := PFloat (Finite (QArith_base.inject_Z 0))]>
                           (<["multiplier" := PFloat (Finite (QArith_base.inject_Z 1))]>
                              {[ "column_type" := PStr "t" ]})))] in
  exists out,
    get_rendered_map objects m = Ok out
    /\ out.*1 = m.*1
    /\ forall k d c,
         (k, EDict d) ∈ m ->
         objects_get objects (d !! "column_type") = Some c ->
         is_numeric c = true ->
         exists r mult add,
           dict_get k out = Some r
           /\ d !! "multiplier" = Some mult /\ r !! "multiplier" = Some mult
           /\ d !! "addition" = Some add /\ r !! "addition" = Some add.
Proof.
  cbv zeta.
  exact (@validated_map_renders sample_builtins _ _ _ sample_map_validated).
Defined.

Lemma validate_map_idempotent_witness :
  let objects := [mk_column_type "t" "Temperature_K" "float" false] in
  let m := [("T", EDict (<["addition" := PFloat (Finite (QArith_base.inject_Z 0))]>
                           (<["multiplier" := PFloat (Finite (QArith_base.inject_Z 1))]>
                              {[ "column_type" := PStr "t" ]})))] in
  @validate_map sample_builtins objects (MDict m) = Ok m.
Proof.
  cbv zeta.
  refine (@validate_map_idempotent sample_builtins _
            [("T", EDict {[ "column_type" := PStr "t" ]})] _ _
            sample_map_validated).
  apply NoDup_singleton.
Defined.

End StoredColumnMapExamples.

(** ** Outcomes of an upload *)

Section UploadOutcomes.
Import FileState ObservedFileCreateSerializer.

Ltac step_monad :=
  unfold mbind, M_bind, mret, M_ret, lift, gets, modify, raise,
    assign_observed_file, assign_mapping, set_attribute, save in *.

Lemma enumerate_lookup {A} (xs : list A) (i : nat) :
  enumerate xs !! i = (fun x => (i, x)) <$> xs !! i.
Proof.
  unfold enumerate. rewrite lookup_zip_with.
  destruct (xs !! i) as [x|] eqn:Hx; cbn.
  - rewrite lookup_seq_lt by (by eapply lookup_lt_Some). done.
  - by destruct (seq 0 (length xs) !! i).
Qed.

Lemma elem_of_enumerate {A} (xs : list A) (i : nat) (x : A) :
  (i, x) ∈ enumerate xs <-> xs !! i = Some x.
Proof.
  rewrite list_elem_of_lookup. split.
  - intros [j Hj]. rewrite enumerate_lookup in Hj.
    destruct (xs !! j) eqn:Hx; cbn in Hj; [|done]. by injection Hj as <- <-.
  - intros Hx. exists i. by rewrite enumerate_lookup, Hx.
Qed.

Lemma for_each_app {S A} (xs ys : list A) (body : A -> M S unit) (s : S) :
  for_each (xs ++ ys) body s
  = match for_each xs body s with
    | (Ok _, s') => for_each ys body s'
    | (Raise e, s') => (Raise e, s')
    end.
Proof.
  revert s. induction xs as [|x xs IH]; intros s; cbn [for_each app].
  - done.
  - unfold mbind, M_bind. destruct (body x s) as [[[]|e] s']; [apply IH|done].
Qed.

Lemma with_db_add_partitions_nil fr : with_db (add_partitions []) fr = fr.
Proof.
  destruct fr as [[rows parts temps] o m]. unfold with_db, add_partitions. cbn.
  by rewrite app_nil_r.
Qed.

Lemma with_db_add_partitions_cons row rows fr :
  with_db (add_partitions rows) (with_db (add_partition row) fr)
  = with_db (add_partitions (row :: rows)) fr.
Proof.
  unfold with_db, add_partitions, add_partition. cbn.
  by rewrite <- app_assoc.
Qed.

Lemma create_partition_run env o fr file :
  observed_file fr = Some o ->
  create_partition env file fr
  = match partition_of (pk o) file with
    | Some row =>
        match partition_create env file.1 with
        | Ok _ => (Ok tt, with_db (add_partition row) fr)
        | Raise e => (Raise e, fr)
        end
    | None => (Ok tt, fr)
    end.
Proof.
  intros Ho. destruct file as [i [name size]].
  unfold create_partition, partition_of. cbn.
  destruct (endswith name ".parquet"); [|done].
  step_monad. destruct (partition_create env i) as [[]|e]; [|done].
  by rewrite Ho.
Qed.

Lemma for_each_create_partition_ok env o files fr :
  observed_file fr = Some o ->
  (forall file, file ∈ files -> is_Some (partition_of (pk o) file) ->
     partition_create env file.1 = Ok tt) ->
  for_each files (create_partition env) fr
  = (Ok tt, with_db (add_partitions (omap (partition_of (pk o)) files)) fr).
Proof.
  revert fr. induction files as [|file files IH]; intros fr Ho Hok;
    cbn [for_each omap list_omap].
  - by rewrite with_db_add_partitions_nil.
  - unfold mbind at 1, M_bind at 1. rewrite (create_partition_run env o) by done.
    destruct (partition_of (pk o) file) as [row|] eqn:Hrow.
    + rewrite (Hok file) by (by rewrite ?Hrow; eauto; left).
      rewrite IH; [by rewrite with_db_add_partitions_cons|done|].
      intros f Hf. apply Hok. by right.
    + apply IH; [done|]. intros f Hf. apply Hok. by right.
Qed.

Lemma for_each_create_partition_fail env o done file rest e fr :
  observed_file fr = Some o ->
  (forall f, f ∈ done -> is_Some (partition_of (pk o) f) ->
     partition_create env f.1 = Ok tt) ->
  is_Some (partition_of (pk o) file) ->
  partition_create env file.1 = Raise e ->
  for_each (done ++ file :: rest) (create_partition env) fr
  = (Raise e, with_db (add_partitions (omap (partition_of (pk o)) done)) fr).
Proof.
  intros Ho Hok [row Hrow] Hfail.
  rewrite for_each_app, (for_each_create_partition_ok env o) by done.
  cbn [for_each]. unfold mbind, M_bind.
  rewrite (create_partition_run env o) by done.
  by rewrite Hrow, Hfail.
Qed.

Lemma apply_mapping_ok env mapping_id o fr applicable files image :
  observed_file fr = Some o ->
  applicable_mappings env = Ok applicable ->
  mapping_id ∈ applicable ->
  save_mapping env = Ok tt ->
  rendered_map env = Ok tt ->
  process_data env = Ok tt ->
  data_files env = Ok files ->
  (forall i name size, files !! i = Some (name, size) ->
     endswith name ".parquet" = true -> partition_create env i = Ok tt) ->
  open_png env = Ok image ->
  apply_mapping env mapping_id fr
  = (Ok tt,
     {| db := add_partitions (omap (partition_of (pk o)) (enumerate files))
                (store_row (set_mapping (Some mapping_id) o) (db fr));
        observed_file :=
          Some (set_state IMPORTED
                  (set_png (Some image) (set_mapping (Some mapping_id) o)));
        mapping_var := mapping_var fr |}).
Proof.
  intros Ho Happ Hin Hsave Hr Hp Hd Hparts Hpng.
  unfold apply_mapping. step_monad.
  rewrite Happ, bool_decide_eq_false_2 by (intros Hn; by apply Hn).
  rewrite Ho. cbn [observed_file]. rewrite Hsave, Hr, Hp, Hd.
  rewrite (for_each_create_partition_ok env (set_mapping (Some mapping_id) o)).
  - cbn. by rewrite Hpng.
  - done.
  - intros [i [name size]] Hfile%elem_of_enumerate [row Hrow].
    cbn in Hrow. cbn [fst]. apply (Hparts i name size Hfile).
    by destruct (endswith name ".parquet").
Qed.

Lemma apply_mapping_partition_fails env mapping_id o fr applicable files
    j name size e :
  observed_file fr = Some o ->
  applicable_mappings env = Ok applicable ->
  mapping_id ∈ applicable ->
  save_mapping env = Ok tt ->
  rendered_map env = Ok tt ->
  process_data env = Ok tt ->
  data_files env = Ok files ->
  files !! j = Some (name, size) ->
  endswith name ".parquet" = true ->
  partition_create env j = Raise e ->
  (forall i name' size', (i < j)%nat -> files !! i = Some (name', size') ->
     endswith name' ".parquet" = true -> partition_create env i = Ok tt) ->
  apply_mapping env mapping_id fr
  = (Raise e,
     {| db := add_partitions
                (omap (partition_of (pk o)) (take j (enumerate files)))
                (store_row (set_mapping (Some mapping_id) o) (db fr));
        observed_file := Some (set_mapping (Some mapping_id) o);
        mapping_var := mapping_var fr |}).
Proof.
  intros Ho Happ Hin Hsave Hr Hp Hd Hj Hname Hfail Hbefore.
  unfold apply_mapping. step_monad.
  rewrite Happ, bool_decide_eq_false_2 by (intros Hn; by apply Hn).
  rewrite Ho. cbn [observed_file]. rewrite Hsave, Hr, Hp, Hd.
  assert (enumerate files !! j = Some (j, (name, size))) as Hjth
    by (by rewrite enumerate_lookup, Hj).
  rewrite <- (take_drop_middle _ _ _ Hjth) at 1.
  rewrite (for_each_create_partition_fail env
             (set_mapping (Some mapping_id) o) _ _ _ e); try done.
  - intros [i [name' size']] [k [Hk Hlt]]%elem_of_take [row Hrow].
    rewrite enumerate_lookup in Hk.
    destruct (files !! k) as [f|] eqn:Hfk; [|done]. injection Hk as <- ->.
    cbn in Hrow. cbn [fst]. apply (Hbefore k name' size' Hlt Hfk).
    by destruct (endswith name' ".parquet").
  - cbn. rewrite Hname. eauto.
Qed.

(** The file is resolved: the target of a re-upload whose summary
    agrees, or the row created for a first upload. *)
Lemma resolve_file_ok env target_file request_mapping w new_summary :
  match target_file with
  | Some tf => to_json new_summary = Ok (summary tf)
  | None => is_ok (to_dict new_summary) = true /\ objects_create env = Ok tt
  end ->
  exists o1 w1,
    resolve_file env target_file new_summary
      {| db := w; observed_file := None; mapping_var := request_mapping |}
    = (Ok tt, {| db := w1; observed_file := Some o1;
                 mapping_var := chosen_mapping target_file request_mapping |})
    /\ pk o1 = bound_pk target_file w
    /\ parquet_partitions w1 = parquet_partitions w
    /\ temp_files w1 = temp_files w
    /\ (forall x, <[pk o1 := x]> (observed_files w1)
                   = <[pk o1 := x]> (observed_files w))
    /\ state o1 = bound_state env target_file
    /\ match target_file with
       | Some tf => o1 = tf
       | None => mapping o1 = None /\ (pk o1 ∉ dom (observed_files w))
                 /\ Ok (summary o1) = to_dict new_summary
       end.
Proof.
  unfold resolve_file, chosen_mapping, bound_pk, bound_state.
  destruct target_file as [tf|].
  - intros Hj. step_monad. rewrite Hj. rewrite decide_False by (intros Hn; by apply Hn).
    exists tf, w. cbn. by destruct request_mapping.
  - intros [Hd Hc]. step_monad.
    destruct (to_dict new_summary) as [d|]; [|done]. rewrite Hc. cbn.
    eexists _, _. split; [by destruct request_mapping|]. cbn.
    repeat split; try done.
    + intros x. by rewrite insert_insert_eq.
    + apply is_fresh.
Qed.

(** X12.  A mapped upload that meets no error imports the file.  When
    the processor, the model layer (both saves of the file among its
    calls) and the storage all succeed, the summary agrees on a
    re-upload, and the mapping at hand (the one of the request, or else
    the one stored on the target) is applicable,
    [create] returns the file in state IMPORTED with that mapping and
    the preview image; the row of the file holds the returned object;
    one partition row is appended for each listed file whose name ends
    in [.parquet], numbered by the position of the file in the listing,
    and none for any other listed file; the temporary copy is gone. *)
Theorem mapped_upload_is_imported env temp_name target_file request_mapping w
    new_summary mapping_id applicable files image :
  write_chunks env = Ok tt ->
  init_processor env = Ok tt ->
  summarise_columns env = Ok new_summary ->
  match target_file with
  | Some tf => to_json new_summary = Ok (summary tf)
  | None => is_ok (to_dict new_summary) = true /\ objects_create env = Ok tt
  end ->
  chosen_mapping target_file request_mapping = Some mapping_id ->
  applicable_mappings env = Ok applicable ->
  mapping_id ∈ applicable ->
  save_mapping env = Ok tt ->
  rendered_map env = Ok tt ->
  process_data env = Ok tt ->
  data_files env = Ok files ->
  (forall i name size, files !! i = Some (name, size) ->
     endswith name ".parquet" = true -> partition_create env i = Ok tt) ->
  open_png env = Ok image ->
  save_result env = Ok tt ->
  exists o w',
    create env temp_name target_file request_mapping w = (Ok o, w')
    /\ pk o = bound_pk target_file w
    /\ state o = IMPORTED /\ mapping o = Some mapping_id /\ png o = Some image
    /\ observed_files w' = <[pk o := o]> (observed_files w)
    /\ parquet_partitions w'
       = parquet_partitions w ++ omap (partition_of (pk o)) (enumerate files)
    /\ (forall row, row ∈ omap (partition_of (pk o)) (enumerate files) <->
          exists i name size,
            files !! i = Some (name, size) /\ endswith name ".parquet" = true
            /\ row = {| observed_file_id := pk o; partition_number := i;
                        bytes_required := size; parquet_file := name |})
    /\ (temp_name ∉ temp_files w').
Proof.
  intros Hw Hi Hs Hres Hm Happ Hin Hsm Hr Hp Hd Hparts Hpng Hsr.
  destruct (resolve_file_ok env target_file request_mapping
              (add_temp_file temp_name w) new_summary Hres)
    as (o1 & w1 & Hrun & Hpk & Hpart1 & Htemp1 & Hrows1 & _).
  assert (bound_pk target_file (add_temp_file temp_name w)
          = bound_pk target_file w) as Hb by (by destruct target_file).
  rewrite Hb in Hpk. cbn in Hpart1, Htemp1, Hrows1.
  unfold create, try_finally, try_except, try_body. rewrite Hw.
  unfold mbind at 1 2 3, M_bind at 1 2 3, lift at 1 2. rewrite Hi, Hs, Hrun.
  unfold mbind at 1, M_bind at 1, gets at 1. cbn [mapping_var]. rewrite Hm.
  unfold mbind at 1, M_bind at 1.
  rewrite (apply_mapping_ok env mapping_id o1 _ applicable files image)
    by done.
  step_monad. cbn. rewrite Hsr. cbn.
  eexists _, _. split; [reflexivity|]. cbn.
  split; [done|]. split; [done|]. split; [done|]. split; [done|].
  split; [by rewrite insert_insert_eq, Hrows1|].
  split; [by rewrite Hpart1|]. split.
  - intros row. rewrite list_elem_of_omap. split.
    + intros ([i [name size]] & Hfile%elem_of_enumerate & Hrow).
      cbn in Hrow. destruct (endswith name ".parquet") eqn:Hname; [|done].
      injection Hrow as <-. by exists i, name, size.
    + intros (i & name & size & Hfile & Hname & ->).
      exists (i, (name, size)). split; [by apply elem_of_enumerate|].
      cbn. by rewrite Hname.
  - rewrite Htemp1. apply not_elem_of_difference. right.
    by apply elem_of_singleton.
Qed.

(** A run whose creation of the partition row at position [j] raises,
    after the mapping was saved and the earlier rows were created. *)
Lemma partition_failure_run env temp_name target_file
    request_mapping w new_summary mapping_id applicable files j name size e :
  write_chunks env = Ok tt ->
  init_processor env = Ok tt ->
  summarise_columns env = Ok new_summary ->
  match target_file with
  | Some tf => to_json new_summary = Ok (summary tf)
  | None => is_ok (to_dict new_summary) = true /\ objects_create env = Ok tt
  end ->
  chosen_mapping target_file request_mapping = Some mapping_id ->
  applicable_mappings env = Ok applicable ->
  mapping_id ∈ applicable ->
  save_mapping env = Ok tt ->
  rendered_map env = Ok tt ->
  process_data env = Ok tt ->
  data_files env = Ok files ->
  files !! j = Some (name, size) ->
  endswith name ".parquet" = true ->
  partition_create env j = Raise e ->
  (forall i name' size', (i < j)%nat -> files !! i = Some (name', size') ->
     endswith name' ".parquet" = true -> partition_create env i = Ok tt) ->
  let p := bound_pk target_file w in
  exists w',
    create env temp_name target_file request_mapping w
    = (Raise match save_failed env with
             | Ok _ => ValidationError ("Error processing file: " +:+ str_exn e)
             | Raise e' => e'
             end, w')
    /\ parquet_partitions w'
       = parquet_partitions w
         ++ omap (partition_of p) (take j (enumerate files))
    /\ (exists o, observed_files w' !! p = Some o
          /\ mapping o = Some mapping_id
          /\ state o = match save_failed env with
                       | Ok _ => IMPORT_FAILED
                       | Raise _ => bound_state env target_file
                       end)
    /\ (temp_name ∉ temp_files w').
Proof.
  intros Hw Hi Hs Hres Hm Happ Hin Hsm Hr Hp Hd Hj Hname Hfail Hbefore p.
  destruct (resolve_file_ok env target_file request_mapping
              (add_temp_file temp_name w) new_summary Hres)
    as (o1 & w1 & Hrun & Hpk & Hpart1 & Htemp1 & Hrows1 & Hstate1 & _).
  assert (bound_pk target_file (add_temp_file temp_name w)
          = bound_pk target_file w) as Hb by (by destruct target_file).
  rewrite Hb in Hpk. fold p in Hpk. cbn in Hpart1, Htemp1, Hrows1.
  unfold create, try_finally, try_except, try_body. rewrite Hw.
  unfold mbind at 1 2 3, M_bind at 1 2 3, lift at 1 2. rewrite Hi, Hs, Hrun.
  unfold mbind at 1, M_bind at 1, gets at 1. cbn [mapping_var]. rewrite Hm.
  unfold mbind at 1, M_bind at 1.
  rewrite (apply_mapping_partition_fails env mapping_id o1 _ applicable files
             j name size e) by done.
  unfold handler. step_monad. cbn.
  destruct (save_failed env) as [[] | e']; cbn;
    (eexists; split; [reflexivity |]; cbn;
     split; [by rewrite Hpart1, Hpk |]; split;
     [eexists; rewrite <- Hpk, lookup_insert_eq; by split
     | rewrite Htemp1; apply not_elem_of_difference; right;
       by apply elem_of_singleton]).
Qed.

(** X13.  Partition rows written before a failure stay.  When the
    creation of the partition row for the listed file at position [j]
    raises, after the mapping was saved on the file and the rows for the
    earlier files were created, the handler sets the file to
    IMPORT_FAILED and saves it.  When that save returns, [create] raises
    a validation error that carries the message of the exception of the
    partition, and the file is saved in state IMPORT_FAILED with the
    mapping set; when that save raises, its exception leaves [create],
    and the row of the file holds the mapping and the state the object
    had when it was bound.  Either way the partition rows created for
    the files before position [j] are still in the table: nothing is
    rolled back. *)
Theorem partition_failure_keeps_earlier_rows env temp_name target_file
    request_mapping w new_summary mapping_id applicable files j name size e :
  write_chunks env = Ok tt ->
  init_processor env = Ok tt ->
  summarise_columns env = Ok new_summary ->
  match target_file with
  | Some tf => to_json new_summary = Ok (summary tf)
  | None => is_ok (to_dict new_summary) = true /\ objects_create env = Ok tt
  end ->
  chosen_mapping target_file request_mapping = Some mapping_id ->
  applicable_mappings env = Ok applicable ->
  mapping_id ∈ applicable ->
  save_mapping env = Ok tt ->
  rendered_map env = Ok tt ->
  process_data env = Ok tt ->
  data_files env = Ok files ->
  files !! j = Some (name, size) ->
  endswith name ".parquet" = true ->
  partition_create env j = Raise e ->
  (forall i name' size', (i < j)%nat -> files !! i = Some (name', size') ->
     endswith name' ".parquet" = true -> partition_create env i = Ok tt) ->
  let p := bound_pk target_file w in
  exists w',
    create env temp_name target_file request_mapping w
    = (Raise match save_failed env with
             | Ok _ => ValidationError ("Error processing file: " +:+ str_exn e)
             | Raise e' => e'
             end, w')
    /\ parquet_partitions w'
       = parquet_partitions w
         ++ omap (partition_of p) (take j (enumerate files))
    /\ (exists o, observed_files w' !! p = Some o
          /\ mapping o = Some mapping_id
          /\ state o = match save_failed env with
                       | Ok _ => IMPORT_FAILED
                       | Raise _ => bound_state env target_file
                       end)
    /\ (temp_name ∉ temp_files w').
Proof.
  intros. by eapply partition_failure_run.
Qed.

(** X14.  A first upload without a mapping creates one row and nothing
    else: when the creation of the row and the save of the file return,
    the returned file is new, awaits its map assignment, holds the
    summary of the upload and has no mapping; every row that existed is
    as it was; no partition row is written, whatever the later stages of
    the processor would have done. *)
Theorem first_upload_awaits_mapping env temp_name w new_summary :
  write_chunks env = Ok tt ->
  init_processor env = Ok tt ->
  summarise_columns env = Ok new_summary ->
  is_ok (to_dict new_summary) = true ->
  objects_create env = Ok tt ->
  save_result env = Ok tt ->
  exists o w',
    create env temp_name None None w = (Ok o, w')
    /\ (pk o ∉ dom (observed_files w))
    /\ state o = AWAITING_MAP_ASSIGNMENT
    /\ Ok (summary o) = to_dict new_summary
    /\ mapping o = None
    /\ observed_files w' = <[pk o := o]> (observed_files w)
    /\ parquet_partitions w' = parquet_partitions w
    /\ (temp_name ∉ temp_files w').
Proof.
  intros Hw Hi Hs Hd Hc Hsr.
  unfold create, try_finally, try_except, try_body, resolve_file. rewrite Hw.
  step_monad. rewrite Hi, Hs.
  destruct (to_dict new_summary) as [d|]; [|done]. rewrite Hc. cbn.
  rewrite Hsr. cbn.
  eexists _, _. split; [reflexivity|]. cbn.
  split; [apply is_fresh|]. repeat split; try done.
  - by rewrite insert_insert_eq.
  - apply not_elem_of_difference. right. by apply elem_of_singleton.
Qed.

Lemma preserves_lift {S A} (I : S -> Prop) (r : result A) :
  preserves I (lift r).
Proof. by intros s r' s' Hs [= <- <-]. Qed.

Lemma preserves_gets {S A} (I : S -> Prop) (f : S -> A) :
  preserves I (gets f).
Proof. by intros s r' s' Hs [= <- <-]. Qed.

Lemma preserves_ret {S A} (I : S -> Prop) (a : A) :
  preserves I (mret a : M S A).
Proof. by intros s r' s' Hs [= <- <-]. Qed.

Lemma preserves_raise {S A} (I : S -> Prop) (e : exn) :
  preserves I (raise e : M S A).
Proof. by intros s r' s' Hs [= <- <-]. Qed.

Lemma preserves_bind {S A B} (I : S -> Prop) (m : M S A) (f : A -> M S B) :
  preserves I m -> (forall a, preserves I (f a)) -> preserves I (m ≫= f).
Proof.
  intros Hm Hf s r s' Hs. unfold mbind, M_bind.
  destruct (m s) as [[a|e] s1] eqn:Hrun; pose proof (Hm _ _ _ Hs Hrun) as Hs1.
  - apply (Hf a _ _ _ Hs1).
  - by intros [= <- <-].
Qed.

Lemma preserves_for_each {S A} (I : S -> Prop) (xs : list A)
    (body : A -> M S unit) :
  (forall x, preserves I (body x)) -> preserves I (for_each xs body).
Proof.
  intros Hbody. induction xs as [|x xs IH]; cbn [for_each].
  - apply preserves_ret.
  - apply preserves_bind; [apply Hbody|]. by intros _.
Qed.

Lemma preserves_try_except {S A} (I : S -> Prop) (body : M S A)
    (h : exn -> M S A) :
  preserves I body -> (forall e, preserves I (h e)) ->
  preserves I (try_except body h).
Proof.
  intros Hb Hh s r s' Hs. unfold try_except.
  destruct (body s) as [[a|e] s1] eqn:Hrun; pose proof (Hb _ _ _ Hs Hrun) as Hs1.
  - by intros [= <- <-].
  - apply (Hh e _ _ _ Hs1).
Qed.

Lemma touches_only_refl p w : touches_only p w w.
Proof.
  split; [done|]. exists []. by rewrite app_nil_r.
Qed.

Lemma touches_only_store_row p w0 w f :
  touches_only p w0 w -> pk f = p -> touches_only p w0 (store_row f w).
Proof.
  intros [Hrows Hparts] <-. split; [|done].
  intros q Hq. cbn. rewrite lookup_insert_ne by done. by apply Hrows.
Qed.

Lemma touches_only_add_partition p w0 w row :
  touches_only p w0 w -> observed_file_id row = p ->
  touches_only p w0 (add_partition row w).
Proof.
  intros [Hrows (new & Hnew & Hall)] Hrow. split; [done|].
  exists (new ++ [row]). cbn. rewrite Hnew, <- app_assoc. split; [done|].
  apply Forall_app. split; [done|]. by constructor.
Qed.

Lemma set_attribute_frame p w0 (g : ObservedFile -> ObservedFile) :
  (forall o, pk (g o) = pk o) ->
  preserves (frame_touches_only p w0) (set_attribute g).
Proof.
  intros Hg fr r fr' [Hw Ho]. unfold set_attribute.
  destruct (observed_file fr) as [o|] eqn:Hfile; intros [= <- <-].
  - split; [done|]. cbn. intros ? [= <-]. rewrite Hg. by apply Ho.
  - split; [done|]. by rewrite Hfile.
Qed.

Lemma save_frame p w0 outcome :
  preserves (frame_touches_only p w0) (save outcome).
Proof.
  intros fr r fr' [Hw Ho]. unfold save.
  destruct (observed_file fr) as [o|] eqn:Hfile;
    [destruct outcome as [[] | e] |]; intros [= <- <-].
  - split; [|cbn; rewrite Hfile; intros ? [= <-]; by apply Ho].
    cbn. apply touches_only_store_row; [done|by apply Ho].
  - split; [done|]. rewrite Hfile. intros ? [= <-]. by apply Ho.
  - split; [done|]. by rewrite Hfile.
Qed.

Lemma create_partition_frame env p w0 file :
  preserves (frame_touches_only p w0) (create_partition env file).
Proof.
  intros fr r fr' [Hw Ho]. destruct file as [i [name size]].
  unfold create_partition. destruct (endswith name ".parquet");
    [|by intros [= <- <-]].
  step_monad. destruct (partition_create env i) as [[]|e];
    [|by intros [= <- <-]].
  destruct (observed_file fr) as [o|] eqn:Hfile; intros [= <- <-].
  - split; [|cbn; rewrite Hfile; intros ? [= <-]; by apply Ho].
    cbn. apply touches_only_add_partition; [done|]. cbn. by apply Ho.
  - split; [done|]. by rewrite Hfile.
Qed.

Lemma apply_mapping_frame env p w0 mapping_id :
  preserves (frame_touches_only p w0) (apply_mapping env mapping_id).
Proof.
  unfold apply_mapping.
  repeat (apply preserves_bind; [|intros ?]);
    try apply preserves_lift; try apply save_frame;
    try (by apply set_attribute_frame).
  - case_bool_decide; [apply preserves_raise|apply preserves_ret].
  - apply preserves_for_each. intros file. apply create_partition_frame.
Qed.

Lemma handler_frame env p w0 e :
  preserves (frame_touches_only p w0) (handler env e).
Proof.
  unfold handler.
  apply preserves_bind; [apply preserves_gets|intros o].
  apply preserves_bind; [|intros _; apply preserves_raise].
  destruct o; [|apply preserves_ret].
  apply preserves_bind; [by apply set_attribute_frame|intros _; apply save_frame].
Qed.

Lemma resolve_file_frame env target_file new_summary w0 m r fr :
  resolve_file env target_file new_summary
    {| db := w0; observed_file := None; mapping_var := m |} = (r, fr) ->
  frame_touches_only (bound_pk target_file w0) w0 fr.
Proof.
  unfold resolve_file, bound_pk. destruct target_file as [tf|]; step_monad.
  - destruct (to_json new_summary) as [loaded|e].
    + destruct (decide (summary tf <> loaded)); cbn.
      * intros [= <- <-]. split; [apply touches_only_refl|].
        cbn. by intros ? [= <-].
      * destruct m; intros [= <- <-]; (split; [apply touches_only_refl|]);
          cbn; by intros ? [= <-].
    + intros [= <- <-]. split; [apply touches_only_refl|].
      cbn. by intros ? [= <-].
  - destruct (to_dict new_summary) as [d|e]; cbn.
    + destruct (objects_create env) as [[]|e]; cbn; intros [= <- <-].
      * split; [|cbn; by intros ? [= <-]].
        cbn. apply touches_only_store_row; [apply touches_only_refl|done].
      * split; [apply touches_only_refl|done].
    + intros [= <- <-]. split; [apply touches_only_refl|done].
Qed.

Lemma try_block_frame env target_file w0 m r fr :
  try_except (try_body env target_file) (handler env)
    {| db := w0; observed_file := None; mapping_var := m |} = (r, fr) ->
  frame_touches_only (bound_pk target_file w0) w0 fr.
Proof.
  set (p := bound_pk target_file w0).
  set (fr0 := {| db := w0; observed_file := None; mapping_var := m |}).
  assert (frame_touches_only p w0 fr0) as H0
    by (split; [apply touches_only_refl|done]).
  unfold try_except.
  destruct (try_body env target_file fr0) as [r1 fr1] eqn:Hbody.
  assert (frame_touches_only p w0 fr1) as H1.
  { revert Hbody. unfold try_body.
    unfold mbind at 1 2 3, M_bind at 1 2 3, lift at 1 2.
    destruct (init_processor env) as [[]|e]; [|by intros [= <- <-]].
    destruct (summarise_columns env) as [new_summary|e]; [|by intros [= <- <-]].
    destruct (resolve_file env target_file new_summary fr0)
      as [[[]|e] fr2] eqn:Hres; apply resolve_file_frame in Hres;
      [|by intros [= <- <-]].
    match goal with
    | |- ?rest fr2 = _ -> _ =>
        assert (preserves (frame_touches_only p w0) rest) as Hrest
    end.
    { apply preserves_bind; [apply preserves_gets|intros chosen].
      apply preserves_bind.
      { destruct chosen; [apply apply_mapping_frame|by apply set_attribute_frame]. }
      intros _. apply preserves_bind; [apply save_frame|intros _].
      apply preserves_bind; [apply preserves_gets|intros o].
      destruct o; [apply preserves_ret|apply preserves_raise]. }
    apply (Hrest _ _ _ Hres). }
  destruct r1 as [o|e]; [by intros [= <- <-]|].
  apply (handler_frame env p w0 e _ _ _ H1).
Qed.

(** X15.  An upload touches one file only.  Whatever the processor, the
    model layer and the storage do, and whether [create] returns or
    raises, every file row other than the one of the upload (the target
    of a re-upload, or the row that a first upload creates) is as it
    was, no partition row is removed or changed, and every partition row
    that is added belongs to the file of the upload. *)
Theorem create_touches_one_file env temp_name target_file request_mapping w r w' :
  create env temp_name target_file request_mapping w = (r, w') ->
  touches_only (bound_pk target_file w) w w'.
Proof.
  unfold create.
  destruct (write_chunks env) as [[]|e];
    [|intros [= <- <-]; exact (touches_only_refl _ w)].
  unfold try_finally.
  destruct (try_except (try_body env target_file) (handler env) _)
    as [r1 fr1] eqn:Hrun.
  apply try_block_frame in Hrun as [Hw _].
  assert (bound_pk target_file (add_temp_file temp_name w)
          = bound_pk target_file w) as Hb by (by destruct target_file).
  rewrite Hb in Hw. unfold modify. intros [= <- <-]. exact Hw.
Qed.

(** X16.  The temporary copy outlives [create] exactly when copying the
    upload into it raised.  That exception leaves [create] as it is, not
    as a validation error, and no file or partition row has changed. *)
Theorem temp_file_left_iff_copy_fails env temp_name target_file
    request_mapping w :
  let out := create env temp_name target_file request_mapping w in
  (temp_name ∈ temp_files out.2 <-> is_ok (write_chunks env) = false)
  /\ (forall e, write_chunks env = Raise e ->
        out.1 = Raise e
        /\ observed_files out.2 = observed_files w
        /\ parquet_partitions out.2 = parquet_partitions w).
Proof.
  cbv zeta. unfold create.
  destruct (write_chunks env) as [[]|e] eqn:Hw; cbn [is_ok].
  - split; [|by intros ? [=]].
    unfold try_finally.
    destruct (try_except (try_body env target_file) (handler env) _)
    as [r1 fr1] eqn:Hrun.
    apply try_block_outcome in Hrun as [Htemp _]. unfold modify. cbn.
    rewrite Htemp. split; [|done].
    intros [_ Hnot]%elem_of_difference. destruct Hnot. by apply elem_of_singleton.
  - split; [|by intros ? [= <-]]. cbn. split; [done|]. intros _.
    apply elem_of_union_l. by apply elem_of_singleton.
Qed.

End UploadOutcomes.

(** ** Storage-gated writes without room *)

Section StorageGatedWrites.
Import FileState StorageAllocator ObservedFileCreateSerializer.

Lemma partition_numbers_before p (files : list (string * Z)) (j : nat) :
  Forall (fun row => (partition_number row < j)%nat)
    (omap (partition_of p)
       (take j (enumerate files))).
Proof.
  apply Forall_forall. intros row Hrow.
  apply list_elem_of_omap in Hrow as ([i [name size]] & Hin & Hrow).
  apply elem_of_take in Hin as (k & Hk & Hlt).
  rewrite enumerate_lookup in Hk.
  destruct (files !! k) as [f |]; [| done]. injection Hk as <- ->.
  cbn in Hrow. destruct (endswith name ".parquet");
    [| done].
  by injection Hrow as <-.
Qed.

(** C3 (amended).  When no enabled storage type of the lab has room for
    the required bytes, the three storage-gated writes differ.

    The upload serializer, on the partition at position [j] of the
    processed file: the storage error is caught by the handler of the
    [try] block, which sets the file to IMPORT_FAILED and saves it.
    When that save returns, [create] raises a validation error (status
    400) that carries the message of the storage error, and the file is
    stored in state IMPORT_FAILED, whatever its state was, IMPORTING
    included; when that save raises, its exception leaves [create] and
    the file keeps the state it was bound with.  No partition row is
    written for position [j] or after it; the rows of the earlier
    positions stay.

    The creation of an arbitrary file: it fails and creates no row, and
    its serializer turns the storage error into a validation error
    (status 400).

    The upload report of a parquet partition: it fails with the storage
    error (status 507), writes no partition row and leaves every file
    state, IMPORTING included, as it is. *)
Theorem storage_exhausted_refuses_write :
  (forall env temp_name target_file request_mapping w new_summary mapping_id
          applicable files j name size s,
     write_chunks env = Ok tt ->
     init_processor env = Ok tt ->
     summarise_columns env = Ok new_summary ->
     match target_file with
     | Some tf => to_json new_summary = Ok (summary tf)
     | None => is_ok (to_dict new_summary) = true
               /\ objects_create env = Ok tt
     end ->
     chosen_mapping target_file request_mapping
     = Some mapping_id ->
     applicable_mappings env = Ok applicable ->
     mapping_id ∈ applicable ->
     save_mapping env = Ok tt ->
     rendered_map env = Ok tt ->
     process_data env = Ok tt ->
     data_files env = Ok files ->
     files !! j = Some (name, size) ->
     endswith name ".parquet" = true ->
     partition_create env j = spec_partition_create s size ->
     no_room s size ->
     (forall i name' size', (i < j)%nat -> files !! i = Some (name', size') ->
        endswith name' ".parquet" = true ->
        partition_create env i = Ok tt) ->
     let p := bound_pk target_file w in
     let raised :=
       match save_failed env with
       | Ok _ => ValidationError
                   ("Error processing file: " +:+
                    str_exn (StorageError "Insufficient storage"))
       | Raise e' => e'
       end in
     exists w',
       ObservedFileCreateSerializer.create env temp_name target_file
         request_mapping w = (Raise raised, w')
       /\ (is_ok (save_failed env) = true -> status_code raised = 400)
       /\ state
            <$> (observed_files w' !! p)
          = Some match save_failed env with
                 | Ok _ => IMPORT_FAILED
                 | Raise _ =>
                     bound_state env target_file
                 end
       /\ parquet_partitions w'
          = parquet_partitions w
            ++ omap (partition_of p)
                 (take j (enumerate files))
       /\ Forall (fun row =>
                    (partition_number row < j)%nat)
            (omap (partition_of p)
               (take j (enumerate files))))
  /\ (forall s f,
        no_room s (ArbitraryFileCreateSerializer.file_size f) ->
        ArbitraryFileCreateSerializer.file_name f <> "" ->
        ArbitraryFileCreateSerializer.create
          ArbitraryFileCreateSerializer.spec_models (Some f) s
        = (Raise (ValidationError "Insufficient storage"), s)
        /\ status_code (ValidationError "Insufficient storage") = 400)
  /\ (forall db handle
             (models : ArbitraryFileCreateSerializer.model_layer db handle)
             file d msg d',
        ArbitraryFileCreateSerializer.try_body models file
          match ArbitraryFileCreateSerializer.truthy file with
          | Some f => ArbitraryFileCreateSerializer.file_size f
          | None => 0
          end d
        = (Raise (StorageError msg), d') ->
        ArbitraryFileCreateSerializer.create models file d
        = (Raise (ValidationError msg), d))
  /\ (forall s file number num_bytes,
        no_room s num_bytes ->
        upload_parquet file number num_bytes s
        = (Raise (StorageError "Insufficient storage"), s)
        /\ status_code (StorageError "Insufficient storage") = 507).
Proof.
  split; [| split; [| split]].
  - intros env temp_name target_file request_mapping w new_summary mapping_id
      applicable files j name size s Hw Hi Hs Hres Hm Happ Hin Hsm Hr Hp Hd
      Hj Hname Hcreate Hno Hbefore p raised.
    unfold spec_partition_create in Hcreate.
    rewrite reserve_no_room in Hcreate by done.
    destruct (partition_failure_run env temp_name target_file request_mapping
                w new_summary mapping_id applicable files j name size _
                Hw Hi Hs Hres Hm Happ Hin Hsm Hr Hp Hd Hj Hname Hcreate Hbefore)
      as (w' & Hrun & Hparts & (o & Hrow & _ & Hstate) & _).
    exists w'. split; [exact Hrun |]. split.
    { subst raised. by destruct (save_failed env). }
    subst p. split; [by rewrite Hrow; cbn; rewrite Hstate |].
    split; [exact Hparts | apply partition_numbers_before].
  - intros s f Hno Hname. split; [| reflexivity].
    eapply create_storage_error; [| reflexivity].
    unfold ArbitraryFileCreateSerializer.try_body,
      ArbitraryFileCreateSerializer.truthy.
    rewrite decide_False by done.
    unfold mbind, M_bind, modify.
    cbn [ArbitraryFileCreateSerializer.spec_models
         ArbitraryFileCreateSerializer.objects_create
         ArbitraryFileCreateSerializer.save
         ArbitraryFileCreateSerializer.file_save].
    unfold modify.
    rewrite set_last_artifact. rewrite reserve_no_room; [reflexivity |].
    by apply no_room_unattributed.
  - intros db handle models file d msg d' Hbody.
    by eapply create_storage_error.
  - intros s file number num_bytes Hno. split; [| reflexivity].
    unfold upload_parquet. by rewrite reserve_no_room.
Qed.

Lemma storage_exhausted_refuses_write_witness :
  let s := mk_lab_store [mk_storage_type 1 0 0 true] [] ∅ in
  let tf := mk_observed_file 1 IMPORTING
              {[ "Voltage" := ["3.7"] ]} (Some 5%nat) None in
  let env := {| write_chunks := Ok tt; init_processor := Ok tt;
                summarise_columns :=
                  Ok {| to_json := Ok {[ "Voltage" := ["3.7"] ]};
                        to_dict := Ok {[ "Voltage" := ["3.7"] ]} |};
                objects_create := Ok tt; initial_state := AWAITING_FILE_METADATA;
                applicable_mappings := Ok [5%nat]; rendered_map := Ok tt;
                process_data := Ok tt;
                data_files := Ok [("part0.parquet", 100000)];
                partition_create := fun _ => spec_partition_create s 100000;
                open_png := Ok "preview.png";
                save_mapping := Ok tt; save_result := Ok tt;
                save_failed := Ok tt |} in
  let w := mk_world {[ 1%nat := tf ]} [] ∅ in
  exists w',
    ObservedFileCreateSerializer.create env "/tmp/upload" (Some tf) None w
    = (Raise (ValidationError
         ("Error processing file: " +:+
          str_exn (StorageError "Insufficient storage"))), w')
    /\ state <$> (observed_files w' !! 1%nat) = Some IMPORT_FAILED
    /\ parquet_partitions w' = [].
Proof.
  cbv zeta.
  edestruct (proj1 storage_exhausted_refuses_write
    {| write_chunks := Ok tt; init_processor := Ok tt;
       summarise_columns :=
         Ok {| to_json := Ok {[ "Voltage" := ["3.7"] ]};
               to_dict := Ok {[ "Voltage" := ["3.7"] ]} |};
       objects_create := Ok tt; initial_state := AWAITING_FILE_METADATA;
       applicable_mappings := Ok [5%nat]; rendered_map := Ok tt;
       process_data := Ok tt;
       data_files := Ok [("part0.parquet", 100000)];
       partition_create := fun _ =>
         spec_partition_create
           (mk_lab_store [mk_storage_type 1 0 0 true] [] ∅) 100000;
       open_png := Ok "preview.png";
       save_mapping := Ok tt; save_result := Ok tt; save_failed := Ok tt |}
    "/tmp/upload"
    (Some (mk_observed_file 1 IMPORTING
             {[ "Voltage" := ["3.7"] ]} (Some 5%nat) None))
    None
    (mk_world {[ 1%nat := mk_observed_file 1 IMPORTING
                            {[ "Voltage" := ["3.7"] ]} (Some 5%nat) None ]} [] ∅)
    {| to_json := Ok {[ "Voltage" := ["3.7"] ]};
       to_dict := Ok {[ "Voltage" := ["3.7"] ]} |}
    5%nat [5%nat] [("part0.parquet", 100000)] 0%nat "part0.parquet" 100000
    (mk_lab_store [mk_storage_type 1 0 0 true] [] ∅))
    as (w' & Hrun & _ & Hstate & Hparts & _); try reflexivity.
  - left.
  - intros st Hin Hen. apply list_elem_of_singleton in Hin as ->.
    vm_compute. reflexivity.
  - intros i name' size' Hlt. lia.
  - exists w'. split; [exact Hrun |]. split; [exact Hstate | exact Hparts].
Defined.

End StorageGatedWrites.

Section UploadOutcomeExamples.
Import FileState ObservedFileCreateSerializer.

Lemma mapped_upload_is_imported_witness :
  let tf := mk_observed_file 1 AWAITING_MAP_ASSIGNMENT
              {[ "Voltage" := ["3.7"] ]} (Some 5%nat) None in
  let frame := {| to_json := Ok {[ "Voltage" := ["3.7"] ]};
                  to_dict := Ok {[ "Voltage" := ["3.7"] ]} |} in
  let files := [("part0.parquet", 10); ("notes.txt", 3); ("part1.parquet", 20)] in
  let env := {| write_chunks := Ok tt; init_processor := Ok tt;
                summarise_columns := Ok frame;
                objects_create := Ok tt; initial_state := AWAITING_FILE_METADATA;
                applicable_mappings := Ok [5%nat]; rendered_map := Ok tt;
                process_data := Ok tt; data_files := Ok files;
                partition_create := fun _ => Ok tt; open_png := Ok "preview.png";
                save_mapping := Ok tt; save_result := Ok tt;
                save_failed := Ok tt |} in
  let w := mk_world {[ 1%nat := tf ]} [] ∅ in
  exists o w',
    create env "/tmp/upload" (Some tf) None w = (Ok o, w')
    /\ state o = IMPORTED
    /\ parquet_partitions w'
       = [mk_partition 1 0 10 "part0.parquet"; mk_partition 1 2 20 "part1.parquet"].
Proof.
  cbv zeta.
  edestruct (mapped_upload_is_imported
    {| write_chunks := Ok tt; init_processor := Ok tt;
       summarise_columns :=
         Ok {| to_json := Ok {[ "Voltage" := ["3.7"] ]};
               to_dict := Ok {[ "Voltage" := ["3.7"] ]} |};
       objects_create := Ok tt; initial_state := AWAITING_FILE_METADATA;
       applicable_mappings := Ok [5%nat]; rendered_map := Ok tt;
       process_data := Ok tt;
       data_files := Ok [("part0.parquet", 10); ("notes.txt", 3);
                         ("part1.parquet", 20)];
       partition_create := fun _ => Ok tt; open_png := Ok "preview.png";
       save_mapping := Ok tt; save_result := Ok tt; save_failed := Ok tt |}
    "/tmp/upload"
    (Some (mk_observed_file 1 AWAITING_MAP_ASSIGNMENT
             {[ "Voltage" := ["3.7"] ]} (Some 5%nat) None))
    None
    (mk_world {[ 1%nat := mk_observed_file 1 AWAITING_MAP_ASSIGNMENT
                            {[ "Voltage" := ["3.7"] ]} (Some 5%nat) None ]} [] ∅)
    {| to_json := Ok {[ "Voltage" := ["3.7"] ]};
       to_dict := Ok {[ "Voltage" := ["3.7"] ]} |}
    5%nat [5%nat]
    [("part0.parquet", 10); ("notes.txt", 3); ("part1.parquet", 20)]
    "preview.png")
    as (o & w' & Hrun & Hpk & Hstate & _ & _ & _ & Hparts & _);
    try reflexivity.
  - left.
  - exists o, w'. split; [exact Hrun|]. split; [exact Hstate|].
    rewrite Hparts, Hpk. reflexivity.
Defined.

Lemma partition_failure_keeps_earlier_rows_witness :
  let tf := mk_observed_file 1 AWAITING_MAP_ASSIGNMENT
              {[ "Voltage" := ["3.7"] ]} (Some 5%nat) None in
  let frame := {| to_json := Ok {[ "Voltage" := ["3.7"] ]};
                  to_dict := Ok {[ "Voltage" := ["3.7"] ]} |} in
  let files := [("part0.parquet", 10); ("notes.txt", 3); ("part1.parquet", 20)] in
  let env := {| write_chunks := Ok tt; init_processor := Ok tt;
                summarise_columns := Ok frame;
                objects_create := Ok tt; initial_state := AWAITING_FILE_METADATA;
                applicable_mappings := Ok [5%nat]; rendered_map := Ok tt;
                process_data := Ok tt; data_files := Ok files;
                partition_create := fun i =>
                  if (i =? 2)%nat then Raise (StorageError "no room") else Ok tt;
                open_png := Ok "preview.png";
                save_mapping := Ok tt; save_result := Ok tt;
                save_failed := Ok tt |} in
  let w := mk_world {[ 1%nat := tf ]} [] ∅ in
  exists w',
    create env "/tmp/upload" (Some tf) None w
    = (Raise (ValidationError
         ("Error processing file: " +:+ str_exn (StorageError "no room"))), w')
    /\ parquet_partitions w' = [mk_partition 1 0 10 "part0.parquet"].
Proof.
  cbv zeta.
  edestruct (partition_failure_keeps_earlier_rows
    {| write_chunks := Ok tt; init_processor := Ok tt;
       summarise_columns :=
         Ok {| to_json := Ok {[ "Voltage" := ["3.7"] ]};
               to_dict := Ok {[ "Voltage" := ["3.7"] ]} |};
       objects_create := Ok tt; initial_state := AWAITING_FILE_METADATA;
       applicable_mappings := Ok [5%nat]; rendered_map := Ok tt;
       process_data := Ok tt;
       data_files := Ok [("part0.parquet", 10); ("notes.txt", 3);
                         ("part1.parquet", 20)];
       partition_create := fun i =>
         if (i =? 2)%nat then Raise (StorageError "no room") else Ok tt;
       open_png := Ok "preview.png";
       save_mapping := Ok tt; save_result := Ok tt; save_failed := Ok tt |}
    "/tmp/upload"
    (Some (mk_observed_file 1 AWAITING_MAP_ASSIGNMENT
             {[ "Voltage" := ["3.7"] ]} (Some 5%nat) None))
    None
    (mk_world {[ 1%nat := mk_observed_file 1 AWAITING_MAP_ASSIGNMENT
                            {[ "Voltage" := ["3.7"] ]} (Some 5%nat) None ]} [] ∅)
    {| to_json := Ok {[ "Voltage" := ["3.7"] ]};
       to_dict := Ok {[ "Voltage" := ["3.7"] ]} |}
    5%nat [5%nat]
    [("part0.parquet", 10); ("notes.txt", 3); ("part1.parquet", 20)]
    2%nat "part1.parquet" 20 (StorageError "no room"))
    as (w' & Hrun & Hparts & _); try reflexivity.
  - left.
  - intros i name' size' Hlt _ _. cbn.
    destruct i as [|[|i]]; [reflexivity|reflexivity|lia].
  - exists w'. split; [exact Hrun|]. rewrite Hparts. reflexivity.
Defined.

Lemma first_upload_awaits_mapping_witness :
  let frame := {| to_json := Ok {[ "Voltage" := ["3.7"] ]};
                  to_dict := Ok {[ "Voltage" := ["3.7"] ]} |} in
  let env := {| write_chunks := Ok tt; init_processor := Ok tt;
                summarise_columns := Ok frame;
                objects_create := Ok tt; initial_state := AWAITING_FILE_METADATA;
                applicable_mappings := Ok [5%nat]; rendered_map := Ok tt;
                process_data := Ok tt; data_files := Ok [("part0.parquet", 10)];
                partition_create := fun _ => Ok tt; open_png := Ok "preview.png";
                save_mapping := Ok tt; save_result := Ok tt;
                save_failed := Ok tt |} in
  let w := mk_world ∅ [] ∅ in
  exists o w',
    create env "/tmp/upload" None None w = (Ok o, w')
    /\ state o = AWAITING_MAP_ASSIGNMENT
    /\ parquet_partitions w' = [].
Proof.
  cbv zeta.
  edestruct (first_upload_awaits_mapping
    {| write_chunks := Ok tt; init_processor := Ok tt;
       summarise_columns :=
         Ok {| to_json := Ok {[ "Voltage" := ["3.7"] ]};
               to_dict := Ok {[ "Voltage" := ["3.7"] ]} |};
       objects_create := Ok tt; initial_state := AWAITING_FILE_METADATA;
       applicable_mappings := Ok [5%nat]; rendered_map := Ok tt;
       process_data := Ok tt; data_files := Ok [("part0.parquet", 10)];
       partition_create := fun _ => Ok tt; open_png := Ok "preview.png";
       save_mapping := Ok tt; save_result := Ok tt; save_failed := Ok tt |}
    "/tmp/upload" (mk_world ∅ [] ∅)
    {| to_json := Ok {[ "Voltage" := ["3.7"] ]};
       to_dict := Ok {[ "Voltage" := ["3.7"] ]} |})
    as (o & w' & Hrun & _ & Hstate & _ & _ & _ & Hparts & _);
    try reflexivity.
  exists o, w'. split; [exact Hrun|]. split; [exact Hstate|exact Hparts].
Defined.

Lemma create_touches_one_file_witness :
  let tf := mk_observed_file 1 AWAITING_MAP_ASSIGNMENT
              {[ "Voltage" := ["3.7"] ]} (Some 5%nat) None in
  let other := mk_observed_file 2 IMPORTED
                 {[ "Current" := ["0.1"] ]} (Some 5%nat) (Some "two.png") in
  let env := {| write_chunks := Ok tt; init_processor := Ok tt;
                summarise_columns :=
                  Ok {| to_json := Ok {[ "Voltage" := ["3.7"] ]};
                        to_dict := Ok {[ "Voltage" := ["3.7"] ]} |};
                objects_create := Ok tt; initial_state := AWAITING_FILE_METADATA;
                applicable_mappings := Ok [5%nat]; rendered_map := Ok tt;
                process_data := Raise (Exception "unreadable row");
                data_files := Ok [];
                partition_create := fun _ => Ok tt; open_png := Ok "preview.png";
                save_mapping := Ok tt; save_result := Ok tt;
                save_failed := Ok tt |} in
  let w := mk_world {[ 1%nat := tf; 2%nat := other ]}
             [mk_partition 2 0 10 "two.parquet"] ∅ in
  touches_only 1 w (create env "/tmp/upload" (Some tf) None w).2.
Proof.
  cbv zeta.
  exact (create_touches_one_file _ "/tmp/upload"
           (Some (mk_observed_file 1 AWAITING_MAP_ASSIGNMENT
                    {[ "Voltage" := ["3.7"] ]} (Some 5%nat) None))
           None _ _ _ (surjective_pairing _)).
Defined.

Lemma temp_file_left_iff_copy_fails_witness :
  let env := {| write_chunks := Raise (Exception "No space left on device");
                init_processor := Ok tt;
                summarise_columns := Raise (Exception "unsupported file");
                objects_create := Ok tt; initial_state := AWAITING_FILE_METADATA;
                applicable_mappings := Ok []; rendered_map := Ok tt;
                process_data := Ok tt; data_files := Ok [];
                partition_create := fun _ => Ok tt; open_png := Ok "preview.png";
                save_mapping := Ok tt; save_result := Ok tt;
                save_failed := Ok tt |} in
  let w := mk_world ∅ [] ∅ in
  (create env "/tmp/upload" None None w).1
  = Raise (Exception "No space left on device")
  /\ observed_files (create env "/tmp/upload" None None w).2 = observed_files w
  /\ parquet_partitions (create env "/tmp/upload" None None w).2
     = parquet_partitions w.
Proof.
  cbv zeta.
  apply (proj2 (temp_file_left_iff_copy_fails
    {| write_chunks := Raise (Exception "No space left on device");
       init_processor := Ok tt;
       summarise_columns := Raise (Exception "unsupported file");
       objects_create := Ok tt; initial_state := AWAITING_FILE_METADATA;
       applicable_mappings := Ok []; rendered_map := Ok tt;
       process_data := Ok tt; data_files := Ok [];
       partition_create := fun _ => Ok tt; open_png := Ok "preview.png";
       save_mapping := Ok tt; save_result := Ok tt; save_failed := Ok tt |}
    "/tmp/upload" None None (mk_world ∅ [] ∅))).
  reflexivity.
Defined.

End UploadOutcomeExamples.

(** ** Names, members and keys *)

Section HarvesterNameInvariant.
Import HarvesterSerializer.

(** X17.  Validated names keep the names of harvesters unique within
    each lab.  When no two harvesters of a lab share a name, a rename
    that [validate_name] accepts leaves it so, and so does adding a
    harvester, in any lab, under a name that [validate_name] accepts
    for a create. *)
Theorem validated_names_stay_unique objects value :
  unique_names objects ->
  (forall inst,
     inst ∈ objects ->
     (forall h, h ∈ objects -> id h = id inst -> h = inst) ->
     validate_name objects (Some inst) value = Ok value ->
     unique_names (rename objects inst value))
  /\ (forall new_id new_lab,
        new_id ∉ id <$> objects ->
        validate_name objects None value = Ok value ->
        unique_names (objects ++ [mk_harvester new_id value new_lab])).
Proof.
  intros Huniq. split.
  - intros inst Hinst Hkey Hvalid.
    apply (proj2 (validate_name_rename objects inst value)) in Hvalid.
    intros h1' h2' Hin1 Hin2.
    unfold rename in Hin1, Hin2.
    apply list_elem_of_fmap in Hin1 as (h1 & -> & Hin1).
    apply list_elem_of_fmap in Hin2 as (h2 & -> & Hin2).
    destruct (decide (id h1 = id inst)) as [H1|H1];
      destruct (decide (id h2 = id inst)) as [H2|H2]; cbn.
    + congruence.
    + intros Hname Hlab. destruct Hvalid. exists h2.
      rewrite (Hkey h1 Hin1 H1) in Hlab. done.
    + intros Hname Hlab. destruct Hvalid. exists h1.
      rewrite (Hkey h2 Hin2 H2) in Hlab. done.
    + by apply Huniq.
  - intros new_id new_lab Hfresh Hvalid.
    apply (proj2 (validate_name_create objects value)) in Hvalid.
    intros h1 h2 [Hin1| ->%list_elem_of_singleton]%elem_of_app
      [Hin2| ->%list_elem_of_singleton]%elem_of_app; cbn.
    + by apply Huniq.
    + intros Hname _. destruct Hvalid. by exists h1.
    + intros Hname _. destruct Hvalid. by exists h2.
    + done.
Qed.

Lemma validated_names_stay_unique_witness :
  let objects := [mk_harvester 1 "Cycler" 1; mk_harvester 2 "Other" 2] in
  unique_names (rename objects (mk_harvester 2 "Other" 2) "Cycler").
Proof.
  cbv zeta.
  apply (proj1 (validated_names_stay_unique
                  [mk_harvester 1 "Cycler" 1; mk_harvester 2 "Other" 2] "Cycler"
                  ltac:(intros h1 h2 Hin1 Hin2;
                        rewrite !elem_of_cons, elem_of_nil in Hin1, Hin2;
                        destruct Hin1 as [->|[->|[]]];
                        destruct Hin2 as [->|[->|[]]]; cbn; congruence))).
  - right. left.
  - intros h Hin. rewrite !elem_of_cons, elem_of_nil in Hin.
    destruct Hin as [->|[->|[]]]; cbn; congruence.
  - vm_compute. reflexivity.
Defined.

End HarvesterNameInvariant.

Section GroupMembers.
Import TransparentGroupSerializer.

(** X18.  A submission of users replaces the members of a group by the
    active users among those submitted: after a successful submission a
    user is a member exactly when the submission names it and it is
    active, whoever was a member before; the lab of the group is
    unchanged. *)
Theorem group_members_are_active_submitted g users g' :
  submit_users g users = Ok g' ->
  (forall n, n ∈ user_set g'
     <-> exists u, u ∈ users /\ user_id u = n /\ is_active u = true)
  /\ editable_lab g' = editable_lab g.
Proof.
  unfold submit_users, update, validate_users. rewrite lookup_singleton_eq.
  destruct (hasattr_editable_lab g && _); [by intros [=]|].
  intros [= <-]. cbn. split; [|done].
  intros n. rewrite elem_of_list_to_set, list_elem_of_fmap. split.
  - intros (u & -> & [Hact Hin]%list_elem_of_filter). by exists u.
  - intros (u & Hin & <- & Hact). exists u. split; [done|].
    by apply list_elem_of_filter.
Qed.

Lemma group_members_are_active_submitted_witness :
  let g := {| user_set := {[ 7%nat ]}; editable_lab := None |} in
  let users := [mk_user 1 true; mk_user 2 false] in
  (forall n, n ∈ user_set {| user_set := {[ 1%nat ]}; editable_lab := None |}
     <-> exists u, u ∈ users /\ user_id u = n /\ is_active u = true)
  /\ editable_lab {| user_set := {[ 1%nat ]}; editable_lab := None |}
     = editable_lab g.
Proof.
  cbv zeta.
  apply (group_members_are_active_submitted
           {| user_set := {[ 7%nat ]}; editable_lab := None |}
           [mk_user 1 true; mk_user 2 false]).
  vm_compute. reflexivity.
Defined.

End GroupMembers.

Section StorageKeys.
Import ColumnMappingSerializer AdditionalS3StorageTypeSerializer.
Context (access_key_representation secret_key_representation : string -> string).

(** X19.  The keys of an S3 storage survive a round trip.  On an
    update, submitting a key in the form in which the serializer shows
    the stored one, or submitting nothing for it, gives back the stored
    key, so sending back what was read changes neither key.  Any other
    accepted value is a string that is not empty and is returned as it
    is; everything else is rejected with a validation error. *)
Theorem storage_keys_round_trip :
  (forall inst,
     validate_access_key access_key_representation (Some inst)
       (PStr (access_key_representation (access_key inst))) = Ok (access_key inst)
     /\ validate_access_key access_key_representation (Some inst) PNone
        = Ok (access_key inst)
     /\ validate_secret_key secret_key_representation (Some inst)
          (PStr (secret_key_representation (secret_key inst))) = Ok (secret_key inst)
     /\ validate_secret_key secret_key_representation (Some inst) PNone
        = Ok (secret_key inst))
  /\ (forall self_instance value,
        match validate_access_key access_key_representation self_instance value with
        | Ok k =>
            (exists i, self_instance = Some i /\ k = access_key i
               /\ (value = PNone
                   \/ value = PStr (access_key_representation (access_key i))))
            \/ (value = PStr k /\ k <> "")
        | Raise e => e = ValidationError "access_key must be a string"
        end)
  /\ (forall self_instance value,
        match validate_secret_key secret_key_representation self_instance value with
        | Ok k =>
            (exists i, self_instance = Some i /\ k = secret_key i
               /\ (value = PNone
                   \/ value = PStr (secret_key_representation (secret_key i))))
            \/ (value = PStr k /\ k <> "")
        | Raise e => e = ValidationError "secret_key must be a string"
        end).
Proof.
  split; [|split].
  - intros inst. unfold validate_access_key, validate_secret_key. cbn.
    by rewrite !bool_decide_eq_true_2 by done.
  - intros [i|] value; unfold validate_access_key.
    + destruct value as [|b|z|q|s|]; cbn; eauto 10.
      case_bool_decide; [subst; eauto 10|].
      destruct (decide (s = "")); eauto.
    + destruct value as [|b|z|q|s|]; cbn; eauto.
      destruct (decide (s = "")); eauto.
  - intros [i|] value; unfold validate_secret_key.
    + destruct value as [|b|z|q|s|]; cbn; eauto 10.
      case_bool_decide; [subst; eauto 10|].
      destruct (decide (s = "")); eauto.
    + destruct value as [|b|z|q|s|]; cbn; eauto.
      destruct (decide (s = "")); eauto.
Qed.

End StorageKeys.

Section ScheduleVariables.
Import ColumnMappingSerializer ScheduleSerializer.
Context `{PyBuiltins}.

Lemma check_variables_ok keys items :
  check_variables keys items = Ok tt ->
  forall k v, (k, v) ∈ items ->
    k ∈ keys /\ exists x, py_float v = Converted x.
Proof.
  induction items as [|[k0 v0] items IH]; cbn [check_variables].
  - intros _ k v Hin. by apply elem_of_nil in Hin.
  - case_bool_decide as Hk; [by intros [=]|].
    destruct (py_float v0) as [x| |] eqn:Hv; [|by intros [=]..].
    intros Hrest k v [[= -> ->]|Hin]%elem_of_cons.
    + split; [|by eauto]. by destruct (decide (k0 ∈ keys)).
    + by apply IH.
Qed.

(** X20.  The schedule variables that validation returns fit the
    template: the value comes back unchanged, and when it is a
    dictionary the family has a template, every key is a variable name
    of the template, and every value converts to a float.  Without an
    instance, that is on a create, the validator does not return and
    what it raises is not a validation error. *)
Theorem schedule_variables_fit_template self_instance value :
  (forall r, validate_pybamm_schedule_variables self_instance value = Ok r ->
     r = value
     /\ exists family,
          self_instance = Some family
          /\ forall items, value = Some items ->
               is_Some (pybamm_template family)
               /\ forall k v, (k, v) ∈ items ->
                    k ∈ pybamm_template_variable_names family
                    /\ exists x, py_float v = Converted x)
  /\ (self_instance = None ->
      is_ok (validate_pybamm_schedule_variables self_instance value) = false
      /\ is_validation_error
           (validate_pybamm_schedule_variables self_instance value) = false).
Proof.
  unfold validate_pybamm_schedule_variables. split.
  - intros r. destruct self_instance as [family|]; [|by intros [=]].
    destruct (pybamm_template family) as [template|] eqn:Ht;
      destruct value as [items|]; try (by intros [=]).
    + destruct (check_variables _ items) as [[]|e] eqn:Hcheck;
        cbn [mbind result_bind]; [|by intros [=]].
      intros [= <-]. split; [done|]. exists family. split; [done|].
      intros ? [= <-]. split; [by eauto|].
      by apply check_variables_ok.
    + intros [= <-]. split; [done|]. exists family. split; [done|].
      by intros ? [=].
    + intros [= <-]. split; [done|]. exists family. split; [done|].
      by intros ? [=].
  - by intros ->.
Qed.

End ScheduleVariables.

Section ScheduleVariableExamples.
Import ColumnMappingSerializer ScheduleSerializer.

Lemma schedule_variables_fit_template_witness :
  let family := mk_schedule_family (Some "Discharge at {rate} A") ["rate"] in
  let value := Some [("rate", PStr "2")] in
  value = value
  /\ exists family',
       Some family = Some family'
       /\ forall items, value = Some items ->
            is_Some (pybamm_template family')
            /\ forall k v, (k, v) ∈ items ->
                 k ∈ pybamm_template_variable_names family'
                 /\ exists x, @py_float sample_builtins v = Converted x.
Proof.
  cbv zeta.
  apply (proj1 (@schedule_variables_fit_template sample_builtins
                  (Some (mk_schedule_family (Some "Discharge at {rate} A") ["rate"]))
                  (Some [("rate", PStr "2")]))).
  vm_compute. reflexivity.
Defined.

End ScheduleVariableExamples.

Section ArbitraryFiles.
Import ArbitraryFileCreateSerializer.
Context {db handle : Type} (models : model_layer db handle).

(** X21.  Creating an arbitrary file is all or nothing, for every model
    layer: when [create] raises, the database is as it was before the
    call, whatever the calls into the model layer had written.  A
    storage error never leaves [create]: it comes out as a validation
    error with the same message, and every other exception comes out as
    it was raised.  When [create] returns, the database is the one that
    the calls into the model layer left. *)
Theorem arbitrary_file_all_or_nothing file d :
  let bytes_required :=
    match truthy file with Some f => file_size f | None => 0 end in
  match try_body models file bytes_required d with
  | (Ok h, d') => create models file d = (Ok h, d')
  | (Raise (StorageError msg), _) =>
      create models file d = (Raise (ValidationError msg), d)
  | (Raise e, _) => create models file d = (Raise e, d)
  end
  /\ (forall e d', create models file d = (Raise e, d') ->
        d' = d /\ forall msg, e <> StorageError msg).
Proof.
  cbv zeta. unfold create, atomic, except_StorageError.
  destruct (try_body models file _ d) as [[h|[msg|msg|msg]] d1]; cbn;
    (split; [done|]); intros e d'; intros [= <- <-]; by split.
Qed.

End ArbitraryFiles.

Section ArbitraryFileExamples.
Import ArbitraryFileCreateSerializer.

Lemma arbitrary_file_all_or_nothing_witness :
  let models : model_layer nat unit :=
    {| objects_create := fun _ rows => (Ok tt, S rows);
       save := fun _ _ rows => (Ok tt, rows);
       file_save := fun _ _ rows => (Raise (Exception "Connection reset"), rows) |} in
  0%nat = 0%nat /\ forall msg, Exception "Connection reset" <> StorageError msg.
Proof.
  cbv zeta.
  apply (proj2 (arbitrary_file_all_or_nothing
    {| objects_create := fun _ rows => (Ok tt, S rows);
       save := fun _ _ rows => (Ok tt, rows);
       file_save := fun _ _ rows => (Raise (Exception "Connection reset"), rows) |}
    (Some (mk_uploaded_file "notes.txt" 12)) 0%nat)).
  reflexivity.
Defined.

End ArbitraryFileExamples.

(** ** Users and password resets *)

Section Emails.
Import UserSerializer.

Lemma validate_email_ok objects self_instance value :
  validate_email objects self_instance value = Ok value ->
  (exists inst, self_instance = Some inst /\ email inst = value)
  \/ (forall u, u ∈ objects -> email u <> value).
Proof.
  unfold validate_email.
  destruct (match self_instance with
            | Some inst => bool_decide (email inst = value)
            | None => false
            end) eqn:Hsame.
  - intros _. left. destruct self_instance as [inst|]; [|done].
    apply bool_decide_eq_true_1 in Hsame. eauto.
  - destruct (bool_decide (filter (fun u => email u = value) objects <> []))
      eqn:Hany; [by intros [=]|].
    intros _. right. intros u Hin Hmail.
    apply bool_decide_eq_false_1 in Hany. apply Hany. intros Hnil.
    assert (u ∈ filter (fun u => email u = value) objects) as Hu
      by (by apply list_elem_of_filter).
    rewrite Hnil in Hu. by apply elem_of_nil in Hu.
Qed.

(** X22.  Validated email addresses stay unique.  When no two users
    share an email address, saving an address that [validate_email]
    accepted, on the user being updated or on a new user, leaves it
    so; an update that submits the stored address is always accepted. *)
Theorem validated_emails_stay_unique objects value :
  unique_emails objects ->
  (forall inst,
     inst ∈ objects ->
     validate_email objects (Some inst) value = Ok value ->
     unique_emails (set_email objects inst value))
  /\ (forall new_pk new_password,
        validate_email objects None value = Ok value ->
        new_pk ∉ pk <$> objects ->
        unique_emails (objects ++ [mk_user new_pk value new_password]))
  /\ (forall inst, email inst = value ->
        validate_email objects (Some inst) value = Ok value).
Proof.
  intros Huniq. split; [|split].
  - intros inst Hinst Hvalid.
    apply validate_email_ok in Hvalid as [(i & [= <-] & Hsame)|Hfree];
      intros u1' u2' Hin1 Hin2; unfold set_email in Hin1, Hin2;
      apply list_elem_of_fmap in Hin1 as (u1 & -> & Hin1);
      apply list_elem_of_fmap in Hin2 as (u2 & -> & Hin2);
      destruct (decide (pk u1 = pk inst)) as [H1|H1];
      destruct (decide (pk u2 = pk inst)) as [H2|H2]; cbn;
      try congruence; try (by apply Huniq).
    + intros Hmail. destruct H2. symmetry. apply Huniq; congruence.
    + intros Hmail. destruct H1. symmetry. apply Huniq; congruence.
    + intros Hmail. by destruct (Hfree u2 Hin2).
    + intros Hmail. by destruct (Hfree u1 Hin1).
  - intros new_pk new_password Hvalid Hfresh.
    apply validate_email_ok in Hvalid as [(i & [=] & _)|Hfree].
    intros u1 u2 [Hin1| ->%list_elem_of_singleton]%elem_of_app
      [Hin2| ->%list_elem_of_singleton]%elem_of_app; cbn.
    + by apply Huniq.
    + intros Hmail. by destruct (Hfree u1 Hin1).
    + intros Hmail. by destruct (Hfree u2 Hin2).
    + done.
  - intros inst Hmail. unfold validate_email.
    by rewrite bool_decide_eq_true_2.
Qed.

Lemma validated_emails_stay_unique_witness :
  let objects := [mk_user 1 "a@lab.org" "secret-one"] in
  unique_emails (objects ++ [mk_user 2 "b@lab.org" "secret-two"]).
Proof.
  cbv zeta.
  apply (proj1 (proj2 (validated_emails_stay_unique
                  [mk_user 1 "a@lab.org" "secret-one"] "b@lab.org"
                  ltac:(intros u1 u2 Hin1 Hin2;
                        rewrite !elem_of_cons, elem_of_nil in Hin1, Hin2;
                        destruct Hin1 as [->|[]];
                        destruct Hin2 as [->|[]]; done)))).
  - vm_compute. reflexivity.
  - cbn. rewrite elem_of_cons, elem_of_nil. intros [[=]|[]].
Defined.

End Emails.

Section PasswordResets.
Import UserSerializer PasswordResetSerializer.

Lemma objects_get_found {A} (matching : list A) (a : A) :
  objects_get matching = Found a -> matching = [a].
Proof. destruct matching as [|x [|y l]]; cbn; by intros [= ->]. Qed.

Lemma filter_email_saved (l : list user) u p address :
  (forall x, x ∈ l -> pk x = pk u -> x = u) ->
  email u = address ->
  filter (fun u' => email u' = address)
    ((fun u' => if decide (pk u' = pk u)
                then {| pk := pk u'; email := email u; password := p |}
                else u') <$> l)
  = (fun u' => if decide (pk u' = pk u)
               then {| pk := pk u'; email := email u; password := p |}
               else u') <$> filter (fun u' => email u' = address) l.
Proof.
  intros Hkey Hmail. induction l as [|x l IH]; [done|].
  rewrite fmap_cons.
  assert (forall y, y ∈ l -> pk y = pk u -> y = u) as Hkey'
    by (intros y Hy; apply Hkey; by right).
  destruct (decide (pk x = pk u)) as [Hx|Hx].
  - assert (x = u) as -> by (apply Hkey; [left|done]).
    rewrite !filter_cons_True by done. rewrite fmap_cons, decide_True by done.
    by rewrite IH.
  - destruct (decide (email x = address)) as [Hy|Hy].
    + rewrite !filter_cons_True by done. rewrite fmap_cons, decide_False by done.
      by rewrite IH.
    + rewrite !filter_cons_False by done. by apply IH.
Qed.

Lemma no_reset_left db u u' tok :
  pk u' = pk u -> get_reset (delete_resets u db) u' tok = DoesNotExist.
Proof.
  intros Hpk. unfold get_reset, delete_resets. cbn [password_resets].
  rewrite Hpk.
  assert (filter (fun r => reset_user r = pk u /\ token r = tok)
            (filter (fun r => reset_user r <> pk u) (password_resets db))
          = []) as ->; [|done].
  induction (password_resets db) as [|r l IH]; [done|].
  destruct (decide (reset_user r <> pk u)).
  - rewrite (filter_cons_True (fun r => reset_user r <> pk u)) by done.
    rewrite filter_cons_False; [done|]. tauto.
  - by rewrite (filter_cons_False (fun r => reset_user r <> pk u)).
Qed.

(** X23.  A password reset token can be used once.  When [validate]
    accepts an email address and a token, [reset] stores the new
    password on that user and deletes every reset token of the user, so
    that afterwards [validate] rejects every token for that address with
    the error for an invalid token.  The tokens and the rows of other
    users stay. *)
Theorem reset_token_is_single_use db address tok p :
  (forall x y, x ∈ users db -> y ∈ users db -> pk x = pk y -> x = y) ->
  validate db address tok = Ok (address, tok) ->
  exists u db',
    get_user db address = Found u
    /\ reset address p db = (Ok true, db')
    /\ {| pk := pk u; email := address; password := p |} ∈ users db'
    /\ (forall tok', validate db' address tok'
                     = Raise (ValidationError "Invalid token"))
    /\ (forall r, r ∈ password_resets db'
          <-> r ∈ password_resets db /\ reset_user r <> pk u)
    /\ (forall x, x ∈ users db -> pk x <> pk u -> x ∈ users db').
Proof.
  intros Hkey. unfold validate, reset.
  destruct (get_user db address) as [u| |] eqn:Huser; try (by intros [=]).
  intros _. unfold get_user in Huser. apply objects_get_found in Huser.
  assert (u ∈ users db /\ email u = address) as [Hin Hmail].
  { assert (u ∈ filter (fun u' => email u' = address) (users db)) as Hu
      by (rewrite Huser; left).
    apply list_elem_of_filter in Hu as [? ?]. done. }
  assert (filter (fun u' => email u' = address)
            (users (delete_resets u (save_password u p db)))
          = [{| pk := pk u; email := email u; password := p |}]) as Hafter.
  { cbn [delete_resets save_password users].
    rewrite filter_email_saved, Huser by (intros; eauto). cbn.
    by rewrite decide_True. }
  exists u, (delete_resets u (save_password u p db)).
  split; [done|]. split; [done|]. split; [|split; [|split]].
  - assert ({| pk := pk u; email := email u; password := p |}
            ∈ filter (fun u' => email u' = address)
                (users (delete_resets u (save_password u p db)))) as Hu
      by (rewrite Hafter; left).
    apply list_elem_of_filter in Hu as [_ Hu]. by rewrite <- Hmail.
  - intros tok'. unfold get_user. rewrite Hafter. cbn [objects_get].
    by rewrite no_reset_left.
  - intros r. cbn. rewrite list_elem_of_filter. tauto.
  - intros x Hx Hne. cbn. apply list_elem_of_fmap. exists x.
    split; [|done]. by rewrite decide_False.
Qed.

Lemma reset_token_is_single_use_witness :
  let db := mk_database [mk_user 1 "a@lab.org" "old-secret"]
              [mk_password_reset 1 "t0k3n" false] in
  exists u db',
    get_user db "a@lab.org" = Found u
    /\ reset "a@lab.org" "new-secret" db = (Ok true, db')
    /\ (forall tok', validate db' "a@lab.org" tok'
                     = Raise (ValidationError "Invalid token")).
Proof.
  cbv zeta.
  destruct (reset_token_is_single_use
              (mk_database [mk_user 1 "a@lab.org" "old-secret"]
                 [mk_password_reset 1 "t0k3n" false])
              "a@lab.org" "t0k3n" "new-secret")
    as (u & db' & Hu & Hreset & _ & Hused & _).
  - intros x y Hx Hy _. cbn in Hx, Hy.
    rewrite elem_of_cons, elem_of_nil in Hx, Hy.
    destruct Hx as [->|[]]. by destruct Hy as [->|[]].
  - vm_compute. reflexivity.
  - by exists u, db'.
Defined.

End PasswordResets.
